(** * MikroTik / Google-Sheets reconciliation engine

    A shallow embedding of [src/mikrotik_manager.py] and [src/sheet_sync.py].

    Text.  Python [str] values are modelled as Stdlib strings of 8-bit
    characters (the UTF-8 bytes of the text).  [split], [startswith], [in],
    concatenation and equality act on those bytes exactly as Python acts on
    the code points.  Whitespace ([strip]) and letter case ([lower], [upper])
    are the ASCII ones; the model is exact for text whose non-ASCII
    characters are neither cased nor white space (Arabic names, for
    instance).

    Numbers and lengths.  [int] reads ASCII text only: its white space is
    TAB..CR and the space (the separators FS..US, which [strip] removes,
    make [int] raise), its digits are [0]..[9], and a text of more than
    4300 digits raises, as with CPython's default limit.  Python's [int]
    also reads the decimal digits and the white space of other scripts
    (Arabic-Indic digits, the no-break space); the model raises on those,
    so a statement that depends on [int] raising is made for ASCII text
    only.  The digits of the pattern of [is_ip_address] are [0]..[9] as
    well.  [len], [zfill] and the slices count bytes, which are the code
    points for ASCII text.

    Device.  The RouterOS resources are lists of records in the order the
    API's [get] returns them.  [set] and [remove] raise when no record has
    the id; [add] appends a record under an id that no record of the
    resource has.  Transport faults and the router's own validation of the
    values it is sent are outside the model.

    Effects.  A method of [MikrotikManager] is a function from the object's
    state to an outcome (a value, or a raised exception) and the state left
    behind; [try_except] is Python's [try: ... except Exception: ...]. *)

From Stdlib Require Import String Ascii List ZArith NArith Lia Bool.
From Stdlib Require Import DecimalString.
From Stdlib Require DecimalNat.
From Equations Require Import Equations.
Import ListNotations.

Open Scope string_scope.
Open Scope list_scope.

(* ===================================================================== *)
(** * Python built-ins used by the source *)
(* ===================================================================== *)

Module Py.

(** [str.isspace] on the ASCII range: TAB..CR, FS..US and the space. *)
Definition is_space (c : ascii) : bool :=
  let n := nat_of_ascii c in
  ((9 <=? n) && (n <=? 13) || (28 <=? n) && (n <=? 32))%nat.

Fixpoint lstrip (s : string) : string :=
  match s with
  | String c s' => if is_space c then lstrip s' else s
  | EmptyString => EmptyString
  end.

Fixpoint rstrip (s : string) : string :=
  match s with
  | String c s' =>
      match rstrip s' with
      | EmptyString => if is_space c then EmptyString else String c EmptyString
      | r => String c r
      end
  | EmptyString => EmptyString
  end.

(** [s.strip()] *)
Definition strip (s : string) : string := lstrip (rstrip s).

Fixpoint map_str (f : ascii -> ascii) (s : string) : string :=
  match s with
  | String c s' => String (f c) (map_str f s')
  | EmptyString => EmptyString
  end.

Definition lower_char (c : ascii) : ascii :=
  let n := nat_of_ascii c in
  if ((65 <=? n) && (n <=? 90))%nat then ascii_of_nat (n + 32) else c.

Definition upper_char (c : ascii) : ascii :=
  let n := nat_of_ascii c in
  if ((97 <=? n) && (n <=? 122))%nat then ascii_of_nat (n - 32) else c.

(** [s.lower()] and [s.upper()] *)
Definition lower : string -> string := map_str lower_char.
Definition upper : string -> string := map_str upper_char.

(** [s.startswith(p)] *)
Fixpoint startswith (s p : string) {struct p} : bool :=
  match p with
  | String a p' =>
      match s with
      | String b s' => (a =? b)%char && startswith s' p'
      | EmptyString => false
      end
  | EmptyString => true
  end.

(** [sub in s] *)
Fixpoint str_in (sub s : string) : bool :=
  startswith s sub ||
  match s with
  | String _ s' => str_in sub s'
  | EmptyString => false
  end.

(** Truth value of a string: [if s:] *)
Definition truthy (s : string) : bool := negb (s =? "").

Fixpoint drop (n : nat) (s : string) : string :=
  match n, s with
  | S n', String _ s' => drop n' s'
  | _, _ => s
  end.

(** [s.split(sep, maxsplit)] for a non-empty [sep]; [maxsplit = None] is
    Python's default (no limit).  The scan goes left to right; [skip] counts
    the characters of a separator just matched that are still to be passed
    over.  The head of the result is the piece being read. *)
Definition cons_head (c : ascii) (l : list string) : list string :=
  match l with
  | p :: ps => String c p :: ps
  | [] => [String c EmptyString]
  end.

Definition may_split (maxsplit : option nat) : bool :=
  match maxsplit with Some 0 => false | _ => true end.

Definition one_less (maxsplit : option nat) : option nat :=
  option_map Nat.pred maxsplit.

Fixpoint split_go (sep : string) (maxsplit : option nat) (skip : nat)
    (s : string) : list string :=
  match s with
  | EmptyString => [EmptyString]
  | String c s' =>
      match skip with
      | S k => split_go sep maxsplit k s'
      | O =>
          if may_split maxsplit && startswith s sep
          then EmptyString :: split_go sep (one_less maxsplit) (String.length sep - 1) s'
          else cons_head c (split_go sep maxsplit 0 s')
      end
  end.

(** [s.split(sep)] and [s.split(sep, 1)] *)
Definition split (sep s : string) : list string := split_go sep None 0 s.
Definition split1 (sep s : string) : list string := split_go sep (Some 1) 0 s.

(** [l[i]] with Python's negative indices; [None] is [IndexError]. *)
Definition getitem {A : Type} (l : list A) (i : Z) : option A :=
  if (0 <=? i)%Z then nth_error l (Z.to_nat i)
  else if (- Z.of_nat (List.length l) <=? i)%Z
       then nth_error l (Z.to_nat (Z.of_nat (List.length l) + i))
       else None.

(** [s[-n:]] *)
Definition last_chars (n : nat) (s : string) : string :=
  drop (String.length s - n) s.

(** [s.zfill(width)] *)
Fixpoint zeros (n : nat) : string :=
  match n with O => EmptyString | S k => String "0" (zeros k) end.

Definition zfill (width : nat) (s : string) : string :=
  let pad := zeros (width - String.length s) in
  match s with
  | String c r =>
      if (c =? "+")%char || (c =? "-")%char then String c (pad ++ r)
      else pad ++ s
  | EmptyString => pad
  end.

(** [int(s)]: surrounding white space, an optional sign, then decimal
    digits, single underscores allowed between digits.  [None] is
    [ValueError].  The white space of [int] is TAB..CR and the space:
    unlike [strip], it leaves FS..US in place, and the text is then no
    number. *)
Definition is_int_space (c : ascii) : bool :=
  let n := nat_of_ascii c in
  ((9 <=? n) && (n <=? 13) || (n =? 32))%nat.

Fixpoint lstrip_by (p : ascii -> bool) (s : string) : string :=
  match s with
  | String c s' => if p c then lstrip_by p s' else s
  | EmptyString => EmptyString
  end.

Fixpoint rstrip_by (p : ascii -> bool) (s : string) : string :=
  match s with
  | String c s' =>
      match rstrip_by p s' with
      | EmptyString => if p c then EmptyString else String c EmptyString
      | r => String c r
      end
  | EmptyString => EmptyString
  end.

Definition is_digit (c : ascii) : bool :=
  let n := nat_of_ascii c in ((48 <=? n) && (n <=? 57))%nat.

Definition digit_val (c : ascii) : Z := Z.of_nat (nat_of_ascii c) - 48.

Fixpoint int_digits (acc : Z) (after_digit : bool) (s : string) : option Z :=
  match s with
  | EmptyString => if after_digit then Some acc else None
  | String c s' =>
      if is_digit c then int_digits (10 * acc + digit_val c) true s'
      else if (c =? "_")%char && after_digit then int_digits acc false s'
      else None
  end.

(** [sys.get_int_max_str_digits()], as CPython sets it: a text with more
    digits than this is refused whatever its value. *)
Definition int_max_str_digits : N := 4300.

Fixpoint count_digits (s : string) : N :=
  match s with
  | String c s' => ((if is_digit c then 1 else 0) + count_digits s')%N
  | EmptyString => 0%N
  end.

Definition int (s : string) : option Z :=
  let t := lstrip_by is_int_space (rstrip_by is_int_space s) in
  if (int_max_str_digits <? count_digits t)%N then None
  else
    match t with
    | String "+" r => int_digits 0 false r
    | String "-" r => option_map Z.opp (int_digits 0 false r)
    | _ => int_digits 0 false t
    end.

(** [str(n)] for a natural number *)
Definition str_of_nat (n : nat) : string :=
  NilZero.string_of_uint (Nat.to_uint n).

(** [all(p(c) for c in s)] *)
Fixpoint all_chars (p : ascii -> bool) (s : string) : bool :=
  match s with
  | String c s' => p c && all_chars p s'
  | EmptyString => true
  end.

(** [chr(n)] *)
Definition chr (n : Z) : ascii := ascii_of_N (Z.to_N n).

(** A [dict] keyed by strings.  Iteration order is insertion order; storing
    under a key already present replaces the value where it stands. *)
Definition dict (V : Type) : Type := list (string * V).

Fixpoint dict_get {V : Type} (k : string) (d : dict V) : option V :=
  match d with
  | (k', v) :: d' => if k' =? k then Some v else dict_get k d'
  | [] => None
  end.

Fixpoint dict_set {V : Type} (k : string) (v : V) (d : dict V) : dict V :=
  match d with
  | (k', v') :: d' =>
      if k' =? k then (k', v) :: d' else (k', v') :: dict_set k v d'
  | [] => [(k, v)]
  end.

(** The double quote, for text that holds one. *)
Definition dquote : string := String (ascii_of_nat 34) EmptyString.

(** The line feed. *)
Definition nl : string := String (ascii_of_nat 10) EmptyString.

(** [datetime.date]: the proleptic Gregorian calendar, years 1 to 9999. *)
Record date : Type := mkDate { year : Z; month : Z; day : Z }.

Definition is_leap (y : Z) : bool :=
  ((y mod 4 =? 0) && (negb (y mod 100 =? 0) || (y mod 400 =? 0)))%Z.

Definition days_in_month (y m : Z) : Z :=
  if (m =? 2)%Z then (if is_leap y then 29 else 28)%Z
  else if ((m =? 4) || (m =? 6) || (m =? 9) || (m =? 11))%Z then 30%Z
  else 31%Z.

(** [datetime(y, m, d).date()]; [None] is [ValueError]. *)
Definition datetime (y m d : Z) : option date :=
  if ((1 <=? y) && (y <=? 9999) && (1 <=? m) && (m <=? 12)
      && (1 <=? d) && (d <=? days_in_month y m))%Z
  then Some {| year := y; month := m; day := d |}
  else None.

(** [a > b] on dates *)
Definition date_gt (a b : date) : bool :=
  ((year b <? year a)
   || (year a =? year b) && ((month b <? month a)
                             || (month a =? month b) && (day b <? day a)))%Z.

End Py.

(* ===================================================================== *)
(** * Effects: state threaded through calls that may raise *)
(* ===================================================================== *)

Module Eff.

Inductive outcome (A : Type) : Type :=
| Value (a : A)
| Raised.
Arguments Value {A} a.
Arguments Raised {A}.

(** A computation over a state [S]: the state it leaves is kept also when
    it raises, as Python keeps the mutations made before an exception. *)
Definition M (S A : Type) : Type := S -> outcome A * S.

Definition ret {S A : Type} (a : A) : M S A := fun s => (Value a, s).

Definition raise {S A : Type} : M S A := fun s => (Raised, s).

Definition bind {S A B : Type} (m : M S A) (k : A -> M S B) : M S B :=
  fun s =>
    match m s with
    | (Value a, s') => k a s'
    | (Raised, s') => (Raised, s')
    end.

(** [try: body  except Exception: handler] *)
Definition try_except {S A : Type} (body handler : M S A) : M S A :=
  fun s =>
    match body s with
    | (Value a, s') => (Value a, s')
    | (Raised, s') => handler s'
    end.

(** Read the state without changing it. *)
Definition gets {S A : Type} (f : S -> A) : M S A := fun s => (Value (f s), s).

(** Raise when a lookup has no result ([IndexError], [ValueError]). *)
Definition must {S A : Type} (o : option A) : M S A :=
  match o with
  | Some a => ret a
  | None => raise
  end.

(** Run a computation on a component of a larger state. *)
Definition zoom {S T A : Type} (get : T -> S) (put : S -> T -> T)
    (m : M S A) : M T A :=
  fun t => let (r, s') := m (get t) in (r, put s' t).

End Eff.

Import Eff.

Declare Scope eff_scope.
Delimit Scope eff_scope with eff.
Notation "x <- m ;; k" := (bind m (fun x => k))
  (at level 61, m at next level, right associativity) : eff_scope.
Notation "m ;; k" := (bind m (fun _ => k))
  (at level 61, right associativity) : eff_scope.
Open Scope eff_scope.

(* ===================================================================== *)
(** * The device: RouterOS resources *)
(* ===================================================================== *)

Module RouterOS.

(** An entry of [/ip/hotspot/ip-binding].  The id is assigned by the device
    and is opaque to the engine, which only compares ids.  A field the API
    leaves out of the record is [None]. *)
Record Binding : Type := mkBinding {
  b_id : N;
  b_mac_address : option string;
  b_type : option string;
  b_comment : option string
}.

(** An entry of [/ip/dhcp-server/lease] or of [/ip/arp]. *)
Record Lease : Type := mkLease {
  l_address : option string;
  l_mac_address : option string
}.

(** An entry of [/system/scheduler]. *)
Record Job : Type := mkJob {
  j_id : N;
  j_name : string;
  j_start_date : string;
  j_start_time : string;
  j_interval : string;
  j_on_event : string;
  j_policy : string
}.

Record Router : Type := mkRouter {
  ip_binding : list Binding;
  dhcp_lease : list Lease;
  ip_arp : list Lease;
  scheduler : list Job
}.

(** [record.get(key, default)] *)
Definition get (field : option string) (default : string) : string :=
  match field with
  | Some v => v
  | None => default
  end.

(** An id that no record of the list carries. *)
Definition fresh_id (ids : list N) : N := N.succ (fold_right N.max 0%N ids).

(** The keyword arguments of [set]: [None] is a key that is not passed. *)
Record Fields : Type := mkFields {
  f_mac_address : option string;
  f_type : option string;
  f_comment : option string
}.

Definition or_old (new old : option string) : option string :=
  match new with
  | Some v => Some v
  | None => old
  end.

Definition apply_fields (f : Fields) (b : Binding) : Binding :=
  {| b_id := b_id b;
     b_mac_address := or_old (f_mac_address f) (b_mac_address b);
     b_type := or_old (f_type f) (b_type b);
     b_comment := or_old (f_comment f) (b_comment b) |}.

Definition has_binding (i : N) (l : list Binding) : bool :=
  existsb (fun b => (b_id b =? i)%N) l.

(** [resource.set] of the fields [f] on the item [i]; [None] when the
    device has no such item. *)
Definition binding_set (i : N) (f : Fields) (r : Router) : option Router :=
  if has_binding i (ip_binding r)
  then Some {| ip_binding :=
                 map (fun b => if (b_id b =? i)%N then apply_fields f b else b)
                     (ip_binding r);
               dhcp_lease := dhcp_lease r;
               ip_arp := ip_arp r;
               scheduler := scheduler r |}
  else None.

(** [resource.remove(id=i)]; [None] when the device has no such item. *)
Definition binding_remove (i : N) (r : Router) : option Router :=
  if has_binding i (ip_binding r)
  then Some {| ip_binding := filter (fun b => negb (b_id b =? i)%N) (ip_binding r);
               dhcp_lease := dhcp_lease r;
               ip_arp := ip_arp r;
               scheduler := scheduler r |}
  else None.

(** [resource.add] with the keys [mac-address], [type] and [comment] *)
Definition binding_add (m t c : string) (r : Router) : Router :=
  {| ip_binding :=
       ip_binding r ++
       [ {| b_id := fresh_id (map b_id (ip_binding r));
            b_mac_address := Some m;
            b_type := Some t;
            b_comment := Some c |} ];
     dhcp_lease := dhcp_lease r;
     ip_arp := ip_arp r;
     scheduler := scheduler r |}.

Definition has_job (i : N) (l : list Job) : bool :=
  existsb (fun j => (j_id j =? i)%N) l.

Definition job_remove (i : N) (r : Router) : option Router :=
  if has_job i (scheduler r)
  then Some {| ip_binding := ip_binding r;
               dhcp_lease := dhcp_lease r;
               ip_arp := ip_arp r;
               scheduler := filter (fun j => negb (j_id j =? i)%N) (scheduler r) |}
  else None.

Definition job_add (name start_date start_time interval on_event policy : string)
    (r : Router) : Router :=
  {| ip_binding := ip_binding r;
     dhcp_lease := dhcp_lease r;
     ip_arp := ip_arp r;
     scheduler :=
       scheduler r ++
       [ {| j_id := fresh_id (map j_id (scheduler r));
            j_name := name;
            j_start_date := start_date;
            j_start_time := start_time;
            j_interval := interval;
            j_on_event := on_event;
            j_policy := policy |} ] |}.

End RouterOS.

(* ===================================================================== *)
(** * [mikrotik_manager.py]: class [MikrotikManager] *)
(* ===================================================================== *)

Import Py RouterOS.

(** The object's state: the device behind [self.api] and the directory
    [self.clients_cache], client name to binding record. *)
Record MikrotikManager : Type := mkManager {
  api : Router;
  clients_cache : dict Binding
}.

(** A call that changes the device; it raises when the device refuses. *)
Definition api_call (f : Router -> option Router) : M MikrotikManager unit :=
  fun self =>
    match f (api self) with
    | Some r => (Value tt, {| api := r; clients_cache := clients_cache self |})
    | None => (Raised, self)
    end.

Definition _extract_client_name (full_comment : string) : string :=
  strip (hd EmptyString (split " @" full_comment)).

(** The body of the loop of [_load_clients]. *)
Definition load_step (clients : dict Binding) (binding : Binding) : dict Binding :=
  let comment := get (b_comment binding) "" in
  if truthy comment
  then dict_set (_extract_client_name comment) binding clients
  else clients.

Definition _load_clients (self : MikrotikManager) : dict Binding :=
  fold_left load_step (ip_binding (api self)) [].

Definition find_client_flexible (client_name : string) (self : MikrotikManager)
    : option Binding :=
  let client_name := strip client_name in
  match dict_get client_name (clients_cache self) with
  | Some exact_match => Some exact_match
  | None =>
      match find (fun kv => lower (fst kv) =? lower client_name)
                 (clients_cache self) with
      | Some (_, binding) => Some binding
      | None =>
          match find (fun kv => str_in (lower client_name) (lower (fst kv)))
                     (clients_cache self) with
          | Some (_, binding) => Some binding
          | None => None
          end
      end
  end.

Definition find_client_in_ip_bindings (client_name : string)
    (self : MikrotikManager) : option Binding :=
  match dict_get (strip client_name) (clients_cache self) with
  | Some exact_match => Some exact_match
  | None => find_client_flexible client_name self
  end.

Definition refresh_clients_cache : M MikrotikManager unit :=
  fun self =>
    (Value tt, {| api := api self; clients_cache := _load_clients self |}).

Definition only_type (t : string) : Fields :=
  {| f_mac_address := None; f_type := Some t; f_comment := None |}.

Definition block_client (client_name : string) : M MikrotikManager bool :=
  try_except
    (binding <- gets (find_client_in_ip_bindings client_name) ;;
     match binding with
     | Some b =>
         api_call (binding_set (b_id b) (only_type "blocked")) ;;
         ret true
     | None => ret false
     end)
    (ret false).

Definition activate_client (client_name : string) : M MikrotikManager bool :=
  try_except
    (binding <- gets (find_client_in_ip_bindings client_name) ;;
     match binding with
     | Some b =>
         api_call (binding_set (b_id b) (only_type "bypassed")) ;;
         ret true
     | None => ret false
     end)
    (ret false).

Definition get_dhcp_leases (self : MikrotikManager) : list Lease :=
  dhcp_lease (api self).

Definition lease_matches (ip_address : string) (lease : Lease) : bool :=
  (get (l_address lease) "" =? ip_address)
  && truthy (get (l_mac_address lease) "").

Definition find_mac_by_ip (ip_address : string) (self : MikrotikManager)
    : option string :=
  match find (lease_matches ip_address) (get_dhcp_leases self) with
  | Some lease => Some (get (l_mac_address lease) "")
  | None =>
      match find (lease_matches ip_address) (ip_arp (api self)) with
      | Some arp => Some (get (l_mac_address arp) "")
      | None => None
      end
  end.

(** The pattern of [is_ip_address]: four groups of one to three digits
    with dots between; its [$] also matches before a final line feed. *)
Definition digit_group (s : string) : bool :=
  ((1 <=? String.length s) && (String.length s <=? 3))%nat
  && all_chars is_digit s.

Definition without_final_newline (s : string) : string :=
  if last_chars 1 s =? nl
  then substring 0 (String.length s - 1) s
  else s.

Definition ip_pattern (identifier : string) : bool :=
  match split "." (without_final_newline identifier) with
  | [a; b; c; d] => digit_group a && digit_group b && digit_group c && digit_group d
  | _ => false
  end.

Definition octet (part : string) : bool :=
  match int part with
  | Some n => ((0 <=? n) && (n <=? 255))%Z
  | None => false
  end.

Definition is_ip_address (identifier : string) : bool :=
  if ip_pattern identifier
  then forallb octet (split "." identifier)
  else false.

Definition find_mac_in_ip_bindings (mac_address : string)
    (self : MikrotikManager) : option Binding :=
  find (fun binding =>
          lower (get (b_mac_address binding) "") =? lower mac_address)
       (ip_binding (api self)).

Definition is_unauthorized_user (comment : string) : bool :=
  if negb (truthy comment) then false
  else startswith comment "ZZZZ=Blocked unauthorized".

Definition delete_ip_binding_by_id (binding_id : N) : M MikrotikManager bool :=
  try_except
    (api_call (binding_remove binding_id) ;; ret true)
    (ret false).

Definition add_new_client (client_name mac_or_ip : string)
    : M MikrotikManager (bool * option string) :=
  try_except
    (known <- gets (find_client_in_ip_bindings client_name) ;;
     match known with
     | Some _ => ret (false, Some "Already-Exists")
     | None =>
         (* what follows once [mac_address] is known *)
         let with_mac (mac_address : string) :=
           (* the [add] at the end *)
           let add_binding :=
             let comment := client_name in
             api_call (fun r => Some (binding_add mac_address "bypassed" comment r)) ;;
             refresh_clients_cache ;;
             ret (true, @None string) in
           existing_mac_binding <- gets (find_mac_in_ip_bindings mac_address) ;;
           match existing_mac_binding with
           | Some emb =>
               let existing_comment := get (b_comment emb) "" in
               if is_unauthorized_user existing_comment
               then
                 deleted <- delete_ip_binding_by_id (b_id emb) ;;
                 if deleted : bool
                 then refresh_clients_cache ;; add_binding
                 else ret (false, Some "Delete-Failed")
               else ret (false, Some "Already-Exists")
           | None => add_binding
           end in
         if is_ip_address mac_or_ip
         then
           mac_address <- gets (find_mac_by_ip mac_or_ip) ;;
           match mac_address with
           | Some m =>
               if truthy m then with_mac m
               else ret (false, Some "IP-Not-Found")
           | None => ret (false, Some "IP-Not-Found")
           end
         else with_mac mac_or_ip
     end)
    (ret (false, Some "Wrong-MAC")).

Definition update_client_mac (client_name mac_or_ip : string)
    : M MikrotikManager (bool * option string) :=
  try_except
    (existing_binding <- gets (find_client_in_ip_bindings client_name) ;;
     match existing_binding with
     | None => ret (false, Some "Client-Not-Found")
     | Some eb =>
         (* what follows once [mac_address] is known *)
         let with_mac (mac_address : string) :=
           (* the [set] at the end *)
           let set_binding :=
             let current_type := get (b_type eb) "bypassed" in
             let is_blocked := current_type =? "blocked" in
             (if is_blocked
              then api_call (binding_set (b_id eb)
                     {| f_mac_address := Some mac_address;
                        f_type := Some "bypassed";
                        f_comment := None |})
              else api_call (binding_set (b_id eb)
                     {| f_mac_address := Some mac_address;
                        f_type := None;
                        f_comment := None |})) ;;
             refresh_clients_cache ;;
             ret (true, @None string) in
           existing_mac_binding <- gets (find_mac_in_ip_bindings mac_address) ;;
           match existing_mac_binding with
           | Some emb =>
               if negb (b_id emb =? b_id eb)%N
               then
                 let existing_comment := get (b_comment emb) "" in
                 if is_unauthorized_user existing_comment
                 then
                   deleted <- delete_ip_binding_by_id (b_id emb) ;;
                   if deleted : bool
                   then refresh_clients_cache ;; set_binding
                   else ret (false, Some "Delete-Failed")
                 else ret (false, Some "Already-Exists")
               else set_binding
           | None => set_binding
           end in
         if is_ip_address mac_or_ip
         then
           mac_address <- gets (find_mac_by_ip mac_or_ip) ;;
           match mac_address with
           | Some m =>
               if truthy m then with_mac m
               else ret (false, Some "IP-Not-Found")
           | None => ret (false, Some "IP-Not-Found")
           end
         else with_mac mac_or_ip
     end)
    (ret (false, Some "Wrong-MAC")).

Definition is_client_blocked (client_name : string) (self : MikrotikManager)
    : bool :=
  match find_client_in_ip_bindings client_name self with
  | Some binding =>
      match b_type binding with
      | Some t => t =? "blocked"
      | None => false
      end
  | None => false
  end.

Definition is_client_active (client_name : string) (self : MikrotikManager)
    : bool :=
  match find_client_in_ip_bindings client_name self with
  | Some binding =>
      match b_type binding with
      | Some t => t =? "bypassed"
      | None => false
      end
  | None => false
  end.

Definition get_client_mac (client_name : string) (self : MikrotikManager)
    : string :=
  match find_client_in_ip_bindings client_name self with
  | Some binding => get (b_mac_address binding) ""
  | None => ""
  end.

Definition find_existing_schedule (client_name : string)
    (self : MikrotikManager) : option Job :=
  find (fun schedule => j_name schedule =? client_name) (scheduler (api self)).

Definition delete_existing_schedule (client_name : string)
    : M MikrotikManager bool :=
  try_except
    (existing_schedule <- gets (find_existing_schedule client_name) ;;
     match existing_schedule with
     | Some job => api_call (job_remove (j_id job)) ;; ret true
     | None => ret false
     end)
    (ret false).

(** [today] is the date [datetime.now()] falls on. *)
Definition is_date_in_future (today : date) (block_date : string) : bool :=
  match split "-" block_date with
  | [day; month; year] =>
      match int year, int month, int day with
      | Some y, Some m, Some d =>
          match datetime y m d with
          | Some block_date_only => date_gt block_date_only today
          | None => false
          end
      | _, _, _ => false
      end
  | _ => false
  end.

Definition month_names : list string :=
  ["Jan"; "Feb"; "Mar"; "Apr"; "May"; "Jun";
   "Jul"; "Aug"; "Sep"; "Oct"; "Nov"; "Dec"].

Definition script_content (mac_address : string) : string :=
  "# Assign the user's MAC address to a variable" ++ nl ++
  ":local targetMac " ++ dquote ++ mac_address ++ dquote ++ nl ++
  nl ++
  "# Find the entry in IP Binding list based on the MAC address" ++ nl ++
  ":foreach i in=[/ip hotspot ip-binding find where mac-address=$targetMac and type="
    ++ dquote ++ "bypassed" ++ dquote ++ "] do={" ++ nl ++
  "    # Change the type to " ++ dquote ++ "blocked" ++ dquote ++ nl ++
  "    /ip hotspot ip-binding set $i type=blocked" ++ nl ++
  "}" ++ nl ++
  nl ++
  "# Log the operation in the system log" ++ nl ++
  ":log info " ++ dquote ++ "MAC Address $targetMac has been changed to blocked"
    ++ dquote ++ " ".

Definition schedule_block_client (today : date)
    (client_name mac_address block_date : string) : M MikrotikManager bool :=
  try_except
    (if negb (is_date_in_future today block_date)
     then ret false
     else
       existing <- gets (find_existing_schedule client_name) ;;
       match existing with
       | Some _ => delete_existing_schedule client_name ;; ret tt
       | None => ret tt
       end ;;
       match split "-" block_date with
       | [day; month; year] =>
           let day := zfill 2 day in
           let month := zfill 2 month in
           m <- must (int month) ;;
           name <- must (getitem month_names (m - 1)) ;;
           let formatted_date : string :=
             (name ++ "/" ++ day ++ "/20" ++ last_chars 2 year)%string in
           api_call (fun r =>
             Some (job_add client_name formatted_date "23:59:00" "00:00:00"
                     (script_content mac_address)
                     "ftp,reboot,read,write,policy,test,password,sniff,sensitive,romon"
                     r)) ;;
           ret true
       | _ => raise
       end)
    (ret false).

(** The comment [update_client_name] writes: the name part replaced, what
    follows the separator kept. *)
Definition renamed_comment (current_comment new_name : string)
    : option string :=
  if str_in " @" current_comment
  then
    match nth_error (split1 " @" current_comment) 1 with
    | Some phone_part => Some (strip new_name ++ " @" ++ phone_part)%string
    | None => None
    end
  else if str_in "@" current_comment
  then
    match nth_error (split1 "@" current_comment) 1 with
    | Some phone_part => Some (strip new_name ++ " @" ++ phone_part)%string
    | None => None
    end
  else Some (strip new_name).

Definition only_comment (c : string) : Fields :=
  {| f_mac_address := None; f_type := None; f_comment := Some c |}.

Definition update_client_name (client_name new_name : string)
    : M MikrotikManager (bool * option string) :=
  try_except
    (existing_binding <- gets (find_client_in_ip_bindings client_name) ;;
     match existing_binding with
     | None => ret (false, Some "Client-Not-Found")
     | Some eb =>
         let current_comment := get (b_comment eb) "" in
         if negb (truthy current_comment)
         then ret (false, Some "No-Comment")
         else
           new_comment <- must (renamed_comment current_comment new_name) ;;
           api_call (binding_set (b_id eb) (only_comment new_comment)) ;;
           refresh_clients_cache ;;
           ret (true, @None string)
     end)
    (ret (false, Some "Update-Failed")).

(** The comment [update_client_phone] writes: the phone part replaced, what
    precedes the separator kept. *)
Definition rephoned_comment (current_comment new_phone : string)
    : option string :=
  if str_in " @" current_comment
  then
    match nth_error (split1 " @" current_comment) 0 with
    | Some name_part => Some (name_part ++ " @" ++ strip new_phone)%string
    | None => None
    end
  else if str_in "@" current_comment
  then
    match nth_error (split1 "@" current_comment) 0 with
    | Some name_part => Some (name_part ++ " @" ++ strip new_phone)%string
    | None => None
    end
  else Some (current_comment ++ " @" ++ strip new_phone)%string.

Definition update_client_phone (client_name new_phone : string)
    : M MikrotikManager (bool * option string) :=
  try_except
    (existing_binding <- gets (find_client_in_ip_bindings client_name) ;;
     match existing_binding with
     | None => ret (false, Some "Client-Not-Found")
     | Some eb =>
         let current_comment := get (b_comment eb) "" in
         if negb (truthy current_comment)
         then ret (false, Some "No-Comment")
         else
           new_comment <- must (rephoned_comment current_comment new_phone) ;;
           api_call (binding_set (b_id eb) (only_comment new_comment)) ;;
           refresh_clients_cache ;;
           ret (true, @None string)
     end)
    (ret (false, Some "Update-Failed")).

(** The phone part [get_client_phone] reads off a comment. *)
Definition comment_phone (comment : string) : string :=
  if str_in " @" comment
  then match nth_error (split1 " @" comment) 1 with
       | Some p => strip p
       | None => ""
       end
  else if str_in "@" comment
  then match nth_error (split1 "@" comment) 1 with
       | Some p => strip p
       | None => ""
       end
  else "".

Definition get_client_phone (client_name : string) (self : MikrotikManager)
    : string :=
  match find_client_in_ip_bindings client_name self with
  | Some binding => comment_phone (get (b_comment binding) "")
  | None => ""
  end.

(* ===================================================================== *)
(** * [sheet_sync.py] *)
(* ===================================================================== *)

(** One [spreadsheets().values().update] call: the range and the value
    sent for its single cell ([None] is Python's [None]). *)
Record Update : Type := mkUpdate {
  range_name : string;
  cell_value : option string
}.

(** What [process_client] acts on: the updates sent through [service] so
    far, oldest first, and the [mikrotik_manager] object. *)
Record Env : Type := mkEnv {
  service : list Update;
  mikrotik_manager : MikrotikManager
}.

(** A method call on [mikrotik_manager]. *)
Definition on_manager {A : Type} (m : M MikrotikManager A) : M Env A :=
  zoom mikrotik_manager
       (fun mgr e => {| service := service e; mikrotik_manager := mgr |})
       m.

Definition send_update (u : Update) : M Env unit :=
  fun e =>
    (Value tt,
     {| service := service e ++ [u]; mikrotik_manager := mikrotik_manager e |}).

(** An entry of the list [find_buildings_structure] returns. *)
Record Building : Type := mkBuilding {
  name : string;
  client_col : nat;
  status_col : nat;
  notes_col : nat
}.

(** The loop of [find_buildings_structure] from column [col_index] on. *)
Fixpoint scan_header (col_index : nat) (header_row : list string)
    : list Building :=
  match header_row with
  | cell_value :: rest =>
      (if truthy cell_value && truthy (strip cell_value)
       then [ {| name := strip cell_value;
                 client_col := col_index;
                 status_col := col_index + 1;
                 notes_col := col_index + 2 |} ]
       else [])
      ++ scan_header (S col_index) rest
  | [] => []
  end.

Definition find_buildings_structure (header_values : list (list string))
    : list Building :=
  match header_values with
  | [] => []
  | header_row :: _ => scan_header 0 header_row
  end.

(** The loop of [get_column_letter]. *)
Equations? column_letter_loop (index : Z) (result : string) : string
    by wf (Z.to_nat (index + 1)) lt :=
  column_letter_loop index result with Z_le_gt_dec 0 index := {
    | left _ =>
        let remainder := (index mod 26)%Z in
        column_letter_loop (index / 26 - 1)
          (String (chr (65 + remainder)) result);
    | right _ => result }.
Proof.
  assert (index / 26 <= index)%Z by (apply Z.div_le_upper_bound; lia).
  lia.
Qed.

Definition get_column_letter (index : Z) : string :=
  column_letter_loop index "".

Definition cell_range (col row_index : nat) : string :=
  "Payment!" ++ get_column_letter (Z.of_nat (col + 2)) ++ str_of_nat (row_index + 2).

Definition update_sheet_status (row_index : nat) (new_status : option string)
    (status_col : nat) : M Env unit :=
  try_except
    (let col_letter := get_column_letter (Z.of_nat (status_col + 2)) in
     let range_name : string :=
       ("Payment!" ++ col_letter ++ str_of_nat (row_index + 2))%string in
     send_update {| range_name := range_name; cell_value := new_status |})
    (ret tt).

(** [values[row_index][col]]; [None] is [IndexError]. *)
Definition cell (values : list (list string)) (row_index col : nat)
    : option string :=
  match nth_error values row_index with
  | Some row => nth_error row col
  | None => None
  end.

(** The checks [process_client] makes on the date of a [LIMIT=] row; [false]
    is the [ValueError] of its inner [try]. *)
Definition limit_date_ok (block_date : string) : bool :=
  match split "-" block_date with
  | [day; month; year] =>
      if negb (((1 <=? String.length day) && (String.length day <=? 2)
                && (1 <=? String.length month) && (String.length month <=? 2)
                && (String.length year =? 4))%nat)
      then false
      else
        match int day with
        | Some d =>
            if ((1 <=? d) && (d <=? 31))%Z
            then match int month with
                 | Some m => ((1 <=? m) && (m <=? 12))%Z
                 | None => false
                 end
            else false
        | None => false
        end
  | _ => false
  end.

(** [new_status = status.split('=')[1]] and the update that follows it in
    the [NEW=], [UPD-MAC=] and [ACTIVATE=] branches. *)
Definition write_label_aliased (status : string) (row_index : nat)
    (building_info : Building) : M Env unit :=
  new_status <- must (nth_error (split "=" status) 1) ;;
  if upper new_status =? "NOT-PAY"
  then update_sheet_status row_index (Some "Not Pay") (status_col building_info)
  else update_sheet_status row_index (Some new_status) (status_col building_info).

Definition process_client (today : date) (client_name status : string)
    (building_info : Building) (row_index : nat)
    (values : list (list string)) : M Env unit :=
  if negb (truthy client_name) || negb (truthy status)
  then ret tt
  else
  try_except
    (if upper status =? "CUT"
     then
       blocked <- on_manager (block_client client_name) ;;
       if blocked : bool
       then update_sheet_status row_index (Some "BLOCK") (status_col building_info)
       else ret tt
     else if startswith (upper status) "LIMIT="
     then
       block_date <- must (cell values row_index (notes_col building_info)) ;;
       if negb (truthy block_date) then ret tt
       else if negb (limit_date_ok block_date) then ret tt
       else
         mac_address <- on_manager (gets (get_client_mac client_name)) ;;
         if negb (truthy mac_address) then ret tt
         else
           scheduled <- on_manager
             (schedule_block_client today client_name mac_address block_date) ;;
           if scheduled : bool
           then
             activated <- on_manager (activate_client client_name) ;;
             if activated : bool
             then
               new_status <- must (nth_error (split "=" status) 1) ;;
               update_sheet_status row_index (Some new_status)
                 (status_col building_info)
             else ret tt
           else
             update_sheet_status row_index (Some "Old-Date")
               (status_col building_info)
     else if upper status =? "NOT PAY"
     then
       active <- on_manager (gets (is_client_active client_name)) ;;
       if active : bool
       then update_sheet_status row_index (Some "Waiting") (status_col building_info)
       else
         is_blocked <- on_manager (gets (is_client_blocked client_name)) ;;
         if is_blocked : bool
         then
           activated <- on_manager (activate_client client_name) ;;
           if activated : bool
           then update_sheet_status row_index (Some "Waiting")
                  (status_col building_info)
           else ret tt
         else ret tt
     else if startswith (upper status) "NEW="
     then
       mac_or_ip <- must (cell values row_index (notes_col building_info)) ;;
       if negb (truthy mac_or_ip)
       then update_sheet_status row_index (Some "NO-MAC") (status_col building_info)
       else
         let mac_or_ip := strip mac_or_ip in
         result <- on_manager (add_new_client client_name mac_or_ip) ;;
         let '(success, error) := result in
         if success : bool
         then write_label_aliased status row_index building_info
         else update_sheet_status row_index error (status_col building_info)
     else if startswith (upper status) "UPD-MAC="
     then
       mac_or_ip <- must (cell values row_index (notes_col building_info)) ;;
       if negb (truthy mac_or_ip)
       then update_sheet_status row_index (Some "NO-MAC") (status_col building_info)
       else
         let mac_or_ip := strip mac_or_ip in
         result <- on_manager (update_client_mac client_name mac_or_ip) ;;
         let '(success, error) := result in
         if success : bool
         then write_label_aliased status row_index building_info
         else update_sheet_status row_index error (status_col building_info)
     else if startswith (upper status) "ACTIVATE="
     then
       active <- on_manager (gets (is_client_active client_name)) ;;
       if active : bool
       then write_label_aliased status row_index building_info
       else
         activated <- on_manager (activate_client client_name) ;;
         if activated : bool
         then write_label_aliased status row_index building_info
         else ret tt
     else if startswith (upper status) "RE=NAME"
     then
       row <- must (nth_error values row_index) ;;
       if (List.length row <=? notes_col building_info)%nat
       then update_sheet_status row_index (Some "NO-NOTES-COL")
              (status_col building_info)
       else
         new_name <- must (nth_error row (notes_col building_info)) ;;
         if negb (truthy new_name)
         then update_sheet_status row_index (Some "NO-NAME")
                (status_col building_info)
         else
           let new_name := strip new_name in
           result <- on_manager (update_client_name client_name new_name) ;;
           let '(success, error) := result in
           if success : bool
           then
             update_sheet_status row_index (Some "Not Pay")
               (status_col building_info) ;;
             try_except
               (send_update
                  {| range_name := cell_range (client_col building_info) row_index;
                     cell_value := Some new_name |})
               (ret tt) ;;
             try_except
               (phone <- on_manager (gets (get_client_phone new_name)) ;;
                send_update
                  {| range_name := cell_range (notes_col building_info) row_index;
                     cell_value := Some phone |})
               (ret tt)
           else update_sheet_status row_index error (status_col building_info)
     else if startswith (upper status) "RE=NUMBER"
     then
       new_phone <- must (cell values row_index (notes_col building_info)) ;;
       if negb (truthy new_phone)
       then update_sheet_status row_index (Some "NO-PHONE")
              (status_col building_info)
       else
         let new_phone := strip new_phone in
         result <- on_manager (update_client_phone client_name new_phone) ;;
         let '(success, error) := result in
         if success : bool
         then update_sheet_status row_index (Some "Not Pay")
                (status_col building_info)
         else update_sheet_status row_index error (status_col building_info)
     else ret tt)
    (ret tt).

(** ** [process_sheet_data] *)

(** The statuses on which [process_sheet_data] calls [process_client]. *)
Definition is_command (status : string) : bool :=
  (upper status =? "CUT")
  || (upper status =? "NOT PAY")
  || startswith (upper status) "NEW="
  || startswith (upper status) "UPD-MAC="
  || startswith (upper status) "ACTIVATE="
  || startswith (upper status) "LIMIT="
  || startswith (upper status) "RE=NAME"
  || startswith (upper status) "RE=NUMBER".

(** The body of the loop over the rows, for one [building]: the
    [continue]s are the [ret tt]s, and whatever the body raises ends the
    row. *)
Definition process_row (today : date) (building : Building)
    (values : list (list string)) (row_index : nat) (row : list string)
    : M Env unit :=
  try_except
    (if (List.length row <=? client_col building)%nat then ret tt
     else
       client_name <- must (nth_error row (client_col building)) ;;
       if negb (truthy client_name) then ret tt
       else if (List.length row <=? status_col building)%nat then ret tt
       else
         status <- must (nth_error row (status_col building)) ;;
         if negb (truthy status) then ret tt
         else if is_command status
         then process_client today client_name status building row_index values
         else ret tt)
    (ret tt).

(** [for row_index, row in enumerate(values)], from [row_index] on. *)
Fixpoint process_rows (today : date) (building : Building)
    (values : list (list string)) (row_index : nat)
    (rows : list (list string)) : M Env unit :=
  match rows with
  | row :: rest =>
      process_row today building values row_index row ;;
      process_rows today building values (S row_index) rest
  | [] => ret tt
  end.

(** [for building in buildings] *)
Fixpoint process_buildings (today : date) (values : list (list string))
    (buildings : list Building) : M Env unit :=
  match buildings with
  | building :: rest =>
      process_rows today building values 0 values ;;
      process_buildings today values rest
  | [] => ret tt
  end.

(** [header_values] and [values] are what the two reads of the sheet
    return, the header row and the data rows. *)
Definition process_sheet_data (today : date)
    (header_values values : list (list string)) : M Env unit :=
  try_except
    (match values with
     | [] => ret tt
     | _ :: _ =>
         let buildings := find_buildings_structure header_values in
         match buildings with
         | [] => ret tt
         | _ :: _ => process_buildings today values buildings
         end
     end)
    (ret tt).

(* ===================================================================== *)
(** * Vocabulary of the statements *)
(* ===================================================================== *)

(** The device with its binding list replaced. *)
Definition with_bindings (l : list Binding) (r : Router) : Router :=
  {| ip_binding := l;
     dhcp_lease := dhcp_lease r;
     ip_arp := ip_arp r;
     scheduler := scheduler r |}.

(** The object once its directory has been rebuilt from the device [r]. *)
Definition refreshed (r : Router) : MikrotikManager :=
  {| api := r;
     clients_cache := _load_clients {| api := r; clients_cache := [] |} |}.

(** The binding list after [set] of the fields [f] on the item [i], and
    after [remove] of the item [i]. *)
Definition set_on (i : N) (f : Fields) (l : list Binding) : list Binding :=
  map (fun b => if (b_id b =? i)%N then apply_fields f b else b) l.

Definition without (i : N) (l : list Binding) : list Binding :=
  filter (fun b => negb (b_id b =? i)%N) l.

(** The binding [b] has a comment, and the comment gives the client name
    [n]. *)
Definition named (n : string) (b : Binding) : bool :=
  truthy (get (b_comment b) "")
  && (_extract_client_name (get (b_comment b) "") =? n).

(** The MAC address [add_new_client] and [update_client_mac] go on with:
    the text itself, or the address the device knows for the IP. *)
Definition resolved_mac (mac_or_ip : string) (self : MikrotikManager)
    : option string :=
  if is_ip_address mac_or_ip
  then match find_mac_by_ip mac_or_ip self with
       | Some m => if truthy m then Some m else None
       | None => None
       end
  else Some mac_or_ip.

(** The fields [update_client_mac] sets on the record [eb]. *)
Definition mac_fields (eb : Binding) (mac_address : string) : Fields :=
  {| f_mac_address := Some mac_address;
     f_type := if get (b_type eb) "bypassed" =? "blocked"
               then Some "bypassed" else None;
     f_comment := None |}.

(** The last step of [update_client_mac] on the state [s]: the [set], which
    the device refuses when it has no item with the record's id, and the
    refresh. *)
Definition set_mac (eb : Binding) (mac_address : string) (s : MikrotikManager)
    : outcome (bool * option string) * MikrotikManager :=
  if has_binding (b_id eb) (ip_binding (api s))
  then (Value (true, None),
        refreshed
          (with_bindings
             (set_on (b_id eb) (mac_fields eb mac_address) (ip_binding (api s)))
             (api s)))
  else (Value (false, Some "Wrong-MAC"), s).


(** The record [b] after [update_client_mac] of the client known as [eb]. *)
Definition with_new_mac (eb : Binding) (mac_address : string) (b : Binding)
    : Binding :=
  {| b_id := b_id b;
     b_mac_address := Some mac_address;
     b_type := if get (b_type eb) "bypassed" =? "blocked"
               then Some "bypassed" else b_type b;
     b_comment := b_comment b |}.

(** The last step of [update_client_name] and [update_client_phone]: the
    [set] of the new comment and the refresh. *)
Definition set_comment (eb : Binding) (new_comment : option string)
    (s : MikrotikManager)
    : outcome (bool * option string) * MikrotikManager :=
  match new_comment with
  | Some c =>
      if has_binding (b_id eb) (ip_binding (api s))
      then (Value (true, None),
            refreshed
              (with_bindings
                 (set_on (b_id eb) (only_comment c) (ip_binding (api s)))
                 (api s)))
      else (Value (false, Some "Update-Failed"), s)
  | None => (Value (false, Some "Update-Failed"), s)
  end.

(** The outcome of [process_client] on a row of which it writes the status
    cell and on which the manager becomes [m]. *)
Definition row_written (e : Env) (building_info : Building) (row_index : nat)
    (value : string) (m : MikrotikManager) : outcome unit * Env :=
  (Value tt,
   {| service :=
        service e
        ++ [ {| range_name := cell_range (status_col building_info) row_index;
                cell_value := Some value |} ];
      mikrotik_manager := m |}).

(** The value of a column name read as a numeral in bijective base 26,
    [A] counting 1 and [Z] counting 26, on top of [acc]. *)
Fixpoint letters_value (acc : Z) (s : string) : Z :=
  match s with
  | String c s' => letters_value (acc * 26 + (Z.of_nat (nat_of_ascii c) - 64)) s'
  | EmptyString => acc
  end.

Definition is_upper (c : ascii) : bool :=
  let n := nat_of_ascii c in ((65 <=? n) && (n <=? 90))%nat.

Definition starts_plain (d : string) : bool :=
  match d with
  | String c _ => negb (is_upper c)
  | EmptyString => false
  end.

(** ** Sample states *)

Module Sample.

Definition bob : Binding :=
  {| b_id := 1; b_mac_address := Some "AA:BB:CC:DD:EE:01";
     b_type := Some "bypassed"; b_comment := Some "bob @0100" |}.

Definition alice : Binding :=
  {| b_id := 2; b_mac_address := Some "AA:BB:CC:DD:EE:02";
     b_type := Some "blocked"; b_comment := Some "alice @0200" |}.

Definition placeholder : Binding :=
  {| b_id := 3; b_mac_address := Some "AA:BB:CC:DD:EE:03";
     b_type := Some "blocked";
     b_comment := Some "ZZZZ=Blocked unauthorized device" |}.

Definition router_of (l : list Binding) : Router :=
  {| ip_binding := l; dhcp_lease := []; ip_arp := []; scheduler := [] |}.

(** A manager just constructed on a device with the bindings [l]. *)
Definition manager_of (l : list Binding) : MikrotikManager :=
  refreshed (router_of l).

Definition office : MikrotikManager := manager_of [bob; alice; placeholder].

(** Another client's record, and a placeholder, with the address of [bob]. *)
Definition twin : Binding :=
  {| b_id := 4; b_mac_address := Some "aa:bb:cc:dd:ee:01";
     b_type := Some "bypassed"; b_comment := Some "carol @0400" |}.

Definition ghost : Binding :=
  {| b_id := 5; b_mac_address := Some "aa:bb:cc:dd:ee:01";
     b_type := Some "blocked";
     b_comment := Some "ZZZZ=Blocked unauthorized device" |}.

(** A comment with a space after the separator, and one whose [@] has no
    space before it. *)
Definition spaced : Binding :=
  {| b_id := 7; b_mac_address := Some "AA:BB:CC:DD:EE:07";
     b_type := Some "bypassed"; b_comment := Some "dan @ 0700" |}.

Definition glued : Binding :=
  {| b_id := 8; b_mac_address := Some "AA:BB:CC:DD:EE:08";
     b_type := Some "bypassed"; b_comment := Some "eve@0800" |}.

(** A binding without comment. *)
Definition silent : Binding :=
  {| b_id := 9; b_mac_address := Some "AA:BB:CC:DD:EE:09";
     b_type := Some "bypassed"; b_comment := None |}.

(** Two records whose comments give the same client name. *)
Definition bob_again : Binding :=
  {| b_id := 6; b_mac_address := Some "AA:BB:CC:DD:EE:06";
     b_type := Some "blocked"; b_comment := Some "bob @0600" |}.

Definition building : Building :=
  {| name := "B1"; client_col := 0; status_col := 1; notes_col := 2 |}.

Definition new_year : date := {| year := 2026; month := 1; day := 1 |}.

(** [bob] once blocked. *)
Definition bob_blocked : Binding :=
  {| b_id := 1; b_mac_address := Some "AA:BB:CC:DD:EE:01";
     b_type := Some "blocked"; b_comment := Some "bob @0100" |}.

(** No update sent yet, the manager just constructed. *)
Definition desk : Env := {| service := []; mikrotik_manager := office |}.

(** A sheet in which the same client stands in two rows. *)
Definition cut_then_activate : list (list string) :=
  [["bob"; "CUT"]; ["bob"; "ACTIVATE=Paid"]].

End Sample.

(** Unfold the plumbing of effects down to the matches on outcomes. *)
Ltac run_eff :=
  unfold delete_ip_binding_by_id, refresh_clients_cache, api_call, must, gets,
    try_except, bind, ret, raise in *;
  cbn beta iota zeta in *.

(** Reduce what a step of [process_client] leaves: the matches on known
    outcomes and the fields of known records. *)
Ltac row_step := cbn beta iota; cbn [service mikrotik_manager negb].

(** ** Vocabulary of the further statements *)

(** Two states of the device that differ in the bindings at most. *)
Definition same_but_bindings (r r' : Router) : Prop :=
  dhcp_lease r' = dhcp_lease r
  /\ ip_arp r' = ip_arp r
  /\ scheduler r' = scheduler r.

(** Two binding lists with the same records in the same order, the types
    apart; and the same, the comments apart. *)
Definition same_but_types (l l' : list Binding) : Prop :=
  map b_id l' = map b_id l
  /\ map b_mac_address l' = map b_mac_address l
  /\ map b_comment l' = map b_comment l.

Definition same_but_comments (l l' : list Binding) : Prop :=
  map b_id l' = map b_id l
  /\ map b_mac_address l' = map b_mac_address l
  /\ map b_type l' = map b_type l.

(** The outcome of an operation that returns a pair: success with no
    label, or failure with one of the [labels]. *)
Definition named_outcome (labels : list string)
    (o : outcome (bool * option string)) : Prop :=
  o = Value (true, None)
  \/ exists label, o = Value (false, Some label) /\ In label labels.

(** The device with its scheduler replaced, and the scheduler after
    [remove] of the item [i]. *)
Definition with_jobs (l : list Job) (r : Router) : Router :=
  {| ip_binding := ip_binding r;
     dhcp_lease := dhcp_lease r;
     ip_arp := ip_arp r;
     scheduler := l |}.

Definition without_job (i : N) (l : list Job) : list Job :=
  filter (fun j => negb (j_id j =? i)%N) l.

(** The scheduler once [schedule_block_client] has made room for the
    client's new entry: the entry found under the client's name is gone. *)
Definition room_for (client_name : string) (self : MikrotikManager)
    : list Job :=
  match find_existing_schedule client_name self with
  | Some old => without_job (j_id old) (scheduler (api self))
  | None => scheduler (api self)
  end.

(** The entry [schedule_block_client] adds to the scheduler [l]. *)
Definition block_job (client_name mac_address start_date : string)
    (l : list Job) : Job :=
  {| j_id := fresh_id (map j_id l);
     j_name := client_name;
     j_start_date := start_date;
     j_start_time := "23:59:00";
     j_interval := "00:00:00";
     j_on_event := script_content mac_address;
     j_policy :=
       "ftp,reboot,read,write,policy,test,password,sniff,sensitive,romon" |}.

(** ** A sample device with leases and scheduler entries *)

Module Lab.

Definition lease : Lease :=
  {| l_address := Some "10.0.0.7"; l_mac_address := Some "AA:BB:CC:DD:EE:0A" |}.

(** A lease still waiting for its MAC address. *)
Definition pending : Lease :=
  {| l_address := Some "10.0.0.7"; l_mac_address := None |}.

Definition neighbour : Lease :=
  {| l_address := Some "10.0.0.7"; l_mac_address := Some "AA:BB:CC:DD:EE:0B" |}.

Definition night_job : Job :=
  {| j_id := 7; j_name := "bob"; j_start_date := "Jan/31/2026";
     j_start_time := "23:59:00"; j_interval := "00:00:00";
     j_on_event := script_content "AA:BB:CC:DD:EE:01";
     j_policy :=
       "ftp,reboot,read,write,policy,test,password,sniff,sensitive,romon" |}.

Definition backup_job : Job :=
  {| j_id := 8; j_name := "backup"; j_start_date := "Jan/01/2026";
     j_start_time := "03:00:00"; j_interval := "1d 00:00:00";
     j_on_event := "/system backup save"; j_policy := "read,write" |}.

Definition router : Router :=
  {| ip_binding := [Sample.bob; Sample.alice; Sample.placeholder];
     dhcp_lease := [pending; lease];
     ip_arp := [neighbour];
     scheduler := [night_job; backup_job] |}.

Definition manager : MikrotikManager := refreshed router.

End Lab.

(** ** What is sent to the sheet *)

(** [sends m Q]: whatever the state, [m] leaves the updates sent before it
    in place and those it adds, oldest first, satisfy [Q]. *)
Definition sends {A : Type} (m : M Env A) (Q : list Update -> Prop) : Prop :=
  forall e, exists news,
    service (snd (m e)) = (service e ++ news)%list /\ Q news.

(** [quiet m]: [m] sends nothing. *)
Definition quiet {A : Type} (m : M Env A) : Prop :=
  forall e, service (snd (m e)) = service e.

(** The update that writes [v] in the status cell of a row. *)
Definition status_update (building_info : Building) (row_index : nat)
    (v : string) : Update :=
  {| range_name := cell_range (status_col building_info) row_index;
     cell_value := Some v |}.

(** The labels [process_client] writes of its own accord, [Not Pay]
    apart: its own and those the manager returns with a failure. *)
Definition outcome_labels : list string :=
  ["BLOCK"; "Old-Date"; "Waiting"; "NO-MAC"; "NO-NOTES-COL"; "NO-NAME";
   "NO-PHONE"; "Already-Exists"; "IP-Not-Found"; "Delete-Failed"; "Wrong-MAC";
   "Client-Not-Found"; "No-Comment"; "Update-Failed"].

(** What [process_client] may send for a row: nothing; one value for the
    status cell, which is [Not Pay], the text after the first [=] of the
    status, or one of the labels above; or, for a renamed client, [Not Pay]
    for the status cell, then a value for the client cell and one for the
    notes cell. *)
Definition row_updates (status : string) (building_info : Building)
    (row_index : nat) (news : list Update) : Prop :=
  news = []
  \/ (exists v,
        news = [status_update building_info row_index v]
        /\ (v = "Not Pay"
            \/ nth_error (split "=" status) 1 = Some v
            \/ In v outcome_labels))
  \/ (exists new_name phone,
        news = [status_update building_info row_index "Not Pay";
                {| range_name := cell_range (client_col building_info) row_index;
                   cell_value := Some new_name |};
                {| range_name := cell_range (notes_col building_info) row_index;
                   cell_value := Some phone |}]).

(** The update [u] addresses a cell of one of the [buildings], in one of
    its three columns and in one of the first [rows] data rows. *)
Definition addresses (buildings : list Building) (rows : nat) (u : Update)
    : Prop :=
  exists b r,
    In b buildings /\ r < rows
    /\ (range_name u = cell_range (client_col b) r
        \/ range_name u = cell_range (status_col b) r
        \/ range_name u = cell_range (notes_col b) r).

(** ** Text *)

(** [sep.join(l)] *)
Fixpoint join_rest (sep : string) (rest : list string) : string :=
  match rest with
  | [] => ""
  | p :: rest' => sep ++ p ++ join_rest sep rest'
  end.

Definition join (sep : string) (l : list string) : string :=
  match l with
  | [] => ""
  | p :: rest => p ++ join_rest sep rest
  end.

(** Four texts with dots between. *)
Definition dotted (a b c d : string) : string :=
  a ++ "." ++ b ++ "." ++ c ++ "." ++ d.

(** A character of the ASCII range. *)
Definition is_ascii (c : ascii) : bool := (nat_of_ascii c <? 128)%nat.

(** The header cell of column [i] names a building. *)
Definition names_building (header_row : list string) (i : nat) : bool :=
  match nth_error header_row i with
  | Some cell_value => truthy cell_value && truthy (strip cell_value)
  | None => false
  end.

(** ** Editing one record *)

(** What [set] of the fields [f] on the item [i] makes of a record. *)
Definition edit_record (i : N) (f : Fields) (b : Binding) : Binding :=
  if (b_id b =? i)%N then apply_fields f b else b.

(** A directory with every record replaced by its image under [g]. *)
Definition map_values {V : Type} (g : V -> V) (d : dict V) : dict V :=
  map (fun kv => (fst kv, g (snd kv))) d.

(** The name under which [_load_clients] enters a binding, if it does. *)
Definition load_key (b : Binding) : option string :=
  if truthy (get (b_comment b) "")
  then Some (_extract_client_name (get (b_comment b) ""))
  else None.

(* ===================================================================== *)
(** * Facts about the Python built-ins *)
(* ===================================================================== *)

Open Scope string_scope.

Section Split.

Lemma drop_empty (n : nat) : drop n "" = "".
Proof. destruct n; reflexivity. Qed.

(** Passing over [k] characters is dropping them. *)
Lemma split_go_skip (sep : string) (maxsplit : option nat) (s : string) :
  forall k, split_go sep maxsplit k s = split_go sep maxsplit 0 (drop k s).
Proof.
  induction s as [|c s IH]; intros k.
  - rewrite drop_empty. destruct k; reflexivity.
  - destruct k as [|k].
    + reflexivity.
    + cbn [split_go drop]. apply IH.
Qed.

(** With no split left the rest is one piece. *)
Lemma split_go_exhausted (sep : string) (maxsplit : option nat) (s : string) :
  may_split maxsplit = false -> split_go sep maxsplit 0 s = [s].
Proof.
  intros Hm. induction s as [|c s IH]; cbn [split_go].
  - reflexivity.
  - rewrite Hm, IH. reflexivity.
Qed.

(** A string without the separator is one piece. *)
Lemma split_go_absent (sep : string) (maxsplit : option nat) (s : string) :
  str_in sep s = false -> split_go sep maxsplit 0 s = [s].
Proof.
  induction s as [|c s IH]; cbn [split_go str_in]; intros H.
  - reflexivity.
  - apply orb_false_elim in H as [Hp Hs].
    rewrite Hp, andb_false_r, (IH Hs). reflexivity.
Qed.

Lemma hd_cons_head (c : ascii) (l : list string) :
  hd "" (cons_head c l) = String c (hd "" l).
Proof. destruct l; reflexivity. Qed.

(** The first piece does not depend on how many splits are allowed, as
    long as one is. *)
Lemma hd_split_go (sep : string) (maxsplit : option nat) (s : string) :
  may_split maxsplit = true ->
  hd "" (split_go sep maxsplit 0 s) = hd "" (split_go sep None 0 s).
Proof.
  intros Hm. induction s as [|c s IH]; cbn [split_go].
  - reflexivity.
  - rewrite Hm. cbn [may_split andb].
    destruct (startswith (String c s) sep).
    + reflexivity.
    + rewrite !hd_cons_head, IH. reflexivity.
Qed.

(** Splitting at a one-character separator [x]: a piece free of [x], then
    [x], then the rest. *)
Lemma split_go_char (x : ascii) (maxsplit : option nat) (a rest : string) :
  str_in (String x "") a = false ->
  split_go (String x "") maxsplit 0 (a ++ String x rest)
  = if may_split maxsplit
    then a :: split_go (String x "") (one_less maxsplit) 0 rest
    else [a ++ String x rest].
Proof.
  destruct (may_split maxsplit) eqn:Hm;
    [| intros _; apply split_go_exhausted; assumption].
  induction a as [|c a IH]; intros H.
  - cbn [append split_go startswith String.length Nat.sub].
    rewrite Hm, Ascii.eqb_refl. reflexivity.
  - cbn [str_in] in H. apply orb_false_elim in H as [Hp Hs].
    cbn [append split_go]. rewrite Hm.
    cbn [startswith] in *. rewrite andb_true_r in *. rewrite Hp.
    cbn [andb]. rewrite (IH Hs). reflexivity.
Qed.

(** The same for the separator of comments, space then [@]. *)
Lemma startswith_sp_at_app (c : ascii) (a t : string) :
  startswith (String c a) " @" = false ->
  startswith (String c (a ++ " @" ++ t)) " @" = false.
Proof.
  cbn [startswith]. destruct (" " =? c)%char; [| reflexivity].
  destruct a as [|d a]; cbn [append andb].
  - intros _. reflexivity.
  - trivial.
Qed.

Lemma split_go_sp_at (maxsplit : option nat) (a rest : string) :
  str_in " @" a = false ->
  split_go " @" maxsplit 0 (a ++ " @" ++ rest)
  = if may_split maxsplit
    then a :: split_go " @" (one_less maxsplit) 0 rest
    else [a ++ " @" ++ rest].
Proof.
  destruct (may_split maxsplit) eqn:Hm;
    [| intros _; apply split_go_exhausted; assumption].
  induction a as [|c a IH]; intros H.
  - cbn [append split_go]. rewrite Hm. reflexivity.
  - cbn [str_in] in H. apply orb_false_elim in H as [Hp Hs].
    change ((String c a ++ " @" ++ rest)) with (String c (a ++ " @" ++ rest)).
    cbn [split_go]. rewrite Hm, (startswith_sp_at_app c a rest Hp).
    cbn [andb]. rewrite (IH Hs). reflexivity.
Qed.

(** A comment that holds the separator is a name part free of it, the
    separator, and the rest. *)
Lemma sp_at_decompose (c : string) :
  str_in " @" c = true ->
  exists n p, c = n ++ " @" ++ p /\ str_in " @" n = false.
Proof.
  induction c as [|x c IH]; cbn [str_in]; intros H.
  - discriminate.
  - destruct (startswith (String x c) " @") eqn:Hp.
    + exists "", (drop 1 c). split; [| reflexivity].
      cbn [startswith] in Hp.
      destruct (Ascii.eqb_spec " " x) as [<-|]; [| discriminate].
      destruct c as [|y c]; [discriminate |].
      destruct (Ascii.eqb_spec "@" y) as [<-|]; [| discriminate].
      reflexivity.
    + cbn [orb] in H. destruct (IH H) as (n & p & -> & Hn).
      exists (String x n), p. split; [reflexivity |].
      cbn [str_in]. rewrite Hn, orb_false_r.
      cbn [startswith] in *. destruct (" " =? x)%char; [| reflexivity].
      destruct n as [|d n]; [reflexivity |].
      exact Hp.
Qed.

(** A text that holds the character [x] is a part free of it, [x], and the
    rest. *)
Lemma char_decompose (x : ascii) (c : string) :
  str_in (String x "") c = true ->
  exists n p, c = n ++ String x p /\ str_in (String x "") n = false.
Proof.
  induction c as [|y c IH]; cbn [str_in startswith]; intros H.
  - discriminate.
  - rewrite andb_true_r in H. destruct (Ascii.eqb_spec x y) as [<-|Hxy].
    + exists "", c. split; reflexivity.
    + cbn [orb] in H. destruct (IH H) as (n & p & -> & Hn).
      exists (String y n), p. split; [reflexivity |].
      cbn [str_in startswith]. rewrite andb_true_r, Hn.
      destruct (Ascii.eqb_spec x y); [contradiction | reflexivity].
Qed.

Lemma str_in_sp_at_app (n p : string) : str_in " @" (n ++ " @" ++ p) = true.
Proof.
  induction n as [|c n IH].
  - reflexivity.
  - change (String c n ++ " @" ++ p) with (String c (n ++ " @" ++ p)).
    cbn [str_in]. rewrite IH. apply orb_true_r.
Qed.

Lemma split1_sp_at (n p : string) :
  str_in " @" n = false -> split1 " @" (n ++ " @" ++ p) = [n; p].
Proof.
  intros H. unfold split1. rewrite split_go_sp_at by assumption.
  cbn [may_split one_less option_map Nat.pred].
  rewrite split_go_exhausted by reflexivity. reflexivity.
Qed.

Lemma hd_split_sp_at (n p : string) :
  str_in " @" n = false -> hd "" (split " @" (n ++ " @" ++ p)) = n.
Proof.
  intros H. unfold split. rewrite split_go_sp_at by assumption. reflexivity.
Qed.

End Split.

Section Strip.

Lemma startswith_app (sub : string) :
  forall a t, startswith a sub = true -> startswith (a ++ t) sub = true.
Proof.
  induction sub as [|x sub IH]; intros a t; cbn [startswith]; [reflexivity |].
  destruct a as [|c a]; [discriminate |]. cbn [append].
  intros H. apply andb_prop in H as [H1 H2].
  rewrite H1, (IH _ _ H2). reflexivity.
Qed.

Lemma str_in_app_l (sub a t : string) :
  str_in sub a = true -> str_in sub (a ++ t) = true.
Proof.
  induction a as [|c a IH]; cbn [str_in append]; intros H.
  - destruct sub; [| discriminate]. destruct t; reflexivity.
  - apply orb_prop in H as [H|H].
    + pose proof (startswith_app sub (String c a) t H) as H'.
      cbn [append] in H'. rewrite H'. reflexivity.
    + rewrite (IH H). apply orb_true_r.
Qed.

Lemma str_in_lstrip (sub s : string) :
  str_in sub (lstrip s) = true -> str_in sub s = true.
Proof.
  induction s as [|c s IH]; cbn [lstrip]; [trivial |].
  destruct (is_space c); [| trivial].
  intros H. cbn [str_in]. rewrite (IH H). apply orb_true_r.
Qed.

Lemma rstrip_is_prefix (s : string) : exists t, s = rstrip s ++ t.
Proof.
  induction s as [|c s [t IH]]; cbn [rstrip].
  - exists "". reflexivity.
  - destruct (rstrip s) as [|d r] eqn:Hr.
    + destruct (is_space c).
      * exists (String c s). reflexivity.
      * exists t. cbn [append] in *. rewrite <- IH. reflexivity.
    + exists t. cbn [append] in *. rewrite <- IH. reflexivity.
Qed.

(** Stripping brings in no occurrence of a text. *)
Lemma not_in_strip (sub s : string) :
  str_in sub s = false -> str_in sub (strip s) = false.
Proof.
  intros H. destruct (str_in sub (strip s)) eqn:E; [| reflexivity].
  unfold strip in E. apply str_in_lstrip in E.
  destruct (rstrip_is_prefix s) as [t Ht].
  apply (str_in_app_l sub (rstrip s) t) in E. rewrite <- Ht in E. congruence.
Qed.

End Strip.

(* ===================================================================== *)
(** * [get_column_letter] *)
(* ===================================================================== *)

Section ColumnLetters.

Lemma chr_code (r : Z) :
  (0 <= r < 26)%Z -> Z.of_nat (nat_of_ascii (chr (65 + r))) = (65 + r)%Z.
Proof.
  intros Hr. unfold chr, nat_of_ascii.
  rewrite N_ascii_embedding by lia.
  rewrite Z_N_nat. lia.
Qed.

Lemma chr_upper (r : Z) : (0 <= r < 26)%Z -> is_upper (chr (65 + r)) = true.
Proof.
  intros Hr. unfold is_upper.
  pose proof (chr_code r Hr) as Hc.
  apply andb_true_intro; split; apply Nat.leb_le; lia.
Qed.

(** The loop reads off the digits of [index + 1] in bijective base 26,
    least significant first, and puts each in front of [result]. *)
Lemma column_letter_loop_value (index : Z) (result : string) :
  letters_value 0 (column_letter_loop index result)
  = letters_value (Z.max 0 (index + 1)) result.
Proof.
  apply (column_letter_loop_elim
           (fun index result out =>
              letters_value 0 out = letters_value (Z.max 0 (index + 1)) result)).
  - intros i Hi res IH _. cbv zeta in *. rewrite IH. cbn [letters_value].
    rewrite chr_code by (apply Z.mod_pos_bound; lia).
    f_equal. pose proof (Z.div_mod i 26). 
    pose proof (Z.mod_pos_bound i 26).
    assert (0 <= i / 26)%Z by (apply Z.div_pos; lia).
    lia.
  - intros i Hi res _. f_equal. lia.
Qed.

Lemma column_letter_loop_upper (index : Z) (result : string) :
  all_chars is_upper result = true ->
  all_chars is_upper (column_letter_loop index result) = true.
Proof.
  apply (column_letter_loop_elim
           (fun index result out =>
              all_chars is_upper result = true -> all_chars is_upper out = true)).
  - intros i Hi res IH _ Hres. cbv zeta in *. apply IH. cbn [all_chars].
    rewrite chr_upper by (apply Z.mod_pos_bound; lia). exact Hres.
  - intros i Hi res _ Hres. exact Hres.
Qed.

Lemma get_column_letter_value (n : nat) :
  letters_value 0 (get_column_letter (Z.of_nat n)) = (Z.of_nat n + 1)%Z.
Proof.
  unfold get_column_letter. rewrite column_letter_loop_value. cbn [letters_value]. lia.
Qed.

Lemma get_column_letter_upper (index : Z) :
  all_chars is_upper (get_column_letter index) = true.
Proof. apply column_letter_loop_upper. reflexivity. Qed.

Lemma get_column_letter_inj (i j : nat) :
  get_column_letter (Z.of_nat i) = get_column_letter (Z.of_nat j) -> i = j.
Proof.
  intros H. apply (f_equal (letters_value 0)) in H.
  rewrite !get_column_letter_value in H. lia.
Qed.

End ColumnLetters.

Section CellRange.

Lemma str_of_nat_starts_plain (n : nat) : starts_plain (str_of_nat n) = true.
Proof.
  unfold str_of_nat, NilZero.string_of_uint.
  destruct (Nat.to_uint n); reflexivity.
Qed.

Lemma upper_run_unique (l1 : string) :
  forall l2 d1 d2,
    all_chars is_upper l1 = true -> all_chars is_upper l2 = true ->
    starts_plain d1 = true -> starts_plain d2 = true ->
    l1 ++ d1 = l2 ++ d2 -> l1 = l2.
Proof.
  induction l1 as [|c l1 IH]; intros [|c2 l2] d1 d2 U1 U2 P1 P2 E; cbn in *.
  - reflexivity.
  - subst d1. cbn in P1. apply andb_prop in U2 as [U2 _].
    rewrite U2 in P1. discriminate.
  - subst d2. cbn in P2. apply andb_prop in U1 as [U1 _].
    rewrite U1 in P2. discriminate.
  - injection E as -> E. apply andb_prop in U1 as [_ U1].
    apply andb_prop in U2 as [_ U2].
    f_equal. exact (IH l2 d1 d2 U1 U2 P1 P2 E).
Qed.

Lemma cell_range_column (c1 c2 r1 r2 : nat) :
  cell_range c1 r1 = cell_range c2 r2 -> c1 = c2.
Proof.
  unfold cell_range. intros E. cbn [append] in E.
  repeat (injection E as E).
  apply upper_run_unique in E;
    auto using get_column_letter_upper, str_of_nat_starts_plain.
  apply get_column_letter_inj in E. lia.
Qed.

End CellRange.

(** C10. [get_column_letter] writes its argument as a bijective base-26
    numeral over the letters A to Z: 0 is A, 25 is Z, 26 is AA and 27 is AB;
    the letters of index [n] are capitals whose value, A counting 1 and Z
    counting 26, is [n + 1]; so the conversion is injective on the natural
    numbers, and two cells written for different columns differ. *)
Theorem get_column_letter_bijective_base26 :
  get_column_letter 0 = "A" /\ get_column_letter 25 = "Z"
  /\ get_column_letter 26 = "AA" /\ get_column_letter 27 = "AB"
  /\ (forall n : nat,
        all_chars is_upper (get_column_letter (Z.of_nat n)) = true
        /\ letters_value 0 (get_column_letter (Z.of_nat n)) = (Z.of_nat n + 1)%Z)
  /\ (forall i j : nat,
        get_column_letter (Z.of_nat i) = get_column_letter (Z.of_nat j) -> i = j)
  /\ (forall c1 c2 r1 r2 : nat, cell_range c1 r1 = cell_range c2 r2 -> c1 = c2).
Proof.
  repeat split; try reflexivity.
  - apply get_column_letter_upper.
  - apply get_column_letter_value.
  - apply get_column_letter_inj.
  - apply cell_range_column.
Qed.

Lemma get_column_letter_bijective_base26_witness :
  cell_range 1 0 = "Payment!D2" /\ 1 = 1.
Proof.
  split; [reflexivity |].
  apply (proj2 (proj2 (proj2 (proj2 (proj2 (proj2
           get_column_letter_bijective_base26))))) 1 1 0 0).
  reflexivity.
Defined.

(* ===================================================================== *)
(** * The directory: [_load_clients] and the lookups *)
(* ===================================================================== *)

Section Dict.

Context {V : Type}.

Lemma dict_get_set_same (k : string) (v : V) (d : dict V) :
  dict_get k (dict_set k v d) = Some v.
Proof.
  induction d as [|[k' v'] d IH]; cbn [dict_set dict_get].
  - rewrite String.eqb_refl. reflexivity.
  - destruct (k' =? k) eqn:E; cbn [dict_get]; rewrite E; [reflexivity | exact IH].
Qed.

Lemma dict_get_set_other (k k' : string) (v : V) (d : dict V) :
  k <> k' -> dict_get k' (dict_set k v d) = dict_get k' d.
Proof.
  intros Hk. induction d as [|[k0 v0] d IH]; cbn [dict_set dict_get].
  - destruct (String.eqb_spec k k'); [contradiction | reflexivity].
  - destruct (String.eqb_spec k0 k) as [->|]; cbn [dict_get].
    + destruct (String.eqb_spec k k'); [contradiction | reflexivity].
    + rewrite IH. reflexivity.
Qed.

Lemma dict_set_entries (k k0 : string) (v v0 : V) (d : dict V) :
  In (k0, v0) (dict_set k v d) -> (k0 = k /\ v0 = v) \/ In (k0, v0) d.
Proof.
  induction d as [|[k' v'] d IH]; cbn [dict_set].
  - intros [[= <- <-]|[]]. left; split; reflexivity.
  - destruct (String.eqb_spec k' k) as [->|]; cbn [In].
    + intros [[= <- <-]|H]; [left; split; reflexivity | right; right; exact H].
    + intros [H|H]; [right; left; exact H |].
      destruct (IH H) as [H'|H']; [left; exact H' | right; right; exact H'].
Qed.

Lemma dict_get_entry (k : string) (v : V) (d : dict V) :
  dict_get k d = Some v -> In (k, v) d.
Proof.
  induction d as [|[k' v'] d IH]; cbn [dict_get]; [discriminate |].
  destruct (String.eqb_spec k' k) as [->|].
  - intros [= ->]. left. reflexivity.
  - intros H. right. exact (IH H).
Qed.

End Dict.

Section Directory.

Lemma find_append {A : Type} (p : A -> bool) (l1 l2 : list A) :
  find p (l1 ++ l2)%list
  = match find p l1 with
    | Some x => Some x
    | None => find p l2
    end.
Proof.
  induction l1 as [|a l1 IH]; cbn [find app]; [reflexivity |].
  destruct (p a); [reflexivity | exact IH].
Qed.

Lemma load_clients_of_bindings (self : MikrotikManager) :
  _load_clients self = fold_left load_step (ip_binding (api self)) [].
Proof. reflexivity. Qed.

Lemma named_true (n : string) (b : Binding) :
  named n b = true ->
  truthy (get (b_comment b) "") = true
  /\ _extract_client_name (get (b_comment b) "") = n.
Proof.
  unfold named. intros H. apply andb_prop in H as [H1 H2].
  split; [exact H1 | apply String.eqb_eq; exact H2].
Qed.

(** What the loop leaves under a name: the last binding of that name it
    met, or what was there before. *)
Lemma load_fold_lookup (n : string) (bs : list Binding) :
  forall acc,
    dict_get n (fold_left load_step bs acc)
    = match find (named n) (rev bs) with
      | Some b => Some b
      | None => dict_get n acc
      end.
Proof.
  induction bs as [|b bs IH]; intros acc; cbn [fold_left rev].
  - reflexivity.
  - rewrite IH, find_append.
    destruct (find (named n) (rev bs)) as [b'|]; [reflexivity |].
    cbn [find]. unfold load_step, named.
    destruct (truthy (get (b_comment b) "")); cbn [andb]; [| reflexivity].
    destruct (String.eqb_spec (_extract_client_name (get (b_comment b) "")) n)
      as [->|Hn].
    + apply dict_get_set_same.
    + apply dict_get_set_other. exact Hn.
Qed.

Lemma load_clients_lookup (n : string) (self : MikrotikManager) :
  dict_get n (_load_clients self)
  = find (named n) (rev (ip_binding (api self))).
Proof.
  rewrite load_clients_of_bindings, load_fold_lookup.
  destruct (find (named n) (rev (ip_binding (api self)))); reflexivity.
Qed.

(** Every entry the loop leaves was there before or comes from a binding
    with a comment. *)
Lemma load_fold_entries (k : string) (b : Binding) (bs : list Binding) :
  forall acc,
    In (k, b) (fold_left load_step bs acc) ->
    In (k, b) acc
    \/ (In b bs /\ truthy (get (b_comment b) "") = true
        /\ k = _extract_client_name (get (b_comment b) "")).
Proof.
  induction bs as [|b0 bs IH]; intros acc; cbn [fold_left].
  - intros H. left. exact H.
  - intros H. destruct (IH _ H) as [H'|(Hin & Ht & Hk)].
    + unfold load_step in H'.
      destruct (truthy (get (b_comment b0) "")) eqn:Ht.
      * apply dict_set_entries in H' as [[-> ->]|H']; [| left; exact H'].
        right. split; [left; reflexivity | split; [exact Ht | reflexivity]].
      * left. exact H'.
    + right. split; [right; exact Hin | split; assumption].
Qed.

Lemma load_clients_entries (k : string) (b : Binding) (self : MikrotikManager) :
  In (k, b) (_load_clients self) ->
  In b (ip_binding (api self)) /\ truthy (get (b_comment b) "") = true
  /\ k = _extract_client_name (get (b_comment b) "").
Proof.
  rewrite load_clients_of_bindings. intros H.
  apply load_fold_entries in H as [[]|H]. exact H.
Qed.

(** A lookup by client name returns the value of some entry. *)
Lemma find_client_flexible_entry (client_name : string) (self : MikrotikManager)
    (b : Binding) :
  find_client_flexible client_name self = Some b ->
  exists k, In (k, b) (clients_cache self).
Proof.
  unfold find_client_flexible.
  destruct (dict_get (strip client_name) (clients_cache self)) as [e|] eqn:He.
  - intros [= <-]. eexists. apply dict_get_entry. exact He.
  - destruct (find _ (clients_cache self)) as [[k v]|] eqn:H1.
    + intros [= <-]. exists k. apply find_some in H1 as [H1 _]. exact H1.
    + destruct (find _ (clients_cache self)) as [[k v]|] eqn:H2 in |- *;
        [| discriminate].
      intros [= <-]. exists k. apply find_some in H2 as [H2 _]. exact H2.
Qed.

Lemma find_client_entry (client_name : string) (self : MikrotikManager)
    (b : Binding) :
  find_client_in_ip_bindings client_name self = Some b ->
  exists k, In (k, b) (clients_cache self).
Proof.
  unfold find_client_in_ip_bindings.
  destruct (dict_get (strip client_name) (clients_cache self)) as [e|] eqn:He.
  - intros [= <-]. eexists. apply dict_get_entry. exact He.
  - apply find_client_flexible_entry.
Qed.

End Directory.

(* ===================================================================== *)
(** * What the mutating methods do to the device and the directory *)
(* ===================================================================== *)

Section Device.

Lemma found_binding_is_there (p : Binding -> bool) (l : list Binding)
    (b : Binding) :
  find p l = Some b -> has_binding (b_id b) l = true.
Proof.
  intros H. apply find_some in H as [H _].
  unfold has_binding. apply existsb_exists. exists b.
  split; [exact H | apply N.eqb_refl].
Qed.

Lemma has_binding_without (i j : N) (l : list Binding) :
  i <> j -> has_binding i (without j l) = has_binding i l.
Proof.
  intros Hij. unfold has_binding, without.
  induction l as [|b l IH]; cbn [filter existsb]; [reflexivity |].
  destruct (N.eqb_spec (b_id b) j) as [E|E]; cbn [negb existsb].
  - rewrite IH. destruct (N.eqb_spec (b_id b) i); [congruence | reflexivity].
  - rewrite IH. reflexivity.
Qed.

Lemma binding_set_run (i : N) (f : Fields) (r : Router) :
  binding_set i f r
  = if has_binding i (ip_binding r)
    then Some (with_bindings (set_on i f (ip_binding r)) r)
    else None.
Proof. reflexivity. Qed.

Lemma binding_remove_run (i : N) (r : Router) :
  binding_remove i r
  = if has_binding i (ip_binding r)
    then Some (with_bindings (without i (ip_binding r)) r)
    else None.
Proof. reflexivity. Qed.

Lemma in_set_on (e : Binding) (i : N) (f : Fields) (l : list Binding) :
  In e l -> b_id e <> i -> In e (set_on i f l).
Proof.
  intros Hin Hid. unfold set_on. apply in_map_iff. exists e.
  destruct (N.eqb_spec (b_id e) i); [contradiction |].
  split; [reflexivity | exact Hin].
Qed.

Lemma unique_id (l : list Binding) (a b : Binding) :
  NoDup (map b_id l) -> In a l -> In b l -> b_id a = b_id b -> a = b.
Proof.
  induction l as [|x l IH]; cbn [map In]; [intros _ [] |].
  intros Hnd Ha Hb E. inversion Hnd as [|? ? Hx Hl]; subst.
  destruct Ha as [->|Ha], Hb as [->|Hb].
  - reflexivity.
  - exfalso. apply Hx. rewrite E. apply in_map. exact Hb.
  - exfalso. apply Hx. rewrite <- E. apply in_map. exact Ha.
  - apply IH; assumption.
Qed.

End Device.

Section SetState.

Variables (client_name : string) (self : MikrotikManager).

Lemma block_client_run (b : Binding) :
  find_client_in_ip_bindings client_name self = Some b ->
  block_client client_name self
  = if has_binding (b_id b) (ip_binding (api self))
    then (Value true,
          {| api := with_bindings
                      (set_on (b_id b) (only_type "blocked")
                         (ip_binding (api self)))
                      (api self);
             clients_cache := clients_cache self |})
    else (Value false, self).
Proof.
  intros Hf. unfold block_client. run_eff. rewrite Hf, binding_set_run.
  destruct (has_binding (b_id b) (ip_binding (api self))); reflexivity.
Qed.

Lemma block_client_unknown :
  find_client_in_ip_bindings client_name self = None ->
  block_client client_name self = (Value false, self).
Proof. intros Hf. unfold block_client. run_eff. rewrite Hf. reflexivity. Qed.

Lemma activate_client_run (b : Binding) :
  find_client_in_ip_bindings client_name self = Some b ->
  activate_client client_name self
  = if has_binding (b_id b) (ip_binding (api self))
    then (Value true,
          {| api := with_bindings
                      (set_on (b_id b) (only_type "bypassed")
                         (ip_binding (api self)))
                      (api self);
             clients_cache := clients_cache self |})
    else (Value false, self).
Proof.
  intros Hf. unfold activate_client. run_eff. rewrite Hf, binding_set_run.
  destruct (has_binding (b_id b) (ip_binding (api self))); reflexivity.
Qed.

Lemma activate_client_unknown :
  find_client_in_ip_bindings client_name self = None ->
  activate_client client_name self = (Value false, self).
Proof. intros Hf. unfold activate_client. run_eff. rewrite Hf. reflexivity. Qed.

End SetState.

Section BindMac.

Variables (client_name mac_or_ip mac_address : string) (self : MikrotikManager).

Hypothesis resolved : resolved_mac mac_or_ip self = Some mac_address.

(** [add_new_client] for a name the directory does not know. *)
Lemma add_new_client_run :
  find_client_in_ip_bindings client_name self = None ->
  add_new_client client_name mac_or_ip self
  = match find_mac_in_ip_bindings mac_address self with
    | Some emb =>
        if is_unauthorized_user (get (b_comment emb) "")
        then (Value (true, None),
              refreshed
                (binding_add mac_address "bypassed" client_name
                   (with_bindings (without (b_id emb) (ip_binding (api self)))
                      (api self))))
        else (Value (false, Some "Already-Exists"), self)
    | None =>
        (Value (true, None),
         refreshed (binding_add mac_address "bypassed" client_name (api self)))
    end.
Proof.
  intros Hf. unfold add_new_client. run_eff. rewrite Hf.
  unfold resolved_mac in resolved.
  destruct (is_ip_address mac_or_ip).
  - destruct (find_mac_by_ip mac_or_ip self) as [m|]; [| discriminate].
    destruct (truthy m); [| discriminate].
    injection resolved as ->. cbn beta iota.
    destruct (find_mac_in_ip_bindings mac_address self) as [emb|] eqn:Hm;
      [| reflexivity].
    destruct (is_unauthorized_user (get (b_comment emb) "")); [| reflexivity].
    rewrite binding_remove_run.
    rewrite (found_binding_is_there _ _ _ Hm). reflexivity.
  - injection resolved as ->.
    destruct (find_mac_in_ip_bindings mac_address self) as [emb|] eqn:Hm;
      [| reflexivity].
    destruct (is_unauthorized_user (get (b_comment emb) "")); [| reflexivity].
    rewrite binding_remove_run.
    rewrite (found_binding_is_there _ _ _ Hm). reflexivity.
Qed.

(** [update_client_mac] for a client the directory knows as [eb]. *)
Lemma update_client_mac_run (eb : Binding) :
  find_client_in_ip_bindings client_name self = Some eb ->
  update_client_mac client_name mac_or_ip self
  = match find_mac_in_ip_bindings mac_address self with
    | Some emb =>
        if negb (b_id emb =? b_id eb)%N
        then
          if is_unauthorized_user (get (b_comment emb) "")
          then set_mac eb mac_address
                 (refreshed
                    (with_bindings (without (b_id emb) (ip_binding (api self)))
                       (api self)))
          else (Value (false, Some "Already-Exists"), self)
        else set_mac eb mac_address self
    | None => set_mac eb mac_address self
    end.
Proof.
  intros Hf. unfold update_client_mac. run_eff. rewrite Hf.
  assert (Hset : forall s : MikrotikManager,
    (let (o, s') :=
       let (o, s') :=
         (if get (b_type eb) "bypassed" =? "blocked"
          then fun self0 : MikrotikManager =>
                 match binding_set (b_id eb)
                         {| f_mac_address := Some mac_address;
                            f_type := Some "bypassed";
                            f_comment := None |} (api self0) with
                 | Some r =>
                     (Value tt,
                      {| api := r; clients_cache := clients_cache self0 |})
                 | None => (Raised, self0)
                 end
          else fun self0 : MikrotikManager =>
                 match binding_set (b_id eb)
                         {| f_mac_address := Some mac_address;
                            f_type := None;
                            f_comment := None |} (api self0) with
                 | Some r =>
                     (Value tt,
                      {| api := r; clients_cache := clients_cache self0 |})
                 | None => (Raised, self0)
                 end) s in
       match o with
       | Value _ =>
           (Value (true, @None string),
            {| api := api s'; clients_cache := _load_clients s' |})
       | Raised => (Raised, s')
       end in
     match o with
     | Value a => (Value a, s')
     | Raised => (Value (false, Some "Wrong-MAC"), s')
     end) = set_mac eb mac_address s).
  { intros s. unfold set_mac, mac_fields.
    destruct (get (b_type eb) "bypassed" =? "blocked");
      cbn beta; rewrite binding_set_run;
      destruct (has_binding (b_id eb) (ip_binding (api s))); reflexivity. }
  unfold resolved_mac in resolved.
  destruct (is_ip_address mac_or_ip).
  - destruct (find_mac_by_ip mac_or_ip self) as [m|]; [| discriminate].
    destruct (truthy m); [| discriminate].
    injection resolved as ->. cbn beta iota.
    destruct (find_mac_in_ip_bindings mac_address self) as [emb|] eqn:Hm;
      [| apply Hset].
    destruct (negb (b_id emb =? b_id eb)%N); [| apply Hset].
    destruct (is_unauthorized_user (get (b_comment emb) "")); [| reflexivity].
    rewrite binding_remove_run, (found_binding_is_there _ _ _ Hm).
    cbn beta iota. apply Hset.
  - injection resolved as ->.
    destruct (find_mac_in_ip_bindings mac_address self) as [emb|] eqn:Hm;
      [| apply Hset].
    destruct (negb (b_id emb =? b_id eb)%N); [| apply Hset].
    destruct (is_unauthorized_user (get (b_comment emb) "")); [| reflexivity].
    rewrite binding_remove_run, (found_binding_is_there _ _ _ Hm).
    cbn beta iota. apply Hset.
Qed.

End BindMac.

Section Unresolved.

Variables (client_name mac_or_ip : string) (self : MikrotikManager).

Hypothesis unresolved : resolved_mac mac_or_ip self = None.

Lemma add_new_client_unresolved :
  find_client_in_ip_bindings client_name self = None ->
  add_new_client client_name mac_or_ip self
  = (Value (false, Some "IP-Not-Found"), self).
Proof.
  intros Hf. unfold add_new_client. run_eff. rewrite Hf.
  unfold resolved_mac in unresolved.
  destruct (is_ip_address mac_or_ip); [| discriminate].
  destruct (find_mac_by_ip mac_or_ip self) as [m|]; [| reflexivity].
  destruct (truthy m); [discriminate | reflexivity].
Qed.

Lemma update_client_mac_unresolved (eb : Binding) :
  find_client_in_ip_bindings client_name self = Some eb ->
  update_client_mac client_name mac_or_ip self
  = (Value (false, Some "IP-Not-Found"), self).
Proof.
  intros Hf. unfold update_client_mac. run_eff. rewrite Hf.
  unfold resolved_mac in unresolved.
  destruct (is_ip_address mac_or_ip); [| discriminate].
  destruct (find_mac_by_ip mac_or_ip self) as [m|]; [| reflexivity].
  destruct (truthy m); [discriminate | reflexivity].
Qed.

End Unresolved.

Section KnownOrNot.

Variables (client_name text : string) (self : MikrotikManager).

Lemma add_new_client_known (b : Binding) :
  find_client_in_ip_bindings client_name self = Some b ->
  add_new_client client_name text self
  = (Value (false, Some "Already-Exists"), self).
Proof. intros Hf. unfold add_new_client. run_eff. rewrite Hf. reflexivity. Qed.

Lemma update_client_mac_unknown :
  find_client_in_ip_bindings client_name self = None ->
  update_client_mac client_name text self
  = (Value (false, Some "Client-Not-Found"), self).
Proof. intros Hf. unfold update_client_mac. run_eff. rewrite Hf. reflexivity. Qed.

Lemma update_client_name_unknown :
  find_client_in_ip_bindings client_name self = None ->
  update_client_name client_name text self
  = (Value (false, Some "Client-Not-Found"), self).
Proof. intros Hf. unfold update_client_name. run_eff. rewrite Hf. reflexivity. Qed.

Lemma update_client_phone_unknown :
  find_client_in_ip_bindings client_name self = None ->
  update_client_phone client_name text self
  = (Value (false, Some "Client-Not-Found"), self).
Proof. intros Hf. unfold update_client_phone. run_eff. rewrite Hf. reflexivity. Qed.

End KnownOrNot.

Section Rename.

Variables (client_name : string) (self : MikrotikManager) (eb : Binding).

Hypothesis known : find_client_in_ip_bindings client_name self = Some eb.

Lemma update_client_name_run (new_name : string) :
  update_client_name client_name new_name self
  = if negb (truthy (get (b_comment eb) ""))
    then (Value (false, Some "No-Comment"), self)
    else set_comment eb (renamed_comment (get (b_comment eb) "") new_name) self.
Proof.
  unfold update_client_name, set_comment. run_eff. rewrite known.
  destruct (negb (truthy (get (b_comment eb) ""))); [reflexivity |].
  destruct (renamed_comment (get (b_comment eb) "") new_name) as [c|];
    [| reflexivity].
  rewrite binding_set_run.
  destruct (has_binding (b_id eb) (ip_binding (api self))); reflexivity.
Qed.

Lemma update_client_phone_run (new_phone : string) :
  update_client_phone client_name new_phone self
  = if negb (truthy (get (b_comment eb) ""))
    then (Value (false, Some "No-Comment"), self)
    else set_comment eb (rephoned_comment (get (b_comment eb) "") new_phone) self.
Proof.
  unfold update_client_phone, set_comment. run_eff. rewrite known.
  destruct (negb (truthy (get (b_comment eb) ""))); [reflexivity |].
  destruct (rephoned_comment (get (b_comment eb) "") new_phone) as [c|];
    [| reflexivity].
  rewrite binding_set_run.
  destruct (has_binding (b_id eb) (ip_binding (api self))); reflexivity.
Qed.

End Rename.

(* ===================================================================== *)
(** * Claims on the directory *)
(* ===================================================================== *)

Section LastWins.

(** C2, as the spec states it, fails: of two bindings whose comments give
    the same client name the directory keeps the second one met, not the
    first. *)
Lemma first_seen_does_not_win :
  find (named "bob") (ip_binding (api (Sample.manager_of [Sample.bob; Sample.bob_again])))
  = Some Sample.bob
  /\ dict_get "bob" (_load_clients (Sample.manager_of [Sample.bob; Sample.bob_again]))
     = Some Sample.bob_again
  /\ (b_id Sample.bob =? b_id Sample.bob_again)%N = false.
Proof. split; [| split]; reflexivity. Qed.

(** C2, amended.  The directory maps a client name to the last binding in
    scan order whose comment gives that name: a binding with a comment is
    the entry of its name when no binding after it gives the same name. *)
Theorem load_clients_last_seen_wins (self : MikrotikManager)
    (front back : list Binding) (b : Binding) :
  ip_binding (api self) = (front ++ b :: back)%list ->
  truthy (get (b_comment b) "") = true ->
  (forall b', In b' back ->
     named (_extract_client_name (get (b_comment b) "")) b' = false) ->
  dict_get (_extract_client_name (get (b_comment b) "")) (_load_clients self)
  = Some b.
Proof.
  intros Hl Hc Hback. rewrite load_clients_lookup, Hl.
  rewrite rev_app_distr. cbn [rev]. rewrite <- app_assoc, find_append.
  destruct (find _ (rev back)) as [b'|] eqn:Hf.
  - apply find_some in Hf as [Hin Hn].
    rewrite (Hback b') in Hn by (apply in_rev; exact Hin). discriminate.
  - cbn [app find]. unfold named. rewrite Hc, String.eqb_refl. reflexivity.
Qed.

Lemma load_clients_last_seen_wins_witness :
  dict_get "bob" (_load_clients (Sample.manager_of [Sample.bob; Sample.bob_again]))
  = Some Sample.bob_again.
Proof.
  apply (load_clients_last_seen_wins
           (Sample.manager_of [Sample.bob; Sample.bob_again])
           [Sample.bob] [] Sample.bob_again).
  - reflexivity.
  - reflexivity.
  - intros b' [].
Defined.

End LastWins.

Section CommentedOnly.

Variable self : MikrotikManager.

Lemma found_client_is_commented (client_name : string) (b : Binding) :
  clients_cache self = _load_clients self ->
  find_client_in_ip_bindings client_name self = Some b ->
  In b (ip_binding (api self)) /\ truthy (get (b_comment b) "") = true.
Proof.
  intros Hc Hf. apply find_client_entry in Hf as [k Hk].
  rewrite Hc in Hk. apply load_clients_entries in Hk as (H1 & H2 & _).
  split; assumption.
Qed.

(** A [set] on the record a lookup by name returned leaves a binding
    without comment as it is. *)
Lemma uncommented_survives_set (client_name : string) (b e : Binding)
    (f : Fields) :
  clients_cache self = _load_clients self ->
  NoDup (map b_id (ip_binding (api self))) ->
  In e (ip_binding (api self)) ->
  truthy (get (b_comment e) "") = false ->
  find_client_in_ip_bindings client_name self = Some b ->
  In e (set_on (b_id b) f (ip_binding (api self))).
Proof.
  intros Hc Hnd He Hempty Hf.
  destruct (found_client_is_commented _ _ Hc Hf) as [Hb Hfull].
  apply in_set_on; [exact He |].
  intros E. apply (unique_id _ _ _ Hnd He Hb) in E. subst e. congruence.
Qed.

End CommentedOnly.

(** C9.  Every entry of the directory built from the device comes from a
    binding of the device whose comment is not empty.  So, while the
    directory is the one built from the device, a lookup by client name
    returns only such bindings, and blocking, activating or renaming by
    client name leaves every binding without comment on the device as it
    is. *)
Theorem directory_holds_commented_bindings_only (self : MikrotikManager) :
  (forall k b,
     In (k, b) (_load_clients self) ->
     In b (ip_binding (api self)) /\ truthy (get (b_comment b) "") = true)
  /\ (clients_cache self = _load_clients self ->
      (forall client_name b,
         find_client_in_ip_bindings client_name self = Some b ->
         In b (ip_binding (api self)) /\ truthy (get (b_comment b) "") = true)
      /\ (NoDup (map b_id (ip_binding (api self))) ->
          forall e,
            In e (ip_binding (api self)) ->
            truthy (get (b_comment e) "") = false ->
            forall client_name text,
              In e (ip_binding (api (snd (block_client client_name self))))
              /\ In e (ip_binding (api (snd (activate_client client_name self))))
              /\ In e (ip_binding
                         (api (snd (update_client_name client_name text self))))
              /\ In e (ip_binding
                         (api (snd (update_client_phone client_name text self)))))).
Proof.
  split.
  { intros k b H. apply load_clients_entries in H as (H1 & H2 & _).
    split; assumption. }
  intros Hc. split.
  { intros client_name b. apply found_client_is_commented. exact Hc. }
  intros Hnd e He Hempty client_name text.
  destruct (find_client_in_ip_bindings client_name self) as [b|] eqn:Hf.
  - pose proof (fun f => uncommented_survives_set self client_name b e f
                           Hc Hnd He Hempty Hf) as Hkeep.
    rewrite (block_client_run _ _ _ Hf), (activate_client_run _ _ _ Hf),
      (update_client_name_run _ _ _ Hf), (update_client_phone_run _ _ _ Hf).
    unfold set_comment.
    destruct (has_binding (b_id b) (ip_binding (api self)));
      destruct (negb (truthy (get (b_comment b) "")));
      destruct (renamed_comment (get (b_comment b) "") text);
      destruct (rephoned_comment (get (b_comment b) "") text);
      cbn [snd api with_bindings refreshed ip_binding];
      repeat split; solve [exact He | apply Hkeep].
  - rewrite (block_client_unknown _ _ Hf), (activate_client_unknown _ _ Hf).
    unfold update_client_name, update_client_phone. run_eff. rewrite Hf.
    repeat split; exact He.
Qed.

Lemma directory_holds_commented_bindings_only_witness :
  (In Sample.alice (ip_binding (api Sample.office))
   /\ truthy (get (b_comment Sample.alice) "") = true)
  /\ In Sample.silent
       (ip_binding
          (api (snd (block_client "bob"
                       (Sample.manager_of [Sample.bob; Sample.silent]))))).
Proof.
  split.
  - apply (proj1 (directory_holds_commented_bindings_only Sample.office)
             "alice" Sample.alice).
    cbn. right. left. reflexivity.
  - refine (proj1 (proj2 (proj2 (directory_holds_commented_bindings_only
                                   (Sample.manager_of [Sample.bob; Sample.silent]))
                            eq_refl)
                     _ Sample.silent _ eq_refl "bob" "")).
    + repeat constructor; cbn; intuition discriminate.
    + right. left. reflexivity.
Defined.

(* ===================================================================== *)
(** * Claims on binding a MAC address *)
(* ===================================================================== *)

Section FirstHolder.

(** The binding from which on the scan of [find_mac_in_ip_bindings] stops:
    the first one in the order of the device that holds the address, case
    apart. *)
Lemma first_holder_found (mac_address : string) (self : MikrotikManager)
    (front back : list Binding) (emb : Binding) :
  ip_binding (api self) = (front ++ emb :: back)%list ->
  (forall b, In b front ->
     (lower (get (b_mac_address b) "") =? lower mac_address) = false) ->
  (lower (get (b_mac_address emb) "") =? lower mac_address) = true ->
  find_mac_in_ip_bindings mac_address self = Some emb.
Proof.
  intros Hl Hfront Hemb. unfold find_mac_in_ip_bindings.
  rewrite Hl, find_append.
  destruct (find _ front) as [b|] eqn:Hf.
  - apply find_some in Hf as [Hin Hb]. rewrite (Hfront b Hin) in Hb.
    discriminate.
  - cbn [find]. rewrite Hemb. reflexivity.
Qed.

End FirstHolder.

(** C1, as the spec states it, fails.  The record edited holds the address
    already and stands first; behind it another client's record, or a
    placeholder, holds the same address.  The update succeeds, the other
    client's record is no obstacle and the placeholder stays on the
    device. *)
Lemma later_holder_is_not_seen :
  (In Sample.twin (ip_binding (api (Sample.manager_of [Sample.bob; Sample.twin])))
   /\ (b_id Sample.twin =? b_id Sample.bob)%N = false
   /\ (lower (get (b_mac_address Sample.twin) "") =? lower "aa:bb:cc:dd:ee:01") = true
   /\ is_unauthorized_user (get (b_comment Sample.twin) "") = false
   /\ find_client_in_ip_bindings "bob" (Sample.manager_of [Sample.bob; Sample.twin])
      = Some Sample.bob
   /\ update_client_mac "bob" "aa:bb:cc:dd:ee:01"
        (Sample.manager_of [Sample.bob; Sample.twin])
      = (Value (true, None),
         Sample.manager_of
           [with_new_mac Sample.bob "aa:bb:cc:dd:ee:01" Sample.bob; Sample.twin]))
  /\ (In Sample.ghost (ip_binding (api (Sample.manager_of [Sample.bob; Sample.ghost])))
      /\ (b_id Sample.ghost =? b_id Sample.bob)%N = false
      /\ (lower (get (b_mac_address Sample.ghost) "") =? lower "aa:bb:cc:dd:ee:01") = true
      /\ is_unauthorized_user (get (b_comment Sample.ghost) "") = true
      /\ update_client_mac "bob" "aa:bb:cc:dd:ee:01"
           (Sample.manager_of [Sample.bob; Sample.ghost])
         = (Value (true, None),
            Sample.manager_of
              [with_new_mac Sample.bob "aa:bb:cc:dd:ee:01" Sample.bob;
               Sample.ghost])).
Proof.
  split.
  - split; [right; left; reflexivity |]. repeat split; vm_compute; reflexivity.
  - split; [right; left; reflexivity |]. repeat split; vm_compute; reflexivity.
Qed.

(** C1, amended.  When the first binding in the scan order of the device
    that holds the MAC address (case apart) is not the record being
    edited: if its comment starts with the marker, it is removed, the
    directory is rebuilt and the operation goes on to succeed, adding the
    new client or setting the address of the edited record, with the
    directory rebuilt again; otherwise the operation ends with
    [Already-Exists] and neither the device nor the directory has changed.
    For [update_client_mac] the edited record is taken to be on the
    device. *)
Theorem mac_conflict_with_first_holder (client_name mac_or_ip mac_address : string)
    (self : MikrotikManager) (front back : list Binding) (emb : Binding) :
  resolved_mac mac_or_ip self = Some mac_address ->
  ip_binding (api self) = (front ++ emb :: back)%list ->
  (forall b, In b front ->
     (lower (get (b_mac_address b) "") =? lower mac_address) = false) ->
  (lower (get (b_mac_address emb) "") =? lower mac_address) = true ->
  (find_client_in_ip_bindings client_name self = None ->
   add_new_client client_name mac_or_ip self
   = if is_unauthorized_user (get (b_comment emb) "")
     then (Value (true, None),
           refreshed
             (binding_add mac_address "bypassed" client_name
                (with_bindings (without (b_id emb) (ip_binding (api self)))
                   (api self))))
     else (Value (false, Some "Already-Exists"), self))
  /\ (forall eb,
        find_client_in_ip_bindings client_name self = Some eb ->
        b_id emb <> b_id eb ->
        has_binding (b_id eb) (ip_binding (api self)) = true ->
        update_client_mac client_name mac_or_ip self
        = if is_unauthorized_user (get (b_comment emb) "")
          then (Value (true, None),
                refreshed
                  (with_bindings
                     (set_on (b_id eb) (mac_fields eb mac_address)
                        (without (b_id emb) (ip_binding (api self))))
                     (api self)))
          else (Value (false, Some "Already-Exists"), self)).
Proof.
  intros Hres Hl Hfront Hemb.
  pose proof (first_holder_found _ _ _ _ _ Hl Hfront Hemb) as Hfind.
  split.
  - intros Hnew. rewrite (add_new_client_run _ _ _ _ Hres Hnew), Hfind.
    reflexivity.
  - intros eb Hknown Hother Hthere.
    rewrite (update_client_mac_run _ _ _ _ Hres _ Hknown), Hfind.
    destruct (N.eqb_spec (b_id emb) (b_id eb)) as [E|_]; [contradiction |].
    cbn [negb].
    destruct (is_unauthorized_user (get (b_comment emb) "")); [| reflexivity].
    unfold set_mac. cbn [api refreshed with_bindings ip_binding].
    rewrite has_binding_without by congruence.
    rewrite Hthere. reflexivity.
Qed.

Lemma mac_conflict_with_first_holder_witness :
  (add_new_client "carol" "aa:bb:cc:dd:ee:03" Sample.office
   = (Value (true, None),
      Sample.manager_of
        [Sample.bob; Sample.alice;
         {| b_id := 3; b_mac_address := Some "aa:bb:cc:dd:ee:03";
            b_type := Some "bypassed"; b_comment := Some "carol" |}]))
  /\ (update_client_mac "alice" "AA:BB:CC:DD:EE:01" Sample.office
      = (Value (false, Some "Already-Exists"), Sample.office)).
Proof.
  split.
  - apply (proj1 (mac_conflict_with_first_holder
                    "carol" "aa:bb:cc:dd:ee:03" "aa:bb:cc:dd:ee:03"
                    Sample.office [Sample.bob; Sample.alice] []
                    Sample.placeholder eq_refl eq_refl
                    ltac:(intros b [<-|[<-|[]]]; reflexivity) eq_refl)).
    reflexivity.
  - apply (proj2 (mac_conflict_with_first_holder
                    "alice" "AA:BB:CC:DD:EE:01" "AA:BB:CC:DD:EE:01"
                    Sample.office [] [Sample.alice; Sample.placeholder]
                    Sample.bob eq_refl eq_refl
                    ltac:(intros b []) eq_refl)
             Sample.alice).
    + reflexivity.
    + discriminate.
    + reflexivity.
Defined.

Section DirectoryCopy.

Variable self : MikrotikManager.



End DirectoryCopy.




(* ===================================================================== *)
(** * Claims on the refresh of the directory *)
(* ===================================================================== *)

Section Refresh.

Lemma refreshed_is_current (r : Router) :
  clients_cache (refreshed r) = _load_clients (refreshed r).
Proof. reflexivity. Qed.

(** The four methods that end with [refresh_clients_cache] leave the
    directory rebuilt from the device when they succeed. *)
Lemma add_new_client_refreshes (client_name mac_or_ip : string)
    (self self' : MikrotikManager) (e : option string) :
  add_new_client client_name mac_or_ip self = (Value (true, e), self') ->
  clients_cache self' = _load_clients self'.
Proof.
  destruct (find_client_in_ip_bindings client_name self) as [b|] eqn:Hf.
  { rewrite (add_new_client_known _ _ _ _ Hf). intros [=]. }
  destruct (resolved_mac mac_or_ip self) as [mac|] eqn:Hres.
  2: { rewrite (add_new_client_unresolved _ _ _ Hres Hf). intros [=]. }
  rewrite (add_new_client_run _ _ _ _ Hres Hf).
  destruct (find_mac_in_ip_bindings mac self) as [emb|].
  - destruct (is_unauthorized_user (get (b_comment emb) ""));
      intros [= _ <-]; reflexivity.
  - intros [= _ <-]. reflexivity.
Qed.

Lemma set_mac_refreshes (eb : Binding) (mac : string)
    (s s' : MikrotikManager) (e : option string) :
  set_mac eb mac s = (Value (true, e), s') ->
  clients_cache s' = _load_clients s'.
Proof.
  unfold set_mac. destruct (has_binding (b_id eb) (ip_binding (api s)));
    intros [= _ <-]; reflexivity.
Qed.

Lemma update_client_mac_refreshes (client_name mac_or_ip : string)
    (self self' : MikrotikManager) (e : option string) :
  update_client_mac client_name mac_or_ip self = (Value (true, e), self') ->
  clients_cache self' = _load_clients self'.
Proof.
  destruct (find_client_in_ip_bindings client_name self) as [eb|] eqn:Hf.
  2: { rewrite (update_client_mac_unknown _ _ _ Hf). intros [=]. }
  destruct (resolved_mac mac_or_ip self) as [mac|] eqn:Hres.
  2: { rewrite (update_client_mac_unresolved _ _ _ Hres _ Hf). intros [=]. }
  rewrite (update_client_mac_run _ _ _ _ Hres _ Hf).
  destruct (find_mac_in_ip_bindings mac self) as [emb|];
    [| apply set_mac_refreshes].
  destruct (negb (b_id emb =? b_id eb)%N); [| apply set_mac_refreshes].
  destruct (is_unauthorized_user (get (b_comment emb) ""));
    [apply set_mac_refreshes | intros [=]].
Qed.

Lemma set_comment_refreshes (eb : Binding) (c : option string)
    (s s' : MikrotikManager) (e : option string) :
  set_comment eb c s = (Value (true, e), s') ->
  clients_cache s' = _load_clients s'.
Proof.
  unfold set_comment. destruct c as [c|]; [| intros [=]].
  destruct (has_binding (b_id eb) (ip_binding (api s)));
    intros [= _ <-]; reflexivity.
Qed.

Lemma update_client_name_refreshes (client_name new_name : string)
    (self self' : MikrotikManager) (e : option string) :
  update_client_name client_name new_name self = (Value (true, e), self') ->
  clients_cache self' = _load_clients self'.
Proof.
  destruct (find_client_in_ip_bindings client_name self) as [eb|] eqn:Hf.
  2: { rewrite (update_client_name_unknown _ _ _ Hf). intros [=]. }
  rewrite (update_client_name_run _ _ _ Hf).
  destruct (negb (truthy (get (b_comment eb) ""))); [intros [=] |].
  apply set_comment_refreshes.
Qed.

Lemma update_client_phone_refreshes (client_name new_phone : string)
    (self self' : MikrotikManager) (e : option string) :
  update_client_phone client_name new_phone self = (Value (true, e), self') ->
  clients_cache self' = _load_clients self'.
Proof.
  destruct (find_client_in_ip_bindings client_name self) as [eb|] eqn:Hf.
  2: { rewrite (update_client_phone_unknown _ _ _ Hf). intros [=]. }
  rewrite (update_client_phone_run _ _ _ Hf).
  destruct (negb (truthy (get (b_comment eb) ""))); [intros [=] |].
  apply set_comment_refreshes.
Qed.

(** [block_client] and [activate_client] never touch the directory. *)
Lemma block_client_keeps_directory (client_name : string)
    (self : MikrotikManager) :
  clients_cache (snd (block_client client_name self)) = clients_cache self.
Proof.
  destruct (find_client_in_ip_bindings client_name self) as [b|] eqn:Hf.
  - rewrite (block_client_run _ _ _ Hf).
    destruct (has_binding (b_id b) (ip_binding (api self))); reflexivity.
  - rewrite (block_client_unknown _ _ Hf). reflexivity.
Qed.

Lemma activate_client_keeps_directory (client_name : string)
    (self : MikrotikManager) :
  clients_cache (snd (activate_client client_name self)) = clients_cache self.
Proof.
  destruct (find_client_in_ip_bindings client_name self) as [b|] eqn:Hf.
  - rewrite (activate_client_run _ _ _ Hf).
    destruct (has_binding (b_id b) (ip_binding (api self))); reflexivity.
  - rewrite (activate_client_unknown _ _ Hf). reflexivity.
Qed.

(** A method that fails leaves the object as it was.  For
    [update_client_mac] the record the directory holds is taken to be on
    the device. *)
Lemma block_client_failure (client_name : string)
    (self self' : MikrotikManager) :
  block_client client_name self = (Value false, self') -> self' = self.
Proof.
  destruct (find_client_in_ip_bindings client_name self) as [b|] eqn:Hf.
  - rewrite (block_client_run _ _ _ Hf).
    destruct (has_binding (b_id b) (ip_binding (api self)));
      [intros [=] | intros [= E]; congruence].
  - rewrite (block_client_unknown _ _ Hf). intros [= E]. congruence.
Qed.

Lemma activate_client_failure (client_name : string)
    (self self' : MikrotikManager) :
  activate_client client_name self = (Value false, self') -> self' = self.
Proof.
  destruct (find_client_in_ip_bindings client_name self) as [b|] eqn:Hf.
  - rewrite (activate_client_run _ _ _ Hf).
    destruct (has_binding (b_id b) (ip_binding (api self)));
      [intros [=] | intros [= E]; congruence].
  - rewrite (activate_client_unknown _ _ Hf). intros [= E]. congruence.
Qed.

Lemma add_new_client_failure (client_name mac_or_ip : string)
    (self self' : MikrotikManager) (e : option string) :
  add_new_client client_name mac_or_ip self = (Value (false, e), self') ->
  self' = self.
Proof.
  destruct (find_client_in_ip_bindings client_name self) as [b|] eqn:Hf.
  { rewrite (add_new_client_known _ _ _ _ Hf). intros [= _ E]. congruence. }
  destruct (resolved_mac mac_or_ip self) as [mac|] eqn:Hres.
  2: { rewrite (add_new_client_unresolved _ _ _ Hres Hf).
       intros [= _ E]. congruence. }
  rewrite (add_new_client_run _ _ _ _ Hres Hf).
  destruct (find_mac_in_ip_bindings mac self) as [emb|]; [| intros [=]].
  destruct (is_unauthorized_user (get (b_comment emb) "")); [intros [=] |].
  intros [= _ E]. congruence.
Qed.

Lemma update_client_mac_failure (client_name mac_or_ip : string)
    (self self' : MikrotikManager) (e : option string) :
  (forall eb,
     find_client_in_ip_bindings client_name self = Some eb ->
     has_binding (b_id eb) (ip_binding (api self)) = true) ->
  update_client_mac client_name mac_or_ip self = (Value (false, e), self') ->
  self' = self.
Proof.
  intros Hthere.
  destruct (find_client_in_ip_bindings client_name self) as [eb|] eqn:Hf.
  2: { rewrite (update_client_mac_unknown _ _ _ Hf).
       intros [= _ E]. congruence. }
  specialize (Hthere eb eq_refl).
  destruct (resolved_mac mac_or_ip self) as [mac|] eqn:Hres.
  2: { rewrite (update_client_mac_unresolved _ _ _ Hres _ Hf).
       intros [= _ E]. congruence. }
  rewrite (update_client_mac_run _ _ _ _ Hres _ Hf).
  assert (Hset : set_mac eb mac self = (Value (false, e), self') -> self' = self).
  { unfold set_mac. rewrite Hthere. intros [=]. }
  destruct (find_mac_in_ip_bindings mac self) as [emb|]; [| exact Hset].
  destruct (N.eqb_spec (b_id emb) (b_id eb)) as [E|E]; cbn [negb];
    [exact Hset |].
  destruct (is_unauthorized_user (get (b_comment emb) "")).
  - unfold set_mac. cbn [api refreshed with_bindings ip_binding].
    rewrite has_binding_without by congruence. rewrite Hthere. intros [=].
  - intros [= _ E']. congruence.
Qed.

Lemma set_comment_failure (eb : Binding) (c : option string)
    (s s' : MikrotikManager) (e : option string) :
  set_comment eb c s = (Value (false, e), s') -> s' = s.
Proof.
  unfold set_comment. destruct c as [c|]; [| intros [= _ E]; congruence].
  destruct (has_binding (b_id eb) (ip_binding (api s)));
    [intros [=] | intros [= _ E]; congruence].
Qed.

Lemma update_client_name_failure (client_name new_name : string)
    (self self' : MikrotikManager) (e : option string) :
  update_client_name client_name new_name self = (Value (false, e), self') ->
  self' = self.
Proof.
  destruct (find_client_in_ip_bindings client_name self) as [eb|] eqn:Hf.
  2: { rewrite (update_client_name_unknown _ _ _ Hf).
       intros [= _ E]. congruence. }
  rewrite (update_client_name_run _ _ _ Hf).
  destruct (negb (truthy (get (b_comment eb) "")));
    [intros [= _ E]; congruence | apply set_comment_failure].
Qed.

Lemma update_client_phone_failure (client_name new_phone : string)
    (self self' : MikrotikManager) (e : option string) :
  update_client_phone client_name new_phone self = (Value (false, e), self') ->
  self' = self.
Proof.
  destruct (find_client_in_ip_bindings client_name self) as [eb|] eqn:Hf.
  2: { rewrite (update_client_phone_unknown _ _ _ Hf).
       intros [= _ E]. congruence. }
  rewrite (update_client_phone_run _ _ _ Hf).
  destruct (negb (truthy (get (b_comment eb) "")));
    [intros [= _ E]; congruence | apply set_comment_failure].
Qed.

End Refresh.

(** C4, where the code departs from it.  [add_new_client],
    [update_client_mac], [update_client_name] and [update_client_phone]
    end with [refresh_clients_cache], so a success of theirs leaves the
    directory rebuilt from the device; a failure of any of the six methods
    leaves the object as it was.  [block_client] and [activate_client] do
    not refresh: they never change the directory, so after a successful
    block the directory still has the client as bypassed while the device
    has it blocked.  A later row of the same cycle reads the stale record:
    asked to activate the client it finds it active, writes the label and
    leaves the device blocked. *)
Theorem block_and_activate_leave_directory_stale :
  (forall client_name text self self' e,
     (add_new_client client_name text self = (Value (true, e), self')
      \/ update_client_mac client_name text self = (Value (true, e), self')
      \/ update_client_name client_name text self = (Value (true, e), self')
      \/ update_client_phone client_name text self = (Value (true, e), self')) ->
     clients_cache self' = _load_clients self')
  /\ (forall client_name text self self' e,
        (forall eb,
           find_client_in_ip_bindings client_name self = Some eb ->
           has_binding (b_id eb) (ip_binding (api self)) = true) ->
        (block_client client_name self = (Value false, self')
         \/ activate_client client_name self = (Value false, self')
         \/ add_new_client client_name text self = (Value (false, e), self')
         \/ update_client_mac client_name text self = (Value (false, e), self')
         \/ update_client_name client_name text self = (Value (false, e), self')
         \/ update_client_phone client_name text self
            = (Value (false, e), self')) ->
        self' = self)
  /\ (forall client_name self,
        clients_cache (snd (block_client client_name self))
        = clients_cache self
        /\ clients_cache (snd (activate_client client_name self))
           = clients_cache self)
  /\ block_client "bob" Sample.office
     = (Value true,
        {| api := Sample.router_of
                    [Sample.bob_blocked; Sample.alice; Sample.placeholder];
           clients_cache := clients_cache Sample.office |})
  /\ dict_get "bob" (clients_cache (snd (block_client "bob" Sample.office)))
     = Some Sample.bob
  /\ dict_get "bob" (_load_clients (snd (block_client "bob" Sample.office)))
     = Some Sample.bob_blocked
  /\ is_client_active "bob" (snd (block_client "bob" Sample.office)) = true
  /\ service
       (snd (process_client Sample.new_year "bob" "ACTIVATE=Paid"
               Sample.building 1 Sample.cut_then_activate
               (snd (process_client Sample.new_year "bob" "CUT"
                       Sample.building 0 Sample.cut_then_activate
                       Sample.desk))))
     = [ {| range_name := "Payment!D2"; cell_value := Some "BLOCK" |};
         {| range_name := "Payment!D3"; cell_value := Some "Paid" |} ]
  /\ ip_binding
       (api (mikrotik_manager
          (snd (process_client Sample.new_year "bob" "ACTIVATE=Paid"
                  Sample.building 1 Sample.cut_then_activate
                  (snd (process_client Sample.new_year "bob" "CUT"
                          Sample.building 0 Sample.cut_then_activate
                          Sample.desk))))))
     = [Sample.bob_blocked; Sample.alice; Sample.placeholder].
Proof.
  split.
  { intros client_name text self self' e [H|[H|[H|H]]];
      eauto using add_new_client_refreshes, update_client_mac_refreshes,
        update_client_name_refreshes, update_client_phone_refreshes. }
  split.
  { intros client_name text self self' e Hthere [H|[H|[H|[H|[H|H]]]]];
      eauto using block_client_failure, activate_client_failure,
        add_new_client_failure, update_client_mac_failure,
        update_client_name_failure, update_client_phone_failure. }
  split.
  { intros client_name self.
    split; [apply block_client_keeps_directory
           | apply activate_client_keeps_directory]. }
  repeat split; vm_compute; reflexivity.
Qed.

(* ===================================================================== *)
(** * Claims on the two halves of a comment *)
(* ===================================================================== *)

Section Halves.

Variables n p : string.

Hypothesis name_part : str_in " @" n = false.

Lemma extract_client_name_of_halves :
  _extract_client_name (n ++ " @" ++ p) = strip n.
Proof.
  unfold _extract_client_name. rewrite hd_split_sp_at by exact name_part.
  reflexivity.
Qed.

Lemma comment_phone_of_halves : comment_phone (n ++ " @" ++ p) = strip p.
Proof.
  unfold comment_phone. rewrite str_in_sp_at_app, split1_sp_at by exact name_part.
  reflexivity.
Qed.

Lemma renamed_comment_of_halves (new_name : string) :
  renamed_comment (n ++ " @" ++ p) new_name = Some (strip new_name ++ " @" ++ p).
Proof.
  unfold renamed_comment. rewrite str_in_sp_at_app, split1_sp_at by exact name_part.
  reflexivity.
Qed.

Lemma rephoned_comment_of_halves (new_phone : string) :
  rephoned_comment (n ++ " @" ++ p) new_phone = Some (n ++ " @" ++ strip new_phone).
Proof.
  unfold rephoned_comment. rewrite str_in_sp_at_app, split1_sp_at by exact name_part.
  reflexivity.
Qed.

End Halves.

Section NoSeparator.

Lemma str_in_char_app (x : ascii) (a t : string) :
  str_in (String x "") (a ++ String x t) = true.
Proof.
  induction a as [|c a IH]; cbn [append str_in startswith].
  - rewrite Ascii.eqb_refl. reflexivity.
  - rewrite IH. apply orb_true_r.
Qed.

Lemma at_in_of_sp_at_in (c : string) :
  str_in " @" c = true -> str_in "@" c = true.
Proof.
  induction c as [|x c IH]; cbn [str_in]; intros H; [discriminate |].
  apply orb_prop in H as [H|H].
  - cbn [startswith] in H. apply andb_prop in H as [_ H].
    destruct c as [|y c]; [discriminate |].
    cbn [str_in startswith]. apply andb_prop in H as [H _].
    rewrite H. cbn. apply orb_true_r.
  - rewrite (IH H). apply orb_true_r.
Qed.

Lemma no_sp_at_of_no_at (c : string) :
  str_in "@" c = false -> str_in " @" c = false.
Proof.
  intros H. destruct (str_in " @" c) eqn:E; [| reflexivity].
  apply at_in_of_sp_at_in in E. congruence.
Qed.

(** No [@] at all: the phone is appended. *)
Lemma rephoned_comment_appends (c new_phone : string) :
  str_in "@" c = false ->
  rephoned_comment c new_phone = Some (c ++ " @" ++ strip new_phone).
Proof.
  intros H. unfold rephoned_comment.
  rewrite (no_sp_at_of_no_at c H), H. reflexivity.
Qed.

(** An [@] with no space before it: what stands before the first [@] is
    kept, the rest is replaced. *)
Lemma rephoned_comment_bare_at (n p new_phone : string) :
  str_in "@" n = false ->
  str_in " @" (n ++ "@" ++ p) = false ->
  rephoned_comment (n ++ "@" ++ p) new_phone = Some (n ++ " @" ++ strip new_phone).
Proof.
  intros Hn Hsp. unfold rephoned_comment. rewrite Hsp.
  change (n ++ "@" ++ p) with (n ++ String "@" p).
  rewrite str_in_char_app. unfold split1. rewrite split_go_char by exact Hn.
  reflexivity.
Qed.

Lemma renamed_comment_bare_at (n p new_name : string) :
  str_in "@" n = false ->
  str_in " @" (n ++ "@" ++ p) = false ->
  renamed_comment (n ++ "@" ++ p) new_name = Some (strip new_name ++ " @" ++ p).
Proof.
  intros Hn Hsp. unfold renamed_comment. rewrite Hsp.
  change (n ++ "@" ++ p) with (n ++ String "@" p).
  rewrite str_in_char_app. unfold split1. rewrite split_go_char by exact Hn.
  cbn [may_split one_less option_map Nat.pred nth_error].
  rewrite split_go_exhausted by reflexivity. reflexivity.
Qed.

End NoSeparator.

Section RenameOnDevice.

Variables (client_name text : string) (self : MikrotikManager) (eb : Binding).

Hypothesis known : find_client_in_ip_bindings client_name self = Some eb.
Hypothesis there : has_binding (b_id eb) (ip_binding (api self)) = true.

(** The state a renaming leaves when it writes the comment [c]. *)
Lemma update_client_name_writes (c c' : string) :
  b_comment eb = Some c -> truthy c = true ->
  renamed_comment c text = Some c' ->
  update_client_name client_name text self
  = (Value (true, None),
     refreshed
       (with_bindings (set_on (b_id eb) (only_comment c') (ip_binding (api self)))
          (api self))).
Proof.
  intros Hc Ht Hr. rewrite (update_client_name_run _ _ _ known), Hc.
  cbn [get]. rewrite Ht, Hr. cbn [negb set_comment]. rewrite there. reflexivity.
Qed.

Lemma update_client_phone_writes (c c' : string) :
  b_comment eb = Some c -> truthy c = true ->
  rephoned_comment c text = Some c' ->
  update_client_phone client_name text self
  = (Value (true, None),
     refreshed
       (with_bindings (set_on (b_id eb) (only_comment c') (ip_binding (api self)))
          (api self))).
Proof.
  intros Hc Ht Hr. rewrite (update_client_phone_run _ _ _ known), Hc.
  cbn [get]. rewrite Ht, Hr. cbn [negb set_comment]. rewrite there. reflexivity.
Qed.

End RenameOnDevice.

Lemma truthy_with_separator (n sep p : string) :
  truthy sep = true -> truthy (n ++ sep ++ p) = true.
Proof. destruct n, sep; try discriminate; reflexivity. Qed.

(** C7, as the spec states it, fails.  The comment [eve@0800] has no
    separator, so all of it is the client name and it has no phone segment;
    yet [update_client_phone] does not append to it: it cuts the comment at
    the [@]. *)
Lemma phone_is_not_appended_after_bare_at :
  str_in " @" "eve@0800" = false
  /\ _extract_client_name "eve@0800" = "eve@0800"
  /\ find_client_in_ip_bindings "eve@0800" (Sample.manager_of [Sample.glued])
     = Some Sample.glued
  /\ update_client_phone "eve@0800" "0555" (Sample.manager_of [Sample.glued])
     = (Value (true, None),
        Sample.manager_of
          [ {| b_id := 8; b_mac_address := Some "AA:BB:CC:DD:EE:08";
               b_type := Some "bypassed"; b_comment := Some "eve @0555" |} ])
  /\ ("eve@0800" ++ " @" ++ "0555" =? "eve @0555") = false.
Proof. repeat split; vm_compute; reflexivity. Qed.

(** C7, amended.  For a client record that is on the device:
    - when its comment holds the separator, with [n] what stands before
      its first occurrence and [p] what stands after, [update_client_name]
      writes the stripped new name, the separator and [p], and
      [update_client_phone] writes [n], the separator and the stripped new
      phone; read again, the comment written by [update_client_phone]
      splits into [n] and the new phone, and the one written by
      [update_client_name] splits into the new name and [p] when the new
      name holds no separator;
    - when its comment holds no [@] at all, [update_client_phone] appends
      the separator and the stripped new phone;
    - when its comment holds an [@] but not the separator, with [n] what
      stands before the first [@], [update_client_phone] writes [n], the
      separator and the stripped new phone, and what stood after [n] is
      lost. *)
Theorem rename_rewrites_one_half (client_name text c : string)
    (self : MikrotikManager) (eb : Binding) :
  find_client_in_ip_bindings client_name self = Some eb ->
  has_binding (b_id eb) (ip_binding (api self)) = true ->
  b_comment eb = Some c ->
  truthy c = true ->
  (str_in " @" c = true ->
   exists n p,
     c = n ++ " @" ++ p /\ str_in " @" n = false
     /\ update_client_name client_name text self
        = (Value (true, None),
           refreshed
             (with_bindings
                (set_on (b_id eb) (only_comment (strip text ++ " @" ++ p))
                   (ip_binding (api self)))
                (api self)))
     /\ update_client_phone client_name text self
        = (Value (true, None),
           refreshed
             (with_bindings
                (set_on (b_id eb) (only_comment (n ++ " @" ++ strip text))
                   (ip_binding (api self)))
                (api self)))
     /\ split1 " @" (n ++ " @" ++ strip text) = [n; strip text]
     /\ (str_in " @" text = false ->
         split1 " @" (strip text ++ " @" ++ p) = [strip text; p]))
  /\ (str_in "@" c = false ->
      update_client_phone client_name text self
      = (Value (true, None),
         refreshed
           (with_bindings
              (set_on (b_id eb) (only_comment (c ++ " @" ++ strip text))
                 (ip_binding (api self)))
              (api self))))
  /\ (str_in " @" c = false -> str_in "@" c = true ->
      exists n p,
        c = n ++ "@" ++ p /\ str_in "@" n = false
        /\ update_client_phone client_name text self
           = (Value (true, None),
              refreshed
                (with_bindings
                   (set_on (b_id eb) (only_comment (n ++ " @" ++ strip text))
                      (ip_binding (api self)))
                   (api self)))).
Proof.
  intros Hknown Hthere Hc Htext. split; [| split].
  - intros Hsep. destruct (sp_at_decompose c Hsep) as (n & p & -> & Hn).
    exists n, p. split; [reflexivity |]. split; [exact Hn |]. repeat split.
    + apply (update_client_name_writes _ _ _ _ Hknown Hthere _ _ Hc Htext).
      apply renamed_comment_of_halves. exact Hn.
    + apply (update_client_phone_writes _ _ _ _ Hknown Hthere _ _ Hc Htext).
      apply rephoned_comment_of_halves. exact Hn.
    + apply split1_sp_at. exact Hn.
    + intros Ht. apply split1_sp_at. apply not_in_strip. exact Ht.
  - intros Hat.
    apply (update_client_phone_writes _ _ _ _ Hknown Hthere _ _ Hc Htext).
    apply rephoned_comment_appends. exact Hat.
  - intros Hsp Hat. destruct (char_decompose "@" c Hat) as (n & p & -> & Hn).
    exists n, p. split; [reflexivity |]. split; [exact Hn |].
    apply (update_client_phone_writes _ _ _ _ Hknown Hthere _ _ Hc Htext).
    apply rephoned_comment_bare_at; assumption.
Qed.

Lemma rename_rewrites_one_half_witness :
  update_client_name "bob" " robert " Sample.office
  = (Value (true, None),
     Sample.manager_of
       [ {| b_id := 1; b_mac_address := Some "AA:BB:CC:DD:EE:01";
            b_type := Some "bypassed"; b_comment := Some "robert @0100" |};
         Sample.alice; Sample.placeholder ])
  /\ update_client_phone "bob" " 0111 " Sample.office
     = (Value (true, None),
        Sample.manager_of
          [ {| b_id := 1; b_mac_address := Some "AA:BB:CC:DD:EE:01";
               b_type := Some "bypassed"; b_comment := Some "bob @0111" |};
            Sample.alice; Sample.placeholder ]).
Proof.
  split.
  - destruct (proj1 (rename_rewrites_one_half "bob" " robert " "bob @0100"
                       Sample.office Sample.bob eq_refl eq_refl eq_refl eq_refl)
                eq_refl) as (n & p & Hc & Hn & Hname & _).
    apply (f_equal (split1 " @")) in Hc.
    rewrite (split1_sp_at n p Hn) in Hc. injection Hc as <- <-.
    exact Hname.
  - destruct (proj1 (rename_rewrites_one_half "bob" " 0111 " "bob @0100"
                       Sample.office Sample.bob eq_refl eq_refl eq_refl eq_refl)
                eq_refl) as (n & p & Hc & Hn & _ & Hphone & _).
    apply (f_equal (split1 " @")) in Hc.
    rewrite (split1_sp_at n p Hn) in Hc. injection Hc as <- <-.
    exact Hphone.
Defined.

(** C8, as the spec states it, fails: both extraction functions strip
    white space, so a comment with a space after the separator is not
    reproduced. *)
Lemma rejoin_loses_white_space :
  find_client_in_ip_bindings "dan" (Sample.manager_of [Sample.spaced])
  = Some Sample.spaced
  /\ _extract_client_name "dan @ 0700" ++ " @"
     ++ get_client_phone "dan" (Sample.manager_of [Sample.spaced])
     = "dan @0700"
  /\ ("dan @0700" =? "dan @ 0700") = false.
Proof. repeat split; vm_compute; reflexivity. Qed.

(** C8, amended.  For a client record whose comment is a name part [n]
    without separator, the separator and a phone part [p], the name
    [_extract_client_name] extracts, the separator and the phone
    [get_client_phone] extracts make up the comment again exactly when
    neither [n] nor [p] starts or ends with white space. *)
Theorem extract_rejoin_reproduces_iff_stripped (client_name : string)
    (self : MikrotikManager) (b : Binding) (n p : string) :
  find_client_in_ip_bindings client_name self = Some b ->
  b_comment b = Some (n ++ " @" ++ p) ->
  str_in " @" n = false ->
  (_extract_client_name (n ++ " @" ++ p) ++ " @"
   ++ get_client_phone client_name self = n ++ " @" ++ p
   <-> strip n = n /\ strip p = p).
Proof.
  intros Hknown Hc Hn. unfold get_client_phone. rewrite Hknown, Hc. cbn [get].
  rewrite extract_client_name_of_halves, comment_phone_of_halves by exact Hn.
  split.
  - intros E. apply (f_equal (split1 " @")) in E.
    rewrite !split1_sp_at in E by (try apply not_in_strip; exact Hn).
    injection E as E1 E2. split; assumption.
  - intros [-> ->]. reflexivity.
Qed.

Lemma extract_rejoin_reproduces_iff_stripped_witness :
  _extract_client_name "bob @0100" ++ " @" ++ get_client_phone "bob" Sample.office
  = "bob @0100".
Proof.
  apply (proj2 (extract_rejoin_reproduces_iff_stripped "bob" Sample.office
                  Sample.bob "bob" "0100" eq_refl eq_refl eq_refl)).
  split; reflexivity.
Defined.

(* ===================================================================== *)
(** * Claims on the date of a scheduled block *)
(* ===================================================================== *)

Section IntOfText.

(** Padding with [zfill(2)] does not change the number [int] reads. *)
Lemma int_zfill (s : string) (v : Z) :
  int s = Some v -> int (zfill 2 s) = Some v.
Proof.
  destruct s as [|c [|d r]].
  - discriminate.
  - destruct c as [[] [] [] [] [] [] [] []]; vm_compute;
      intros H; first [exact H | discriminate H].
  - intros H. replace (zfill 2 (String c (String d r))) with (String c (String d r));
      [exact H |].
    unfold zfill. cbn [String.length Nat.sub zeros append].
    destruct ((c =? "+")%char || (c =? "-")%char); reflexivity.
Qed.

Lemma month_name_exists (m : Z) :
  (1 <= m <= 12)%Z -> exists name, getitem month_names (m - 1) = Some name.
Proof.
  intros Hm.
  assert (H : (m = 1 \/ m = 2 \/ m = 3 \/ m = 4 \/ m = 5 \/ m = 6 \/ m = 7
               \/ m = 8 \/ m = 9 \/ m = 10 \/ m = 11 \/ m = 12)%Z) by lia.
  repeat (destruct H as [->|H]; [eexists; reflexivity |]).
  subst m. eexists. reflexivity.
Qed.

Lemma datetime_month (y m d : Z) (on : date) :
  datetime y m d = Some on -> (1 <= m <= 12)%Z.
Proof.
  unfold datetime.
  destruct ((1 <=? y)%Z && (y <=? 9999)%Z && (1 <=? m)%Z && (m <=? 12)%Z
            && (1 <=? d)%Z && (d <=? days_in_month y m)%Z) eqn:E;
    [| discriminate].
  intros _. repeat (apply andb_prop in E as [E ?]). lia.
Qed.

End IntOfText.

Section Schedule.

Variables (today : date) (client_name mac_address : string).

Lemma delete_existing_schedule_returns (s : MikrotikManager) :
  exists deleted s',
    delete_existing_schedule client_name s = (Value deleted, s').
Proof.
  unfold delete_existing_schedule. run_eff.
  destruct (find_existing_schedule client_name s) as [job|].
  - destruct (job_remove (j_id job) (api s)); eexists; eexists; reflexivity.
  - eexists; eexists; reflexivity.
Qed.

(** What [is_date_in_future] accepted is a text of three pieces whose
    month is a number from 1 to 12. *)
Lemma future_date_shape (block_date : string) :
  is_date_in_future today block_date = true ->
  exists day month year m,
    split "-" block_date = [day; month; year]
    /\ int month = Some m /\ (1 <= m <= 12)%Z.
Proof.
  unfold is_date_in_future.
  destruct (split "-" block_date) as [|day [|month [|year [|? ?]]]];
    try discriminate.
  destruct (int year) as [y|]; [| discriminate].
  destruct (int month) as [m|] eqn:Hm; [| discriminate].
  destruct (int day) as [d|]; [| discriminate].
  destruct (datetime y m d) as [on|] eqn:Hd; [| discriminate].
  intros _. exists day, month, year, m.
  split; [reflexivity | split; [exact Hm |]].
  eapply datetime_month. exact Hd.
Qed.

(** [schedule_block_client] returns what [is_date_in_future] says of the
    date, and leaves the object as it is when that is [False]. *)
Lemma schedule_block_client_follows_the_date (block_date : string)
    (self : MikrotikManager) :
  fst (schedule_block_client today client_name mac_address block_date self)
  = Value (is_date_in_future today block_date)
  /\ (is_date_in_future today block_date = false ->
      snd (schedule_block_client today client_name mac_address block_date self)
      = self).
Proof.
  unfold schedule_block_client.
  destruct (is_date_in_future today block_date) eqn:Hfut; cbn [negb].
  2: { split; reflexivity. }
  split; [| discriminate].
  destruct (future_date_shape _ Hfut) as (day & month & year & m & Hs & Hm & Hr).
  destruct (month_name_exists m Hr) as [name Hname].
  rewrite Hs. run_eff.
  destruct (find_existing_schedule client_name self).
  - destruct (delete_existing_schedule_returns self) as (deleted & s' & ->).
    cbn beta iota. rewrite (int_zfill _ _ Hm). cbn beta iota.
    rewrite Hname. reflexivity.
  - rewrite (int_zfill _ _ Hm). cbn beta iota. rewrite Hname. reflexivity.
Qed.

End Schedule.

Section DateOfParts.

Variables (D M Y : string) (d m y : Z).

Hypothesis day_text : str_in "-" D = false.
Hypothesis month_text : str_in "-" M = false.
Hypothesis year_text : str_in "-" Y = false.
Hypothesis day_number : int D = Some d.
Hypothesis month_number : int M = Some m.
Hypothesis year_number : int Y = Some y.

Lemma split_date : split "-" (D ++ "-" ++ M ++ "-" ++ Y) = [D; M; Y].
Proof.
  unfold split. cbn [append].
  rewrite split_go_char by exact day_text. cbn [may_split one_less option_map].
  rewrite split_go_char by exact month_text. cbn [may_split one_less option_map].
  rewrite split_go_absent by exact year_text. reflexivity.
Qed.

Lemma is_date_in_future_of_parts (today : date) :
  is_date_in_future today (D ++ "-" ++ M ++ "-" ++ Y)
  = match datetime y m d with
    | Some on => date_gt on today
    | None => false
    end.
Proof.
  unfold is_date_in_future.
  rewrite split_date, year_number, month_number, day_number. reflexivity.
Qed.

End DateOfParts.

Lemma date_gt_irreflexive (a : date) : date_gt a a = false.
Proof.
  unfold date_gt. rewrite !Z.ltb_irrefl, !Z.eqb_refl. reflexivity.
Qed.

Lemma date_gt_iff (a b : date) :
  date_gt a b = true
  <-> (year b < year a
       \/ year a = year b /\ (month b < month a
                              \/ month a = month b /\ day b < day a))%Z.
Proof.
  unfold date_gt.
  rewrite !orb_true_iff, !andb_true_iff, !orb_true_iff, !andb_true_iff,
    !Z.ltb_lt, !Z.eqb_eq.
  reflexivity.
Qed.

(** C5.  For an ASCII date text made of a day, a month and a year that
    [int] reads, with a hyphen between them and none inside them,
    [schedule_block_client] returns, and it returns [True] exactly when
    the three numbers are a date of the calendar and that date is after
    the current date, year, month and day compared and nothing else.  So
    the current date itself is refused; [5-6-2026] is accepted while the
    current date is before the 5th of June 2026, and [5-6-2020] is refused
    once the current date is the 5th of June 2020 or later. *)
Theorem schedule_accepts_exactly_later_dates (today : date)
    (client_name mac_address : string) (self : MikrotikManager)
    (D M Y : string) (d m y : Z) :
  all_chars is_ascii (D ++ "-" ++ M ++ "-" ++ Y) = true ->
  str_in "-" D = false -> str_in "-" M = false -> str_in "-" Y = false ->
  int D = Some d -> int M = Some m -> int Y = Some y ->
  (exists accepted : bool,
     fst (schedule_block_client today client_name mac_address
            (D ++ "-" ++ M ++ "-" ++ Y) self) = Value accepted
     /\ (accepted = true
         <-> exists on,
               datetime y m d = Some on
               /\ (year today < year on
                   \/ year on = year today
                      /\ (month today < month on
                          \/ month on = month today /\ day today < day on))%Z))
  /\ (datetime y m d = Some today ->
      fst (schedule_block_client today client_name mac_address
             (D ++ "-" ++ M ++ "-" ++ Y) self) = Value false)
  /\ (date_gt {| year := 2026; month := 6; day := 5 |} today = true ->
      fst (schedule_block_client today client_name mac_address "5-6-2026" self)
      = Value true)
  /\ (date_gt {| year := 2020; month := 6; day := 5 |} today = false ->
      fst (schedule_block_client today client_name mac_address "5-6-2020" self)
      = Value false).
Proof.
  intros _ HD HM HY Hd Hm Hy.
  pose proof (is_date_in_future_of_parts D M Y d m y HD HM HY Hd Hm Hy today)
    as Hparts.
  split; [| split; [| split]].
  - exists (is_date_in_future today (D ++ "-" ++ M ++ "-" ++ Y)).
    split; [apply schedule_block_client_follows_the_date |].
    rewrite Hparts. destruct (datetime y m d) as [on|].
    + rewrite date_gt_iff. split.
      * intros H. exists on. split; [reflexivity | exact H].
      * intros (on' & [= <-] & H). exact H.
    + split; [discriminate | intros (on & [=] & _)].
  - intros Htoday.
    rewrite (proj1 (schedule_block_client_follows_the_date _ _ _ _ _)).
    rewrite Hparts, Htoday, date_gt_irreflexive. reflexivity.
  - intros Hlater.
    rewrite (proj1 (schedule_block_client_follows_the_date _ _ _ _ _)).
    rewrite (is_date_in_future_of_parts "5" "6" "2026" 5 6 2026) by reflexivity.
    cbn. rewrite Hlater. reflexivity.
  - intros Hnot.
    rewrite (proj1 (schedule_block_client_follows_the_date _ _ _ _ _)).
    rewrite (is_date_in_future_of_parts "5" "6" "2020" 5 6 2020) by reflexivity.
    cbn. rewrite Hnot. reflexivity.
Qed.

Lemma schedule_accepts_exactly_later_dates_witness :
  fst (schedule_block_client Sample.new_year "bob" "AA:BB:CC:DD:EE:01"
         "5-6-2026" Sample.office) = Value true
  /\ fst (schedule_block_client Sample.new_year "bob" "AA:BB:CC:DD:EE:01"
            "1-1-2026" Sample.office) = Value false.
Proof.
  split.
  - apply (proj1 (proj2 (proj2
             (schedule_accepts_exactly_later_dates Sample.new_year "bob"
                "AA:BB:CC:DD:EE:01" Sample.office "1" "1" "2026" 1 1 2026
                eq_refl eq_refl eq_refl eq_refl eq_refl eq_refl eq_refl)))).
    reflexivity.
  - apply (proj1 (proj2
             (schedule_accepts_exactly_later_dates Sample.new_year "bob"
                "AA:BB:CC:DD:EE:01" Sample.office "1" "1" "2026" 1 1 2026
                eq_refl eq_refl eq_refl eq_refl eq_refl eq_refl eq_refl))).
    reflexivity.
Defined.

(* ===================================================================== *)
(** * Claims on the label written back *)
(* ===================================================================== *)

Section Labels.

Variables (status label : string) (row_index : nat) (building_info : Building).

Hypothesis label_of_status : nth_error (split "=" status) 1 = Some label.

(** The statements shared by the [NEW=], [UPD-MAC=] and [ACTIVATE=]
    branches write the label, or [Not Pay] for [NOT-PAY] in any case of
    letters. *)
Lemma write_label_aliased_run (e : Env) :
  write_label_aliased status row_index building_info e
  = update_sheet_status row_index
      (Some (if upper label =? "NOT-PAY" then "Not Pay" else label))
      (status_col building_info) e.
Proof.
  unfold write_label_aliased. run_eff. rewrite label_of_status.
  destruct (upper label =? "NOT-PAY"); reflexivity.
Qed.

End Labels.

Section Dispatch.

Variable u : string.

Lemma limit_is_not_cut : startswith u "LIMIT=" = true -> (u =? "CUT") = false.
Proof.
  destruct u as [|c1 u1]; cbn [startswith]; [discriminate |].
  intros H. apply andb_prop in H as [H _]. apply Ascii.eqb_eq in H. subst c1.
  reflexivity.
Qed.

Lemma new_is_nothing_before :
  startswith u "NEW=" = true ->
  (u =? "CUT") = false /\ startswith u "LIMIT=" = false
  /\ (u =? "NOT PAY") = false.
Proof.
  destruct u as [|c1 [|c2 u2]]; cbn [startswith]; try discriminate.
  - intros H. apply andb_prop in H as [_ H]. discriminate.
  - intros H. apply andb_prop in H as [H1 H]. apply andb_prop in H as [H2 _].
    apply Ascii.eqb_eq in H1, H2. subst c1 c2. repeat split.
Qed.

Lemma upd_mac_is_nothing_before :
  startswith u "UPD-MAC=" = true ->
  (u =? "CUT") = false /\ startswith u "LIMIT=" = false
  /\ (u =? "NOT PAY") = false /\ startswith u "NEW=" = false.
Proof.
  destruct u as [|c1 u1]; cbn [startswith]; [discriminate |].
  intros H. apply andb_prop in H as [H _]. apply Ascii.eqb_eq in H. subst c1.
  repeat split.
Qed.

Lemma activate_is_nothing_before :
  startswith u "ACTIVATE=" = true ->
  (u =? "CUT") = false /\ startswith u "LIMIT=" = false
  /\ (u =? "NOT PAY") = false /\ startswith u "NEW=" = false
  /\ startswith u "UPD-MAC=" = false.
Proof.
  destruct u as [|c1 u1]; cbn [startswith]; [discriminate |].
  intros H. apply andb_prop in H as [H _]. apply Ascii.eqb_eq in H. subst c1.
  repeat split.
Qed.

End Dispatch.

Section LabelRows.

(** The status cell holds [command], [=] and [label]; [sent] are the
    updates sent before the row and [manager] the manager it finds. *)
Variables (today : date) (client_name command label : string)
  (building_info : Building) (row_index : nat) (values : list (list string))
  (sent : list Update) (manager : MikrotikManager).

Hypothesis named_row : truthy client_name = true.
Hypothesis command_text : str_in "=" command = false.
Hypothesis label_text : str_in "=" label = false.

Lemma label_after_equals : nth_error (split "=" (command ++ "=" ++ label)) 1 = Some label.
Proof.
  unfold split. cbn [append].
  rewrite split_go_char by exact command_text.
  cbn [may_split one_less option_map].
  rewrite split_go_absent by exact label_text. reflexivity.
Qed.

Lemma status_is_text : truthy (command ++ "=" ++ label) = true.
Proof. apply truthy_with_separator. reflexivity. Qed.

(** A [LIMIT=] row whose block is scheduled and whose client is activated
    gets the label as it stands. *)
Lemma limit_row_writes_label (block_date : string) (m1 m2 : MikrotikManager) :
  startswith (upper (command ++ "=" ++ label)) "LIMIT=" = true ->
  cell values row_index (notes_col building_info) = Some block_date ->
  truthy block_date = true ->
  limit_date_ok block_date = true ->
  truthy (get_client_mac client_name manager) = true ->
  schedule_block_client today client_name
    (get_client_mac client_name manager) block_date
    manager = (Value true, m1) ->
  activate_client client_name m1 = (Value true, m2) ->
  process_client today client_name (command ++ "=" ++ label) building_info
    row_index values {| service := sent; mikrotik_manager := manager |}
  = row_written {| service := sent; mikrotik_manager := manager |}
      building_info row_index
      label m2.
Proof.
  intros Hcmd Hcell Hdate Hok Hmac Hsched Hact.
  unfold process_client, row_written.
  rewrite named_row, status_is_text, (limit_is_not_cut _ Hcmd), Hcmd.
  cbn [negb orb]. unfold on_manager, zoom. run_eff.
  rewrite Hcell. row_step. rewrite Hdate, Hok. row_step.
  rewrite Hmac. row_step. rewrite Hsched. row_step. rewrite Hact. row_step.
  rewrite label_after_equals. reflexivity.
Qed.

(** A [NEW=] row whose client is added gets the label, [NOT-PAY] written
    as [Not Pay]. *)
Lemma new_row_writes_aliased_label (notes : string) (err : option string)
    (m : MikrotikManager) :
  startswith (upper (command ++ "=" ++ label)) "NEW=" = true ->
  cell values row_index (notes_col building_info) = Some notes ->
  truthy notes = true ->
  add_new_client client_name (strip notes) manager
  = (Value (true, err), m) ->
  process_client today client_name (command ++ "=" ++ label) building_info
    row_index values {| service := sent; mikrotik_manager := manager |}
  = row_written {| service := sent; mikrotik_manager := manager |}
      building_info row_index
      (if upper label =? "NOT-PAY" then "Not Pay" else label) m.
Proof.
  intros Hcmd Hcell Hnotes Hadd.
  destruct (new_is_nothing_before _ Hcmd) as (H1 & H2 & H3).
  unfold process_client, row_written.
  rewrite named_row, status_is_text, H1, H2, H3, Hcmd.
  cbn [negb orb]. unfold on_manager, zoom. run_eff.
  rewrite Hcell. row_step. rewrite Hnotes. row_step.
  rewrite Hadd. row_step.
  rewrite (write_label_aliased_run _ _ _ _ label_after_equals). reflexivity.
Qed.

(** The same for an [UPD-MAC=] row whose update succeeds. *)
Lemma upd_mac_row_writes_aliased_label (notes : string) (err : option string)
    (m : MikrotikManager) :
  startswith (upper (command ++ "=" ++ label)) "UPD-MAC=" = true ->
  cell values row_index (notes_col building_info) = Some notes ->
  truthy notes = true ->
  update_client_mac client_name (strip notes) manager
  = (Value (true, err), m) ->
  process_client today client_name (command ++ "=" ++ label) building_info
    row_index values {| service := sent; mikrotik_manager := manager |}
  = row_written {| service := sent; mikrotik_manager := manager |}
      building_info row_index
      (if upper label =? "NOT-PAY" then "Not Pay" else label) m.
Proof.
  intros Hcmd Hcell Hnotes Hupd.
  destruct (upd_mac_is_nothing_before _ Hcmd) as (H1 & H2 & H3 & H4).
  unfold process_client, row_written.
  rewrite named_row, status_is_text, H1, H2, H3, H4, Hcmd.
  cbn [negb orb]. unfold on_manager, zoom. run_eff.
  rewrite Hcell. row_step. rewrite Hnotes. row_step.
  rewrite Hupd. row_step.
  rewrite (write_label_aliased_run _ _ _ _ label_after_equals). reflexivity.
Qed.

(** The same for an [ACTIVATE=] row, the client being active already or
    activated now. *)
Lemma activate_row_writes_aliased_label (m : MikrotikManager) :
  startswith (upper (command ++ "=" ++ label)) "ACTIVATE=" = true ->
  (is_client_active client_name manager = true
   /\ m = manager
   \/ is_client_active client_name manager = false
      /\ activate_client client_name manager = (Value true, m)) ->
  process_client today client_name (command ++ "=" ++ label) building_info
    row_index values {| service := sent; mikrotik_manager := manager |}
  = row_written {| service := sent; mikrotik_manager := manager |}
      building_info row_index
      (if upper label =? "NOT-PAY" then "Not Pay" else label) m.
Proof.
  intros Hcmd Hact.
  destruct (activate_is_nothing_before _ Hcmd) as (H1 & H2 & H3 & H4 & H5).
  unfold process_client, row_written.
  rewrite named_row, status_is_text, H1, H2, H3, H4, H5, Hcmd.
  cbn [negb orb]. unfold on_manager, zoom. run_eff.
  row_step.
  destruct Hact as [[Hactive ->]|[Hactive Hnow]]; rewrite Hactive; row_step.
  - rewrite (write_label_aliased_run _ _ _ _ label_after_equals).
    reflexivity.
  - rewrite Hnow. row_step.
    rewrite (write_label_aliased_run _ _ _ _ label_after_equals). reflexivity.
Qed.

End LabelRows.

(** C3, where the code departs from it.  The status cell holding a
    command, [=] and a label with no [=] in it: a [NEW=], [UPD-MAC=] or
    [ACTIVATE=] row that succeeds gets the label written back, [Not Pay]
    standing for [NOT-PAY] in any case of letters; a [LIMIT=] row that
    succeeds (the block is scheduled, the client activated) gets the label
    as it stands, [NOT-PAY] too. *)
Theorem limit_label_is_not_aliased :
  (forall today client_name command label building_info row_index values
          sent manager,
     truthy client_name = true ->
     str_in "=" command = false -> str_in "=" label = false ->
     (forall notes err m,
        cell values row_index (notes_col building_info) = Some notes ->
        truthy notes = true ->
        startswith (upper (command ++ "=" ++ label)) "NEW=" = true
        /\ add_new_client client_name (strip notes) manager
           = (Value (true, err), m)
        \/ startswith (upper (command ++ "=" ++ label)) "UPD-MAC=" = true
           /\ update_client_mac client_name (strip notes) manager
              = (Value (true, err), m) ->
        process_client today client_name (command ++ "=" ++ label)
          building_info row_index values
          {| service := sent; mikrotik_manager := manager |}
        = row_written {| service := sent; mikrotik_manager := manager |}
            building_info row_index
            (if upper label =? "NOT-PAY" then "Not Pay" else label) m)
     /\ (forall m,
           startswith (upper (command ++ "=" ++ label)) "ACTIVATE=" = true ->
           is_client_active client_name manager = true /\ m = manager
           \/ is_client_active client_name manager = false
              /\ activate_client client_name manager = (Value true, m) ->
           process_client today client_name (command ++ "=" ++ label)
             building_info row_index values
             {| service := sent; mikrotik_manager := manager |}
           = row_written {| service := sent; mikrotik_manager := manager |}
               building_info row_index
               (if upper label =? "NOT-PAY" then "Not Pay" else label) m)
     /\ (forall block_date m1 m2,
           startswith (upper (command ++ "=" ++ label)) "LIMIT=" = true ->
           cell values row_index (notes_col building_info) = Some block_date ->
           truthy block_date = true ->
           limit_date_ok block_date = true ->
           truthy (get_client_mac client_name manager) = true ->
           schedule_block_client today client_name
             (get_client_mac client_name manager) block_date manager
           = (Value true, m1) ->
           activate_client client_name m1 = (Value true, m2) ->
           process_client today client_name (command ++ "=" ++ label)
             building_info row_index values
             {| service := sent; mikrotik_manager := manager |}
           = row_written {| service := sent; mikrotik_manager := manager |}
               building_info row_index label m2))
  /\ process_client Sample.new_year "alice" "LIMIT=NOT-PAY" Sample.building 0
       [["alice"; "LIMIT=NOT-PAY"; "5-6-2026"]] Sample.desk
     = (Value tt,
        {| service :=
             [ {| range_name := "Payment!D2"; cell_value := Some "NOT-PAY" |} ];
           mikrotik_manager :=
             {| api :=
                  {| ip_binding :=
                       [ Sample.bob;
                         {| b_id := 2;
                            b_mac_address := Some "AA:BB:CC:DD:EE:02";
                            b_type := Some "bypassed";
                            b_comment := Some "alice @0200" |};
                         Sample.placeholder ];
                     dhcp_lease := [];
                     ip_arp := [];
                     scheduler :=
                       [ {| j_id := 1; j_name := "alice";
                            j_start_date := "Jun/05/2026";
                            j_start_time := "23:59:00";
                            j_interval := "00:00:00";
                            j_on_event := script_content "AA:BB:CC:DD:EE:02";
                            j_policy :=
                              "ftp,reboot,read,write,policy,test,password,sniff,sensitive,romon" |} ] |};
                clients_cache := clients_cache Sample.office |} |})
  /\ service
       (snd (process_client Sample.new_year "carol" "NEW=NOT-PAY" Sample.building 0
               [["carol"; "NEW=NOT-PAY"; "00:11:22:33:44:55"]] Sample.desk))
     = [ {| range_name := "Payment!D2"; cell_value := Some "Not Pay" |} ]
  /\ service
       (snd (process_client Sample.new_year "alice" "UPD-MAC=NOT-PAY"
               Sample.building 0
               [["alice"; "UPD-MAC=NOT-PAY"; "00:11:22:33:44:55"]] Sample.desk))
     = [ {| range_name := "Payment!D2"; cell_value := Some "Not Pay" |} ]
  /\ service
       (snd (process_client Sample.new_year "alice" "ACTIVATE=NOT-PAY"
               Sample.building 0
               [["alice"; "ACTIVATE=NOT-PAY"]] Sample.desk))
     = [ {| range_name := "Payment!D2"; cell_value := Some "Not Pay" |} ].
Proof.
  split.
  { intros today client_name command label building_info row_index values
      sent manager Hname Hcommand Hlabel.
    split; [| split].
    - intros notes err m Hcell Hnotes [[Hcmd Hrun]|[Hcmd Hrun]].
      + eapply new_row_writes_aliased_label; eassumption.
      + eapply upd_mac_row_writes_aliased_label; eassumption.
    - intros m Hcmd Hrun.
      eapply activate_row_writes_aliased_label; eassumption.
    - intros block_date m1 m2 Hcmd Hcell Hdate Hok Hmac Hsched Hact.
      eapply limit_row_writes_label; eassumption. }
  split; [| split; [| split]]; vm_compute; reflexivity.
Qed.
(* ===================================================================== *)
(** * More on the text operations *)
(* ===================================================================== *)

Section TextMore.

Lemma startswith_refl (s : string) : startswith s s = true.
Proof.
  induction s as [|c s IH]; cbn [startswith]; [reflexivity |].
  rewrite Ascii.eqb_refl, IH. reflexivity.
Qed.

Lemma startswith_empty (s : string) : startswith s "" = true.
Proof. destruct s; reflexivity. Qed.

Lemma str_in_refl (s : string) : str_in s s = true.
Proof.
  destruct s as [|c s]; [reflexivity |].
  cbn [str_in]. rewrite startswith_refl. reflexivity.
Qed.

Lemma str_in_empty (s : string) : str_in "" s = true.
Proof. destruct s; reflexivity. Qed.

Lemma lower_is_empty (s : string) : lower s = "" -> s = "".
Proof. destruct s; [reflexivity | discriminate]. Qed.

Lemma lstrip_idem (s : string) : lstrip (lstrip s) = lstrip s.
Proof.
  induction s as [|c s IH]; cbn [lstrip]; [reflexivity |].
  destruct (is_space c) eqn:E; [exact IH |].
  cbn [lstrip]. rewrite E. reflexivity.
Qed.

Lemma rstrip_idem (s : string) : rstrip (rstrip s) = rstrip s.
Proof.
  induction s as [|c s IH]; cbn [rstrip]; [reflexivity |].
  destruct (rstrip s) as [|d r] eqn:Hr.
  - destruct (is_space c) eqn:E; cbn [rstrip]; [reflexivity |].
    rewrite E. reflexivity.
  - cbn [rstrip] in *. rewrite IH. reflexivity.
Qed.

Lemma rstrip_lstrip (s : string) : rstrip (lstrip s) = lstrip (rstrip s).
Proof.
  induction s as [|c s IH]; cbn [lstrip rstrip]; [reflexivity |].
  destruct (is_space c) eqn:E.
  - rewrite IH. destruct (rstrip s) as [|d r]; cbn [lstrip]; [reflexivity |].
    rewrite E. reflexivity.
  - cbn [rstrip]. destruct (rstrip s) as [|d r]; rewrite ?E; cbn [lstrip];
      rewrite E; reflexivity.
Qed.

(** [strip] changes nothing in a text it has been through. *)
Lemma strip_idem (s : string) : strip (strip s) = strip s.
Proof.
  unfold strip.
  rewrite (rstrip_lstrip (rstrip s)), rstrip_idem, lstrip_idem. reflexivity.
Qed.

Lemma strip_empty : strip "" = "".
Proof. reflexivity. Qed.

Lemma truthy_strip (s : string) : truthy (strip s) = true -> truthy s = true.
Proof. destruct s; [discriminate | reflexivity]. Qed.

(** A name with no separator in it is the name its comment gives. *)
Lemma extract_client_name_plain (s : string) :
  str_in " @" s = false -> _extract_client_name s = strip s.
Proof.
  intros H. unfold _extract_client_name, split.
  rewrite split_go_absent by exact H. reflexivity.
Qed.

End TextMore.
(* ===================================================================== *)
(** * Looking a client up by name *)
(* ===================================================================== *)

Section DictKeys.

Context {V : Type}.

Lemma dict_set_keys (k k0 : string) (v : V) (d : dict V) :
  In k0 (map fst (dict_set k v d)) -> k0 = k \/ In k0 (map fst d).
Proof.
  intros H. apply in_map_iff in H as [[k1 v1] [E H]]. cbn [fst] in E. subst k1.
  apply dict_set_entries in H as [[-> _]|H]; [left; reflexivity | right].
  apply in_map_iff. exists (k0, v1). split; [reflexivity | exact H].
Qed.

Lemma dict_set_keys_distinct (k : string) (v : V) (d : dict V) :
  NoDup (map fst d) -> NoDup (map fst (dict_set k v d)).
Proof.
  induction d as [|[k' v'] d IH]; cbn [dict_set map fst]; intros Hnd.
  - constructor; [intros [] | constructor].
  - inversion Hnd as [|? ? Hk' Hd]; subst.
    destruct (String.eqb_spec k' k) as [->|Hne]; cbn [map fst].
    + constructor; assumption.
    + constructor; [| exact (IH Hd)].
      intros Hin. apply dict_set_keys in Hin as [->|Hin]; contradiction.
Qed.

Lemma dict_get_of_entry (k : string) (v : V) (d : dict V) :
  NoDup (map fst d) -> In (k, v) d -> dict_get k d = Some v.
Proof.
  induction d as [|[k' v'] d IH]; cbn [map fst In dict_get]; [intros _ [] |].
  intros Hnd Hin. inversion Hnd as [|? ? Hk' Hd]; subst.
  destruct Hin as [[= -> ->]|Hin].
  - rewrite String.eqb_refl. reflexivity.
  - destruct (String.eqb_spec k' k) as [->|_]; [| exact (IH Hd Hin)].
    exfalso. apply Hk'. apply in_map_iff. exists (k, v). split; [reflexivity | exact Hin].
Qed.

Lemma dict_get_none (k : string) (d : dict V) :
  dict_get k d = None -> forall v, ~ In (k, v) d.
Proof.
  induction d as [|[k' v'] d IH]; cbn [dict_get In]; intros H v; [intros [] |].
  destruct (String.eqb_spec k' k) as [->|Hne]; [discriminate |].
  intros [[= E _]|Hin]; [contradiction | exact (IH H v Hin)].
Qed.

End DictKeys.

Section Lookup.

Lemma load_fold_keys_distinct (bs : list Binding) :
  forall acc, NoDup (map fst acc) ->
              NoDup (map fst (fold_left load_step bs acc)).
Proof.
  induction bs as [|b bs IH]; intros acc Hacc; cbn [fold_left]; [exact Hacc |].
  apply IH. unfold load_step.
  destruct (truthy (get (b_comment b) "")); [| exact Hacc].
  apply dict_set_keys_distinct. exact Hacc.
Qed.

Lemma load_clients_keys_distinct (self : MikrotikManager) :
  NoDup (map fst (_load_clients self)).
Proof. apply load_fold_keys_distinct. constructor. Qed.

(** The three stages of a lookup, the name stripped once. *)
Lemma find_client_stages (client_name : string) (self : MikrotikManager) :
  find_client_in_ip_bindings client_name self
  = match dict_get (strip client_name) (clients_cache self) with
    | Some exact_match => Some exact_match
    | None =>
        match find (fun kv => lower (fst kv) =? lower (strip client_name))
                   (clients_cache self) with
        | Some (_, binding) => Some binding
        | None =>
            match find (fun kv => str_in (lower (strip client_name))
                                    (lower (fst kv)))
                       (clients_cache self) with
            | Some (_, binding) => Some binding
            | None => None
            end
        end
    end.
Proof.
  unfold find_client_in_ip_bindings, find_client_flexible.
  destruct (dict_get (strip client_name) (clients_cache self)); reflexivity.
Qed.

End Lookup.

(** X1. A lookup by name fails exactly when no name of the directory
    contains the stripped name, letter case apart: a name that is part of
    a directory name finds a client. *)
Theorem lookup_fails_iff_no_name_contains (client_name : string)
    (self : MikrotikManager) :
  find_client_in_ip_bindings client_name self = None
  <-> forall k b, In (k, b) (clients_cache self) ->
        str_in (lower (strip client_name)) (lower k) = false.
Proof.
  rewrite find_client_stages. split.
  - destruct (dict_get _ _); [discriminate |].
    destruct (find (fun kv => lower (fst kv) =? _) _) as [[? ?]|];
      [discriminate |].
    destruct (find (fun kv => str_in _ (lower (fst kv))) _) as [[? ?]|] eqn:H3;
      [discriminate |].
    intros _ k b Hin. exact (find_none _ _ H3 (k, b) Hin).
  - intros Hno.
    destruct (dict_get _ _) as [e|] eqn:H1.
    { apply dict_get_entry in H1. apply Hno in H1.
      rewrite str_in_refl in H1. discriminate. }
    destruct (find (fun kv => lower (fst kv) =? _) _) as [[k b]|] eqn:H2.
    { apply find_some in H2 as [Hin E]. cbn [fst] in E.
      apply String.eqb_eq in E. apply Hno in Hin.
      rewrite E, str_in_refl in Hin. discriminate. }
    destruct (find (fun kv => str_in _ (lower (fst kv))) _) as [[k b]|] eqn:H3;
      [| reflexivity].
    apply find_some in H3 as [Hin E]. cbn [fst] in E.
    rewrite (Hno _ _ Hin) in E. discriminate.
Qed.

Lemma lookup_fails_iff_no_name_contains_witness :
  find_client_in_ip_bindings "Quinn" Sample.office = None
  /\ str_in (lower (strip " LIC ")) (lower "alice") = true.
Proof.
  split; [| reflexivity].
  apply (proj2 (lookup_fails_iff_no_name_contains "Quinn" Sample.office)).
  intros k b [[= <- <-]|[[= <- <-]|[[= <- <-]|[]]]]; reflexivity.
Defined.

(** X2. A name that is blank once stripped finds a client in any directory
    that is not empty: the entry of the empty name when there is one, and
    the first entry of the directory otherwise. *)
Theorem blank_name_finds_first_client (client_name k : string) (b : Binding)
    (rest : dict Binding) (self : MikrotikManager) :
  strip client_name = "" ->
  clients_cache self = (k, b) :: rest ->
  find_client_in_ip_bindings client_name self
  = Some (match dict_get "" (clients_cache self) with
          | Some e => e
          | None => b
          end).
Proof.
  intros Hblank Hcache. rewrite find_client_stages, Hblank.
  destruct (dict_get "" (clients_cache self)) as [e|] eqn:H1; [reflexivity |].
  destruct (find (fun kv => lower (fst kv) =? _) _) as [[k2 b2]|] eqn:H2.
  - apply find_some in H2 as [Hin E]. cbn [fst] in E.
    apply String.eqb_eq in E. change (lower "") with "" in E.
    apply lower_is_empty in E. subst k2.
    exfalso. exact (dict_get_none _ _ H1 _ Hin).
  - rewrite Hcache. cbn [find fst]. change (lower "") with "".
    rewrite str_in_empty. reflexivity.
Qed.

Lemma blank_name_finds_first_client_witness :
  find_client_in_ip_bindings "  " Sample.office = Some Sample.bob.
Proof.
  exact (blank_name_finds_first_client "  " "bob" Sample.bob
           [("alice", Sample.alice);
            ("ZZZZ=Blocked unauthorized device", Sample.placeholder)]
           Sample.office eq_refl eq_refl).
Defined.

(** X3. In a directory that is current, the names are stripped texts, no
    two entries have the same name, and a lookup by the name of an entry
    returns that entry. *)
Theorem directory_entries_are_found_by_name (self : MikrotikManager) :
  clients_cache self = _load_clients self ->
  NoDup (map fst (clients_cache self))
  /\ forall k b, In (k, b) (clients_cache self) ->
       strip k = k /\ find_client_in_ip_bindings k self = Some b.
Proof.
  intros Hc.
  assert (Hnd : NoDup (map fst (clients_cache self)))
    by (rewrite Hc; apply load_clients_keys_distinct).
  split; [exact Hnd |].
  intros k b Hin.
  assert (Hk : strip k = k).
  { rewrite Hc in Hin. apply load_clients_entries in Hin as (_ & _ & ->).
    apply strip_idem. }
  split; [exact Hk |].
  rewrite find_client_stages, Hk, (dict_get_of_entry _ _ _ Hnd Hin).
  reflexivity.
Qed.

Lemma directory_entries_are_found_by_name_witness :
  strip "alice" = "alice"
  /\ find_client_in_ip_bindings "alice" Sample.office = Some Sample.alice.
Proof.
  apply (proj2 (directory_entries_are_found_by_name Sample.office eq_refl)).
  right. left. reflexivity.
Defined.

Section AddThenFind.

Variables (client_name : string).

Hypothesis named_client : truthy client_name = true.
Hypothesis plain_name : str_in " @" client_name = false.

(** The binding added for a client is the one its name finds afterwards. *)
Lemma added_binding_is_found (m : string) (r : Router) :
  find_client_in_ip_bindings client_name
    (refreshed (binding_add m "bypassed" client_name r))
  = Some {| b_id := fresh_id (map b_id (ip_binding r));
            b_mac_address := Some m;
            b_type := Some "bypassed";
            b_comment := Some client_name |}.
Proof.
  rewrite find_client_stages. unfold refreshed. cbn [clients_cache].
  rewrite load_clients_lookup. cbn [api binding_add ip_binding].
  rewrite rev_unit. cbn [find]. unfold named. cbn [b_comment get].
  rewrite named_client, (extract_client_name_plain _ plain_name).
  rewrite String.eqb_refl. reflexivity.
Qed.

End AddThenFind.

(** X4. Adding, then looking up. When [add_new_client] succeeds for a name
    that is not empty and holds no separator, the name finds the new
    binding right away: the last one on the device, of type [bypassed],
    with the resolved address and the name as its comment; the client
    counts as active. *)
Theorem added_client_is_found_by_name (client_name mac_or_ip : string)
    (self self' : MikrotikManager) (e : option string) :
  truthy client_name = true ->
  str_in " @" client_name = false ->
  add_new_client client_name mac_or_ip self = (Value (true, e), self') ->
  exists nb mac_address front,
    resolved_mac mac_or_ip self = Some mac_address
    /\ find_client_in_ip_bindings client_name self = None
    /\ find_client_in_ip_bindings client_name self' = Some nb
    /\ ip_binding (api self') = (front ++ [nb])%list
    /\ b_mac_address nb = Some mac_address
    /\ b_type nb = Some "bypassed"
    /\ b_comment nb = Some client_name
    /\ is_client_active client_name self' = true
    /\ get_client_mac client_name self' = mac_address.
Proof.
  intros Hname Hplain Hadd.
  destruct (find_client_in_ip_bindings client_name self) as [b|] eqn:Hf.
  { rewrite (add_new_client_known _ _ _ _ Hf) in Hadd. discriminate. }
  destruct (resolved_mac mac_or_ip self) as [mac_address|] eqn:Hr.
  2: { rewrite (add_new_client_unresolved _ _ _ Hr Hf) in Hadd. discriminate. }
  rewrite (add_new_client_run _ _ _ _ Hr Hf) in Hadd.
  assert (Hgoal : forall r,
    self' = refreshed (binding_add mac_address "bypassed" client_name r) ->
    exists nb mac front,
      Some mac_address = Some mac
      /\ @None Binding = None
      /\ find_client_in_ip_bindings client_name self' = Some nb
      /\ ip_binding (api self') = (front ++ [nb])%list
      /\ b_mac_address nb = Some mac
      /\ b_type nb = Some "bypassed"
      /\ b_comment nb = Some client_name
      /\ is_client_active client_name self' = true
      /\ get_client_mac client_name self' = mac).
  { intros r ->.
    pose proof (added_binding_is_found client_name Hname Hplain mac_address r)
      as Hfound.
    eexists. exists mac_address, (ip_binding r).
    split; [reflexivity |]. split; [reflexivity |].
    split; [exact Hfound |]. split; [reflexivity |].
    unfold is_client_active, get_client_mac. rewrite Hfound.
    repeat split. }
  destruct (find_mac_in_ip_bindings mac_address self) as [emb|].
  - destruct (is_unauthorized_user (get (b_comment emb) "")); [| discriminate].
    injection Hadd as _ <-. eapply Hgoal. reflexivity.
  - injection Hadd as _ <-. eapply Hgoal. reflexivity.
Qed.

Lemma added_client_is_found_by_name_witness :
  exists nb mac_address front,
    resolved_mac "AA:BB:CC:DD:EE:0A" Sample.office = Some mac_address
    /\ find_client_in_ip_bindings "carol" Sample.office = None
    /\ find_client_in_ip_bindings "carol"
         (snd (add_new_client "carol" "AA:BB:CC:DD:EE:0A" Sample.office))
       = Some nb
    /\ ip_binding
         (api (snd (add_new_client "carol" "AA:BB:CC:DD:EE:0A" Sample.office)))
       = (front ++ [nb])%list
    /\ b_mac_address nb = Some mac_address
    /\ b_type nb = Some "bypassed"
    /\ b_comment nb = Some "carol"
    /\ is_client_active "carol"
         (snd (add_new_client "carol" "AA:BB:CC:DD:EE:0A" Sample.office))
       = true
    /\ get_client_mac "carol"
         (snd (add_new_client "carol" "AA:BB:CC:DD:EE:0A" Sample.office))
       = mac_address.
Proof.
  apply (added_client_is_found_by_name "carol" "AA:BB:CC:DD:EE:0A"
           Sample.office _ None eq_refl eq_refl).
  vm_compute. reflexivity.
Defined.
(* ===================================================================== *)
(** * What the operations leave alone *)
(* ===================================================================== *)

Section SetOn.

Variables (i : N) (l : list Binding).

Lemma set_on_ids (f : Fields) : map b_id (set_on i f l) = map b_id l.
Proof.
  unfold set_on. rewrite map_map. apply map_ext. intros b.
  destruct (b_id b =? i)%N; reflexivity.
Qed.

Lemma set_on_macs (f : Fields) :
  f_mac_address f = None ->
  map b_mac_address (set_on i f l) = map b_mac_address l.
Proof.
  intros Hf. unfold set_on. rewrite map_map. apply map_ext. intros b.
  destruct (b_id b =? i)%N; [| reflexivity].
  cbn [apply_fields b_mac_address]. rewrite Hf. reflexivity.
Qed.

Lemma set_on_types (f : Fields) :
  f_type f = None -> map b_type (set_on i f l) = map b_type l.
Proof.
  intros Hf. unfold set_on. rewrite map_map. apply map_ext. intros b.
  destruct (b_id b =? i)%N; [| reflexivity].
  cbn [apply_fields b_type]. rewrite Hf. reflexivity.
Qed.

Lemma set_on_comments (f : Fields) :
  f_comment f = None -> map b_comment (set_on i f l) = map b_comment l.
Proof.
  intros Hf. unfold set_on. rewrite map_map. apply map_ext. intros b.
  destruct (b_id b =? i)%N; [| reflexivity].
  cbn [apply_fields b_comment]. rewrite Hf. reflexivity.
Qed.

Lemma has_binding_of_ids (l0 : list Binding) (j : N) :
  has_binding j l0 = existsb (fun x => (x =? j)%N) (map b_id l0).
Proof.
  unfold has_binding. induction l0 as [|b l0 IH]; cbn [existsb map];
    [reflexivity |].
  rewrite IH. reflexivity.
Qed.

Lemma has_binding_ids (l' : list Binding) (j : N) :
  map b_id l' = map b_id l -> has_binding j l' = has_binding j l.
Proof. intros H. rewrite !has_binding_of_ids, H. reflexivity. Qed.

Lemma has_binding_set_on (f : Fields) (j : N) :
  has_binding j (set_on i f l) = has_binding j l.
Proof. apply has_binding_ids, set_on_ids. Qed.

(** A [set] of the type after a [set] of the type is the second alone. *)
Lemma set_on_type_twice (t1 t2 : string) :
  set_on i (only_type t2) (set_on i (only_type t1) l)
  = set_on i (only_type t2) l.
Proof.
  unfold set_on. rewrite map_map. apply map_ext. intros b.
  destruct (b_id b =? i)%N eqn:E.
  - cbn [apply_fields b_id]. rewrite E. reflexivity.
  - rewrite E. reflexivity.
Qed.

End SetOn.

Section TypeOnly.

Variables (client_name : string) (self : MikrotikManager).

(** A lookup by name reads the directory only. *)
Lemma find_client_reads_directory (other : MikrotikManager) :
  clients_cache other = clients_cache self ->
  find_client_in_ip_bindings client_name other
  = find_client_in_ip_bindings client_name self.
Proof. intros H. rewrite !find_client_stages, H. reflexivity. Qed.

(** What [block_client] and [activate_client] do, [t] being the type
    they set. *)
Lemma set_type_after_set_type (t1 t2 : string) (b : Binding) :
  has_binding (b_id b) (ip_binding (api self)) = true ->
  (if has_binding (b_id b)
        (ip_binding
           (with_bindings
              (set_on (b_id b) (only_type t1) (ip_binding (api self)))
              (api self)))
   then (Value true,
         {| api := with_bindings
                     (set_on (b_id b) (only_type t2)
                        (ip_binding
                           (with_bindings
                              (set_on (b_id b) (only_type t1)
                                 (ip_binding (api self)))
                              (api self))))
                     (with_bindings
                        (set_on (b_id b) (only_type t1) (ip_binding (api self)))
                        (api self));
            clients_cache := clients_cache self |})
   else (Value false,
         {| api := with_bindings
                     (set_on (b_id b) (only_type t1) (ip_binding (api self)))
                     (api self);
            clients_cache := clients_cache self |}))
  = (Value true,
     {| api := with_bindings
                 (set_on (b_id b) (only_type t2) (ip_binding (api self)))
                 (api self);
        clients_cache := clients_cache self |}).
Proof.
  intros Hb. cbn [with_bindings ip_binding dhcp_lease ip_arp scheduler].
  rewrite has_binding_set_on, Hb, set_on_type_twice. reflexivity.
Qed.

End TypeOnly.

(** X5. [block_client] and [activate_client] overwrite each other. Called
    one after the other on the same name, in either order or the same one
    twice, they return and leave what the second call alone returns and
    leaves. *)
Theorem block_and_activate_overwrite (client_name : string)
    (self : MikrotikManager) :
  block_client client_name (snd (block_client client_name self))
  = block_client client_name self
  /\ activate_client client_name (snd (activate_client client_name self))
     = activate_client client_name self
  /\ block_client client_name (snd (activate_client client_name self))
     = block_client client_name self
  /\ activate_client client_name (snd (block_client client_name self))
     = activate_client client_name self.
Proof.
  destruct (find_client_in_ip_bindings client_name self) as [b|] eqn:Hf.
  - rewrite (block_client_run _ _ _ Hf), (activate_client_run _ _ _ Hf).
    destruct (has_binding (b_id b) (ip_binding (api self))) eqn:Hb;
      cbn [snd].
    + assert (Hf' : forall r,
        find_client_in_ip_bindings client_name
          {| api := r; clients_cache := clients_cache self |} = Some b).
      { intros r. rewrite <- Hf. apply find_client_reads_directory.
        reflexivity. }
      rewrite !(block_client_run _ _ _ (Hf' _)),
        !(activate_client_run _ _ _ (Hf' _)).
      cbn [api clients_cache].
      rewrite !(set_type_after_set_type self _ _ b Hb).
      repeat split.
    + rewrite (block_client_run _ _ _ Hf), (activate_client_run _ _ _ Hf), Hb.
      repeat split.
  - rewrite (block_client_unknown _ _ Hf), (activate_client_unknown _ _ Hf).
    cbn [snd].
    rewrite (block_client_unknown _ _ Hf), (activate_client_unknown _ _ Hf).
    repeat split.
Qed.

Section Frame.

Variables (client_name text : string) (self : MikrotikManager).

Lemma same_but_bindings_refl (r : Router) : same_but_bindings r r.
Proof. repeat split. Qed.

Lemma same_but_bindings_with (l : list Binding) (r : Router) :
  same_but_bindings r (with_bindings l r).
Proof. repeat split. Qed.

Lemma same_but_bindings_trans (r1 r2 r3 : Router) :
  same_but_bindings r1 r2 -> same_but_bindings r2 r3 ->
  same_but_bindings r1 r3.
Proof.
  intros (A1 & A2 & A3) (B1 & B2 & B3).
  repeat split; congruence.
Qed.

Lemma set_type_frame (t : string) (i : N) :
  same_but_types (ip_binding (api self))
    (set_on i (only_type t) (ip_binding (api self))).
Proof.
  repeat split;
    [apply set_on_ids | apply set_on_macs | apply set_on_comments];
    reflexivity.
Qed.

Lemma set_comment_frame (c : string) (i : N) :
  same_but_comments (ip_binding (api self))
    (set_on i (only_comment c) (ip_binding (api self))).
Proof.
  repeat split;
    [apply set_on_ids | apply set_on_macs | apply set_on_types];
    reflexivity.
Qed.

Lemma block_client_frame :
  same_but_bindings (api self) (api (snd (block_client client_name self)))
  /\ same_but_types (ip_binding (api self))
       (ip_binding (api (snd (block_client client_name self)))).
Proof.
  destruct (find_client_in_ip_bindings client_name self) as [b|] eqn:Hf.
  - rewrite (block_client_run _ _ _ Hf).
    destruct (has_binding (b_id b) (ip_binding (api self))); cbn [snd api].
    + split; [apply same_but_bindings_with | apply set_type_frame].
    + repeat split.
  - rewrite (block_client_unknown _ _ Hf). repeat split.
Qed.

Lemma activate_client_frame :
  same_but_bindings (api self) (api (snd (activate_client client_name self)))
  /\ same_but_types (ip_binding (api self))
       (ip_binding (api (snd (activate_client client_name self)))).
Proof.
  destruct (find_client_in_ip_bindings client_name self) as [b|] eqn:Hf.
  - rewrite (activate_client_run _ _ _ Hf).
    destruct (has_binding (b_id b) (ip_binding (api self))); cbn [snd api].
    + split; [apply same_but_bindings_with | apply set_type_frame].
    + repeat split.
  - rewrite (activate_client_unknown _ _ Hf). repeat split.
Qed.

Lemma set_comment_step_frame (eb : Binding) (c : option string) :
  same_but_bindings (api self) (api (snd (set_comment eb c self)))
  /\ same_but_comments (ip_binding (api self))
       (ip_binding (api (snd (set_comment eb c self)))).
Proof.
  unfold set_comment. destruct c as [c|]; [| repeat split].
  destruct (has_binding (b_id eb) (ip_binding (api self)));
    cbn [snd api refreshed]; [| repeat split].
  split; [apply same_but_bindings_with | apply set_comment_frame].
Qed.

Lemma update_client_name_frame :
  same_but_bindings (api self)
    (api (snd (update_client_name client_name text self)))
  /\ same_but_comments (ip_binding (api self))
       (ip_binding (api (snd (update_client_name client_name text self)))).
Proof.
  destruct (find_client_in_ip_bindings client_name self) as [eb|] eqn:Hf.
  - rewrite (update_client_name_run _ _ _ Hf).
    destruct (negb (truthy (get (b_comment eb) ""))); [repeat split |].
    apply set_comment_step_frame.
  - rewrite (update_client_name_unknown _ _ _ Hf). repeat split.
Qed.

Lemma update_client_phone_frame :
  same_but_bindings (api self)
    (api (snd (update_client_phone client_name text self)))
  /\ same_but_comments (ip_binding (api self))
       (ip_binding (api (snd (update_client_phone client_name text self)))).
Proof.
  destruct (find_client_in_ip_bindings client_name self) as [eb|] eqn:Hf.
  - rewrite (update_client_phone_run _ _ _ Hf).
    destruct (negb (truthy (get (b_comment eb) ""))); [repeat split |].
    apply set_comment_step_frame.
  - rewrite (update_client_phone_unknown _ _ _ Hf). repeat split.
Qed.

End Frame.

(** X6. What the four operations that edit one record never touch.
    [block_client] and [activate_client] change types only, and
    [update_client_name] and [update_client_phone] comments only: the
    records of the device stay the same in number and order, each with its
    id and its MAC address, and the leases, the ARP table and the
    scheduler stay as they are. *)
Theorem edits_change_one_field (client_name text : string)
    (self : MikrotikManager) :
  (same_but_bindings (api self) (api (snd (block_client client_name self)))
   /\ same_but_types (ip_binding (api self))
        (ip_binding (api (snd (block_client client_name self)))))
  /\ (same_but_bindings (api self)
        (api (snd (activate_client client_name self)))
      /\ same_but_types (ip_binding (api self))
           (ip_binding (api (snd (activate_client client_name self)))))
  /\ (same_but_bindings (api self)
        (api (snd (update_client_name client_name text self)))
      /\ same_but_comments (ip_binding (api self))
           (ip_binding
              (api (snd (update_client_name client_name text self)))))
  /\ (same_but_bindings (api self)
        (api (snd (update_client_phone client_name text self)))
      /\ same_but_comments (ip_binding (api self))
           (ip_binding
              (api (snd (update_client_phone client_name text self))))).
Proof.
  split; [apply block_client_frame |].
  split; [apply activate_client_frame |].
  split; [apply update_client_name_frame | apply update_client_phone_frame].
Qed.

Section Spared.

Variables (client_name mac_or_ip : string) (self : MikrotikManager).

Hypothesis distinct_ids : NoDup (map b_id (ip_binding (api self))).

(** A record that is no placeholder is not among those removed with the
    placeholder [emb]. *)
Lemma client_survives_placeholder (mac_address : string) (emb b : Binding) :
  find_mac_in_ip_bindings mac_address self = Some emb ->
  is_unauthorized_user (get (b_comment emb) "") = true ->
  In b (ip_binding (api self)) ->
  is_unauthorized_user (get (b_comment b) "") = false ->
  In b (without (b_id emb) (ip_binding (api self))).
Proof.
  intros Hm Hemb Hb Hclient. unfold without. apply filter_In.
  split; [exact Hb |].
  destruct (N.eqb_spec (b_id b) (b_id emb)) as [E|]; [| reflexivity].
  apply find_some in Hm as [Hin _].
  rewrite (unique_id _ _ _ distinct_ids Hb Hin E) in Hclient. congruence.
Qed.

Lemma add_new_client_spares (b : Binding) :
  In b (ip_binding (api self)) ->
  is_unauthorized_user (get (b_comment b) "") = false ->
  In b (ip_binding (api (snd (add_new_client client_name mac_or_ip self)))).
Proof.
  intros Hb Hclient.
  destruct (find_client_in_ip_bindings client_name self) as [known|] eqn:Hf.
  { rewrite (add_new_client_known _ _ _ _ Hf). exact Hb. }
  destruct (resolved_mac mac_or_ip self) as [mac_address|] eqn:Hr.
  2: { rewrite (add_new_client_unresolved _ _ _ Hr Hf). exact Hb. }
  rewrite (add_new_client_run _ _ _ _ Hr Hf).
  destruct (find_mac_in_ip_bindings mac_address self) as [emb|] eqn:Hm.
  - destruct (is_unauthorized_user (get (b_comment emb) "")) eqn:Hemb;
      [| exact Hb].
    cbn [snd refreshed api binding_add ip_binding with_bindings].
    apply in_or_app. left.
    exact (client_survives_placeholder _ _ _ Hm Hemb Hb Hclient).
  - cbn [snd refreshed api binding_add ip_binding].
    apply in_or_app. left. exact Hb.
Qed.

Lemma set_mac_spares (eb b : Binding) (mac_address : string)
    (s : MikrotikManager) :
  In b (ip_binding (api s)) -> b_id b <> b_id eb ->
  In b (ip_binding (api (snd (set_mac eb mac_address s)))).
Proof.
  intros Hb Hid. unfold set_mac.
  destruct (has_binding (b_id eb) (ip_binding (api s))); [| exact Hb].
  cbn [snd refreshed api with_bindings ip_binding].
  apply in_set_on; assumption.
Qed.

Lemma update_client_mac_spares (eb b : Binding) :
  find_client_in_ip_bindings client_name self = Some eb ->
  In b (ip_binding (api self)) ->
  b_id b <> b_id eb ->
  is_unauthorized_user (get (b_comment b) "") = false ->
  In b (ip_binding (api (snd (update_client_mac client_name mac_or_ip self)))).
Proof.
  intros Hf Hb Hid Hclient.
  destruct (resolved_mac mac_or_ip self) as [mac_address|] eqn:Hr.
  2: { rewrite (update_client_mac_unresolved _ _ _ Hr _ Hf). exact Hb. }
  rewrite (update_client_mac_run _ _ _ _ Hr _ Hf).
  destruct (find_mac_in_ip_bindings mac_address self) as [emb|] eqn:Hm.
  - destruct (negb (b_id emb =? b_id eb)%N).
    + destruct (is_unauthorized_user (get (b_comment emb) "")) eqn:Hemb;
        [| exact Hb].
      apply set_mac_spares; [| exact Hid].
      exact (client_survives_placeholder _ _ _ Hm Hemb Hb Hclient).
    + apply set_mac_spares; assumption.
  - apply set_mac_spares; assumption.
Qed.

End Spared.

Section SparedRest.

Variables (client_name mac_or_ip : string) (self : MikrotikManager).

Lemma set_mac_frame (eb : Binding) (mac_address : string)
    (s : MikrotikManager) :
  same_but_bindings (api s) (api (snd (set_mac eb mac_address s))).
Proof.
  unfold set_mac.
  destruct (has_binding (b_id eb) (ip_binding (api s)));
    [apply same_but_bindings_with | apply same_but_bindings_refl].
Qed.

Lemma add_new_client_frame :
  same_but_bindings (api self)
    (api (snd (add_new_client client_name mac_or_ip self))).
Proof.
  destruct (find_client_in_ip_bindings client_name self) as [known|] eqn:Hf.
  { rewrite (add_new_client_known _ _ _ _ Hf). apply same_but_bindings_refl. }
  destruct (resolved_mac mac_or_ip self) as [mac_address|] eqn:Hr.
  2: { rewrite (add_new_client_unresolved _ _ _ Hr Hf).
       apply same_but_bindings_refl. }
  rewrite (add_new_client_run _ _ _ _ Hr Hf).
  destruct (find_mac_in_ip_bindings mac_address self) as [emb|].
  - destruct (is_unauthorized_user (get (b_comment emb) ""));
      repeat split.
  - repeat split.
Qed.

Lemma update_client_mac_frame :
  same_but_bindings (api self)
    (api (snd (update_client_mac client_name mac_or_ip self))).
Proof.
  destruct (find_client_in_ip_bindings client_name self) as [eb|] eqn:Hf.
  2: { rewrite (update_client_mac_unknown _ _ _ Hf).
       apply same_but_bindings_refl. }
  destruct (resolved_mac mac_or_ip self) as [mac_address|] eqn:Hr.
  2: { rewrite (update_client_mac_unresolved _ _ _ Hr _ Hf).
       apply same_but_bindings_refl. }
  rewrite (update_client_mac_run _ _ _ _ Hr _ Hf).
  destruct (find_mac_in_ip_bindings mac_address self) as [emb|].
  - destruct (negb (b_id emb =? b_id eb)%N); [| apply set_mac_frame].
    destruct (is_unauthorized_user (get (b_comment emb) ""));
      [| apply same_but_bindings_refl].
    eapply same_but_bindings_trans; [| apply set_mac_frame].
    apply same_but_bindings_with.
  - apply set_mac_frame.
Qed.

End SparedRest.

(** X7. Binding a MAC address spares the other clients. On a device whose
    ids are distinct, every record that was there and is no placeholder is
    still there, unchanged, after [add_new_client], and after
    [update_client_mac] when it is not the record edited; whatever the
    outcome, the leases, the ARP table and the scheduler stay as they are. *)
Theorem mac_binding_spares_other_clients (client_name mac_or_ip : string)
    (self : MikrotikManager) :
  NoDup (map b_id (ip_binding (api self))) ->
  (forall b,
     In b (ip_binding (api self)) ->
     is_unauthorized_user (get (b_comment b) "") = false ->
     In b (ip_binding (api (snd (add_new_client client_name mac_or_ip self)))))
  /\ (forall eb b,
        find_client_in_ip_bindings client_name self = Some eb ->
        In b (ip_binding (api self)) ->
        b_id b <> b_id eb ->
        is_unauthorized_user (get (b_comment b) "") = false ->
        In b (ip_binding
                (api (snd (update_client_mac client_name mac_or_ip self)))))
  /\ same_but_bindings (api self)
       (api (snd (add_new_client client_name mac_or_ip self)))
  /\ same_but_bindings (api self)
       (api (snd (update_client_mac client_name mac_or_ip self))).
Proof.
  intros Hnd. split; [| split; [| split]].
  - intros b. apply add_new_client_spares. exact Hnd.
  - intros eb b. apply update_client_mac_spares. exact Hnd.
  - apply add_new_client_frame.
  - apply update_client_mac_frame.
Qed.

Lemma mac_binding_spares_other_clients_witness :
  In Sample.alice
    (ip_binding
       (api (snd (add_new_client "carol" "AA:BB:CC:DD:EE:03" Sample.office))))
  /\ In Sample.alice
       (ip_binding
          (api (snd (update_client_mac "bob" "AA:BB:CC:DD:EE:03"
                       Sample.office)))).
Proof.
  assert (Hnd : NoDup (map b_id (ip_binding (api Sample.office)))).
  { repeat constructor; cbn; intuition discriminate. }
  split.
  - apply (proj1 (mac_binding_spares_other_clients
                    "carol" "AA:BB:CC:DD:EE:03" Sample.office Hnd)).
    + right. left. reflexivity.
    + reflexivity.
  - apply (proj1 (proj2 (mac_binding_spares_other_clients
                           "bob" "AA:BB:CC:DD:EE:03" Sample.office Hnd))
             Sample.bob).
    + reflexivity.
    + right. left. reflexivity.
    + discriminate.
    + reflexivity.
Defined.
(* ===================================================================== *)
(** * Resolving an IP address, and the outcomes of the operations *)
(* ===================================================================== *)

Section Resolve.

Variables (ip_address : string) (self : MikrotikManager).

Lemma lease_matches_mac (e : Lease) :
  lease_matches ip_address e = true ->
  get (l_address e) "" = ip_address
  /\ get (l_mac_address e) "" <> ""
  /\ l_mac_address e = Some (get (l_mac_address e) "").
Proof.
  unfold lease_matches. intros H. apply andb_prop in H as [H1 H2].
  apply String.eqb_eq in H1. split; [exact H1 |].
  destruct (l_mac_address e) as [m|]; cbn [get] in *; [| discriminate].
  split; [| reflexivity]. intros ->. discriminate.
Qed.

End Resolve.

(** X8. [find_mac_by_ip]. An address it returns is not empty and is the
    one of an entry for that IP in the leases or in the ARP table; it
    returns nothing exactly when neither has an entry for the IP with a
    MAC address; and the first such lease is the answer, whatever the ARP
    table holds. *)
Theorem find_mac_by_ip_prefers_leases (ip_address : string)
    (self : MikrotikManager) :
  (forall m,
     find_mac_by_ip ip_address self = Some m ->
     m <> ""
     /\ exists e,
          (In e (dhcp_lease (api self)) \/ In e (ip_arp (api self)))
          /\ get (l_address e) "" = ip_address
          /\ l_mac_address e = Some m)
  /\ (find_mac_by_ip ip_address self = None
      <-> forall e,
            In e (dhcp_lease (api self)) \/ In e (ip_arp (api self)) ->
            lease_matches ip_address e = false)
  /\ (forall front e back,
        dhcp_lease (api self) = (front ++ e :: back)%list ->
        (forall x, In x front -> lease_matches ip_address x = false) ->
        lease_matches ip_address e = true ->
        find_mac_by_ip ip_address self = Some (get (l_mac_address e) "")).
Proof.
  unfold find_mac_by_ip, get_dhcp_leases. split; [| split].
  - intros m.
    destruct (find _ (dhcp_lease (api self))) as [e|] eqn:H1.
    + intros [= <-]. apply find_some in H1 as [Hin Hm].
      destruct (lease_matches_mac _ _ Hm) as (Ha & Hne & Hmac).
      split; [exact Hne |]. exists e. auto.
    + destruct (find _ (ip_arp (api self))) as [e|] eqn:H2; [| discriminate].
      intros [= <-]. apply find_some in H2 as [Hin Hm].
      destruct (lease_matches_mac _ _ Hm) as (Ha & Hne & Hmac).
      split; [exact Hne |]. exists e. auto.
  - split.
    + destruct (find _ (dhcp_lease (api self))) as [e|] eqn:H1; [discriminate |].
      destruct (find _ (ip_arp (api self))) as [e|] eqn:H2; [discriminate |].
      intros _ e [Hin|Hin]; [exact (find_none _ _ H1 e Hin) |].
      exact (find_none _ _ H2 e Hin).
    + intros Hno.
      destruct (find _ (dhcp_lease (api self))) as [e|] eqn:H1.
      { apply find_some in H1 as [Hin Hm].
        rewrite (Hno e (or_introl Hin)) in Hm. discriminate. }
      destruct (find _ (ip_arp (api self))) as [e|] eqn:H2; [| reflexivity].
      apply find_some in H2 as [Hin Hm].
      rewrite (Hno e (or_intror Hin)) in Hm. discriminate.
  - intros front e back Hl Hfront He. rewrite Hl, find_append.
    destruct (find _ front) as [x|] eqn:Hf.
    + apply find_some in Hf as [Hin Hx]. rewrite (Hfront x Hin) in Hx.
      discriminate.
    + cbn [find]. rewrite He. reflexivity.
Qed.

Lemma find_mac_by_ip_prefers_leases_witness :
  find_mac_by_ip "10.0.0.7" Lab.manager = Some "AA:BB:CC:DD:EE:0A".
Proof.
  apply (proj2 (proj2 (find_mac_by_ip_prefers_leases "10.0.0.7" Lab.manager))
           [Lab.pending] Lab.lease []).
  - reflexivity.
  - intros x [<-|[]]. reflexivity.
  - reflexivity.
Defined.

Section Outcomes.

Variables (client_name text : string) (self : MikrotikManager).

Lemma set_mac_outcome (eb : Binding) (mac_address : string)
    (s : MikrotikManager) :
  named_outcome ["Wrong-MAC"] (fst (set_mac eb mac_address s)).
Proof.
  unfold set_mac.
  destruct (has_binding (b_id eb) (ip_binding (api s)));
    [left; reflexivity | right].
  eexists. split; [reflexivity | left; reflexivity].
Qed.

Lemma set_comment_outcome (eb : Binding) (c : option string)
    (s : MikrotikManager) :
  named_outcome ["Update-Failed"] (fst (set_comment eb c s)).
Proof.
  unfold set_comment. destruct c as [c|].
  - destruct (has_binding (b_id eb) (ip_binding (api s)));
      [left; reflexivity | right].
    eexists. split; [reflexivity | left; reflexivity].
  - right. eexists. split; [reflexivity | left; reflexivity].
Qed.

Lemma named_outcome_more (l1 l2 : list string)
    (o : outcome (bool * option string)) :
  incl l1 l2 -> named_outcome l1 o -> named_outcome l2 o.
Proof.
  intros Hincl [H|(label & H & Hin)]; [left; exact H | right].
  exists label. split; [exact H | apply Hincl; exact Hin].
Qed.

Lemma add_new_client_outcome :
  named_outcome ["Already-Exists"; "IP-Not-Found"; "Delete-Failed"; "Wrong-MAC"]
    (fst (add_new_client client_name text self)).
Proof.
  destruct (find_client_in_ip_bindings client_name self) as [known|] eqn:Hf.
  { rewrite (add_new_client_known _ _ _ _ Hf). right.
    eexists. split; [reflexivity | cbn; auto]. }
  destruct (resolved_mac text self) as [mac_address|] eqn:Hr.
  2: { rewrite (add_new_client_unresolved _ _ _ Hr Hf). right.
       eexists. split; [reflexivity | cbn; auto]. }
  rewrite (add_new_client_run _ _ _ _ Hr Hf).
  destruct (find_mac_in_ip_bindings mac_address self) as [emb|];
    [| left; reflexivity].
  destruct (is_unauthorized_user (get (b_comment emb) ""));
    [left; reflexivity | right].
  eexists. split; [reflexivity | cbn; auto].
Qed.

Lemma update_client_mac_outcome :
  named_outcome
    ["Client-Not-Found"; "IP-Not-Found"; "Delete-Failed"; "Already-Exists";
     "Wrong-MAC"]
    (fst (update_client_mac client_name text self)).
Proof.
  destruct (find_client_in_ip_bindings client_name self) as [eb|] eqn:Hf.
  2: { rewrite (update_client_mac_unknown _ _ _ Hf). right.
       eexists. split; [reflexivity | cbn; auto]. }
  destruct (resolved_mac text self) as [mac_address|] eqn:Hr.
  2: { rewrite (update_client_mac_unresolved _ _ _ Hr _ Hf). right.
       eexists. split; [reflexivity | cbn; auto]. }
  rewrite (update_client_mac_run _ _ _ _ Hr _ Hf).
  assert (Hset : forall s,
    named_outcome
      ["Client-Not-Found"; "IP-Not-Found"; "Delete-Failed"; "Already-Exists";
       "Wrong-MAC"]
      (fst (set_mac eb mac_address s))).
  { intros s. eapply named_outcome_more; [| apply set_mac_outcome].
    intros x [<-|[]]. cbn. auto 6. }
  destruct (find_mac_in_ip_bindings mac_address self) as [emb|];
    [| apply Hset].
  destruct (negb (b_id emb =? b_id eb)%N); [| apply Hset].
  destruct (is_unauthorized_user (get (b_comment emb) ""));
    [apply Hset | right].
  eexists. split; [reflexivity | cbn; auto 6].
Qed.

Lemma update_client_name_outcome :
  named_outcome ["Client-Not-Found"; "No-Comment"; "Update-Failed"]
    (fst (update_client_name client_name text self)).
Proof.
  destruct (find_client_in_ip_bindings client_name self) as [eb|] eqn:Hf.
  2: { rewrite (update_client_name_unknown _ _ _ Hf). right.
       eexists. split; [reflexivity | cbn; auto]. }
  rewrite (update_client_name_run _ _ _ Hf).
  destruct (negb (truthy (get (b_comment eb) ""))).
  { right. eexists. split; [reflexivity | cbn; auto]. }
  eapply named_outcome_more; [| apply set_comment_outcome].
  intros x [<-|[]]. cbn. auto.
Qed.

Lemma update_client_phone_outcome :
  named_outcome ["Client-Not-Found"; "No-Comment"; "Update-Failed"]
    (fst (update_client_phone client_name text self)).
Proof.
  destruct (find_client_in_ip_bindings client_name self) as [eb|] eqn:Hf.
  2: { rewrite (update_client_phone_unknown _ _ _ Hf). right.
       eexists. split; [reflexivity | cbn; auto]. }
  rewrite (update_client_phone_run _ _ _ Hf).
  destruct (negb (truthy (get (b_comment eb) ""))).
  { right. eexists. split; [reflexivity | cbn; auto]. }
  eapply named_outcome_more; [| apply set_comment_outcome].
  intros x [<-|[]]. cbn. auto.
Qed.

End Outcomes.

(** X9. The four operations that return a pair return, on every input and
    in every state, either success with no label or failure with a label
    of their own short list; none of them raises, and none fails without a
    label. *)
Theorem operations_name_their_failure (client_name text : string)
    (self : MikrotikManager) :
  named_outcome ["Already-Exists"; "IP-Not-Found"; "Delete-Failed"; "Wrong-MAC"]
    (fst (add_new_client client_name text self))
  /\ named_outcome
       ["Client-Not-Found"; "IP-Not-Found"; "Delete-Failed"; "Already-Exists";
        "Wrong-MAC"]
       (fst (update_client_mac client_name text self))
  /\ named_outcome ["Client-Not-Found"; "No-Comment"; "Update-Failed"]
       (fst (update_client_name client_name text self))
  /\ named_outcome ["Client-Not-Found"; "No-Comment"; "Update-Failed"]
       (fst (update_client_phone client_name text self)).
Proof.
  split; [apply add_new_client_outcome |].
  split; [apply update_client_mac_outcome |].
  split; [apply update_client_name_outcome | apply update_client_phone_outcome].
Qed.
(* ===================================================================== *)
(** * What a scheduled block leaves in the scheduler *)
(* ===================================================================== *)

Section Jobs.

Lemma found_job_is_there (p : Job -> bool) (l : list Job) (job : Job) :
  find p l = Some job -> has_job (j_id job) l = true.
Proof.
  intros H. apply find_some in H as [H _].
  unfold has_job. apply existsb_exists. exists job.
  split; [exact H | apply N.eqb_refl].
Qed.

Lemma le_fold_max (ids : list N) (i : N) :
  In i ids -> (i <= fold_right N.max 0 ids)%N.
Proof.
  induction ids as [|x ids IH]; cbn [In fold_right]; [intros [] |].
  intros [->|H]; [lia |]. specialize (IH H). lia.
Qed.

(** The id given to a new record is the id of no record. *)
Lemma fresh_id_is_fresh (ids : list N) : ~ In (fresh_id ids) ids.
Proof.
  intros H. apply le_fold_max in H. unfold fresh_id in H. lia.
Qed.

Variables (client_name : string) (self : MikrotikManager).

Lemma delete_existing_schedule_run :
  delete_existing_schedule client_name self
  = match find_existing_schedule client_name self with
    | Some old =>
        (Value true,
         {| api := with_jobs (without_job (j_id old) (scheduler (api self)))
                     (api self);
            clients_cache := clients_cache self |})
    | None => (Value false, self)
    end.
Proof.
  unfold delete_existing_schedule. run_eff.
  destruct (find_existing_schedule client_name self) as [old|] eqn:Hf;
    [| reflexivity].
  unfold job_remove.
  rewrite (found_job_is_there _ _ _ Hf). reflexivity.
Qed.

(** What [schedule_block_client] does with a date it accepts. *)
Lemma schedule_block_client_run (today : date)
    (mac_address block_date : string) :
  is_date_in_future today block_date = true ->
  exists day month year m month_name,
    split "-" block_date = [day; month; year]
    /\ int month = Some m
    /\ getitem month_names (m - 1) = Some month_name
    /\ schedule_block_client today client_name mac_address block_date self
       = (Value true,
          {| api :=
               with_jobs
                 (room_for client_name self
                  ++ [block_job client_name mac_address
                        (month_name ++ "/" ++ zfill 2 day ++ "/20"
                         ++ last_chars 2 year)
                        (room_for client_name self)])%list
                 (api self);
             clients_cache := clients_cache self |}).
Proof.
  intros Hfut.
  destruct (future_date_shape _ _ Hfut) as (day & month & year & m & Hs & Hm & Hr).
  destruct (month_name_exists m Hr) as [month_name Hname].
  exists day, month, year, m, month_name.
  split; [exact Hs |]. split; [exact Hm |]. split; [exact Hname |].
  unfold schedule_block_client. rewrite Hfut. cbn [negb]. rewrite Hs.
  unfold room_for.
  unfold try_except, bind at 1, gets. cbn beta iota.
  destruct (find_existing_schedule client_name self) as [old|] eqn:Hf.
  - unfold bind. cbn beta. rewrite delete_existing_schedule_run, Hf.
    run_eff. rewrite (int_zfill _ _ Hm). cbn beta iota. rewrite Hname.
    reflexivity.
  - run_eff. rewrite (int_zfill _ _ Hm). cbn beta iota. rewrite Hname.
    destruct (api self). reflexivity.
Qed.

End Jobs.

Section Room.

Variables (client_name : string) (self : MikrotikManager).

Lemma nodup_snoc {A : Type} (l : list A) (x : A) :
  NoDup l -> ~ In x l -> NoDup (l ++ [x])%list.
Proof.
  induction l as [|a l IH]; cbn [app]; intros Hnd Hx.
  - constructor; [intros [] | constructor].
  - inversion Hnd as [|? ? Ha Hl]; subst. constructor.
    + intros Hin. apply in_app_or in Hin as [Hin|[->|[]]]; [contradiction |].
      apply Hx. left. reflexivity.
    + apply IH; [exact Hl |]. intros Hin. apply Hx. right. exact Hin.
Qed.

(** Removing an item keeps distinct what was distinct. *)
Lemma without_job_distinct {B : Type} (key : Job -> B) (i : N)
    (jobs : list Job) :
  NoDup (map key jobs) -> NoDup (map key (without_job i jobs)).
Proof.
  unfold without_job.
  induction jobs as [|job jobs IH]; cbn [map filter]; intros Hnd;
    [constructor |].
  inversion Hnd as [|? ? Hjob Hjobs]; subst.
  destruct (negb (j_id job =? i)%N); cbn [map]; [| exact (IH Hjobs)].
  constructor; [| exact (IH Hjobs)].
  intros Hin. apply Hjob. apply in_map_iff in Hin as (x & E & Hx).
  apply filter_In in Hx as [Hx _]. apply in_map_iff. exists x. auto.
Qed.

Lemma unique_job_id (l : list Job) (a b : Job) :
  NoDup (map j_id l) -> In a l -> In b l -> j_id a = j_id b -> a = b.
Proof.
  induction l as [|x l IH]; cbn [map In]; [intros _ [] |].
  intros Hnd Ha Hb E. inversion Hnd as [|? ? Hx Hl]; subst.
  destruct Ha as [->|Ha], Hb as [->|Hb].
  - reflexivity.
  - exfalso. apply Hx. rewrite E. apply in_map. exact Hb.
  - exfalso. apply Hx. rewrite <- E. apply in_map. exact Ha.
  - apply IH; assumption.
Qed.

Lemma room_is_part (j : Job) :
  In j (room_for client_name self) -> In j (scheduler (api self)).
Proof.
  unfold room_for, without_job.
  destruct (find_existing_schedule client_name self); [| trivial].
  intros H. apply filter_In in H as [H _]. exact H.
Qed.

Lemma room_ids_distinct :
  NoDup (map j_id (scheduler (api self))) ->
  NoDup (map j_id (room_for client_name self)).
Proof.
  unfold room_for.
  destruct (find_existing_schedule client_name self); [| trivial].
  apply without_job_distinct.
Qed.

Lemma room_names_distinct :
  NoDup (map j_name (scheduler (api self))) ->
  NoDup (map j_name (room_for client_name self)).
Proof.
  unfold room_for.
  destruct (find_existing_schedule client_name self); [| trivial].
  apply without_job_distinct.
Qed.

Lemma unique_job_name (l : list Job) (a b : Job) :
  NoDup (map j_name l) -> In a l -> In b l -> j_name a = j_name b -> a = b.
Proof.
  induction l as [|x l IH]; cbn [map In]; [intros _ [] |].
  intros Hnd Ha Hb E. inversion Hnd as [|? ? Hx Hl]; subst.
  destruct Ha as [->|Ha], Hb as [->|Hb].
  - reflexivity.
  - exfalso. apply Hx. rewrite E. apply in_map. exact Hb.
  - exfalso. apply Hx. rewrite <- E. apply in_map. exact Ha.
  - apply IH; assumption.
Qed.

(** No entry of the client's name is left where room has been made. *)
Lemma room_is_free (j : Job) :
  NoDup (map j_name (scheduler (api self))) ->
  In j (room_for client_name self) -> j_name j <> client_name.
Proof.
  unfold room_for, without_job, find_existing_schedule. intros Hnd.
  destruct (find _ (scheduler (api self))) as [old|] eqn:Hf.
  - intros Hin E. apply filter_In in Hin as [Hin Hid].
    apply find_some in Hf as [Hold Hname]. apply String.eqb_eq in Hname.
    assert (j = old)
      by (apply (unique_job_name _ _ _ Hnd Hin Hold); congruence).
    subst j. rewrite N.eqb_refl in Hid. discriminate.
  - intros Hin E. pose proof (find_none _ _ Hf j Hin) as Hno.
    cbn beta in Hno. rewrite E, String.eqb_refl in Hno. discriminate.
Qed.

(** The entries of other names are all kept. *)
Lemma room_keeps_others (j : Job) :
  NoDup (map j_id (scheduler (api self))) ->
  In j (scheduler (api self)) -> j_name j <> client_name ->
  In j (room_for client_name self).
Proof.
  unfold room_for, without_job, find_existing_schedule. intros Hnd Hin Hne.
  destruct (find _ (scheduler (api self))) as [old|] eqn:Hf; [| exact Hin].
  apply filter_In. split; [exact Hin |].
  destruct (N.eqb_spec (j_id j) (j_id old)) as [E|]; [| reflexivity].
  apply find_some in Hf as [Hold Hname]. apply String.eqb_eq in Hname.
  rewrite (unique_job_id _ _ _ Hnd Hin Hold E) in Hne. contradiction.
Qed.

End Room.

(** X10. What an accepted block leaves on the device. For an ASCII date
    that [is_date_in_future] accepts, the text has three pieces, day, month and
    year, and the scheduler ends up being what it was, the entry found
    under the client's name removed, followed by one new entry: named
    after the client, due at 23:59:00 on the date written as the month's
    English short name, the day padded to two characters, and [20]
    followed by the last two characters of the year, with the blocking
    script for the MAC address. The bindings and the directory are not
    touched. *)
Theorem accepted_block_is_scheduled (today : date)
    (client_name mac_address block_date : string) (self : MikrotikManager) :
  all_chars is_ascii block_date = true ->
  is_date_in_future today block_date = true ->
  exists day month year m month_name,
    split "-" block_date = [day; month; year]
    /\ int month = Some m
    /\ getitem month_names (m - 1) = Some month_name
    /\ scheduler
         (api (snd (schedule_block_client today client_name mac_address
                      block_date self)))
       = (room_for client_name self
          ++ [block_job client_name mac_address
                (month_name ++ "/" ++ zfill 2 day ++ "/20"
                 ++ last_chars 2 year)
                (room_for client_name self)])%list
    /\ ip_binding
         (api (snd (schedule_block_client today client_name mac_address
                      block_date self)))
       = ip_binding (api self)
    /\ clients_cache
         (snd (schedule_block_client today client_name mac_address
                 block_date self))
       = clients_cache self.
Proof.
  intros _ Hfut.
  destruct (schedule_block_client_run client_name self today mac_address
              block_date Hfut)
    as (day & month & year & m & month_name & Hs & Hm & Hname & ->).
  exists day, month, year, m, month_name. repeat split; assumption.
Qed.

Lemma accepted_block_is_scheduled_witness :
  map j_start_date
    (scheduler
       (api (snd (schedule_block_client Sample.new_year "bob"
                    "AA:BB:CC:DD:EE:01" "5-6-2126" Sample.office))))
  = ["Jun/05/2026"].
Proof.
  destruct (accepted_block_is_scheduled Sample.new_year "bob"
              "AA:BB:CC:DD:EE:01" "5-6-2126" Sample.office eq_refl eq_refl)
    as (day & month & year & m & month_name & Hs & Hm & Hname & -> & _).
  injection Hs as <- <- <-.
  injection Hm as <-.
  injection Hname as <-.
  reflexivity.
Defined.

(** X11. Scheduling again replaces. On a device whose scheduler entries
    have distinct ids and distinct names, an accepted block for an ASCII
    date leaves them
    distinct, leaves exactly one entry of the client's name, the new one,
    and keeps every entry of another name, adding none. *)
Theorem rescheduling_replaces (today : date)
    (client_name mac_address block_date : string) (self : MikrotikManager) :
  all_chars is_ascii block_date = true ->
  is_date_in_future today block_date = true ->
  NoDup (map j_id (scheduler (api self))) ->
  NoDup (map j_name (scheduler (api self))) ->
  NoDup (map j_id
           (scheduler
              (api (snd (schedule_block_client today client_name mac_address
                           block_date self)))))
  /\ NoDup (map j_name
              (scheduler
                 (api (snd (schedule_block_client today client_name
                              mac_address block_date self)))))
  /\ (exists job,
        find_existing_schedule client_name
          (snd (schedule_block_client today client_name mac_address
                  block_date self)) = Some job
        /\ j_on_event job = script_content mac_address
        /\ forall other,
             In other
               (scheduler
                  (api (snd (schedule_block_client today client_name
                               mac_address block_date self)))) ->
             j_name other = client_name -> other = job)
  /\ (forall j,
        j_name j <> client_name ->
        (In j (scheduler (api self))
         <-> In j
               (scheduler
                  (api (snd (schedule_block_client today client_name
                               mac_address block_date self)))))).
Proof.
  intros _ Hfut Hids Hnames.
  destruct (schedule_block_client_run client_name self today mac_address
              block_date Hfut)
    as (day & month & year & m & month_name & _ & _ & _ & ->).
  cbn [snd api with_jobs scheduler].
  set (start_date := month_name ++ "/" ++ zfill 2 day ++ "/20"
                     ++ last_chars 2 year).
  set (room := room_for client_name self).
  assert (Hfree : forall j, In j room -> j_name j <> client_name)
    by (intros j; apply room_is_free; exact Hnames).
  split; [| split; [| split]].
  - rewrite map_app. apply nodup_snoc.
    + apply room_ids_distinct. exact Hids.
    + apply fresh_id_is_fresh.
  - rewrite map_app. apply nodup_snoc.
    + apply room_names_distinct. exact Hnames.
    + cbn [block_job j_name]. intros Hin.
      apply in_map_iff in Hin as (j & E & Hj). exact (Hfree j Hj E).
  - exists (block_job client_name mac_address start_date room).
    split; [| split].
    + unfold find_existing_schedule. cbn [api with_jobs scheduler].
      rewrite find_append.
      destruct (find _ room) as [j|] eqn:Hf.
      * apply find_some in Hf as [Hj E]. apply String.eqb_eq in E.
        exfalso. exact (Hfree j Hj E).
      * cbn [find block_job j_name]. rewrite String.eqb_refl. reflexivity.
    + reflexivity.
    + intros other Hin E. apply in_app_or in Hin as [Hin|[<-|[]]].
      * exfalso. exact (Hfree other Hin E).
      * reflexivity.
  - intros j Hne. split.
    + intros Hin. apply in_or_app. left.
      apply room_keeps_others; assumption.
    + intros Hin. apply in_app_or in Hin as [Hin|[<-|[]]].
      * apply (room_is_part client_name self). exact Hin.
      * exfalso. apply Hne. reflexivity.
Qed.

Lemma rescheduling_replaces_witness :
  NoDup (map j_name
           (scheduler
              (api (snd (schedule_block_client Sample.new_year "bob"
                           "AA:BB:CC:DD:EE:01" "5-6-2026" Lab.manager)))))
  /\ In Lab.backup_job
       (scheduler
          (api (snd (schedule_block_client Sample.new_year "bob"
                       "AA:BB:CC:DD:EE:01" "5-6-2026" Lab.manager)))).
Proof.
  assert (Hids : NoDup (map j_id (scheduler (api Lab.manager)))).
  { repeat constructor; cbn; intuition discriminate. }
  assert (Hnames : NoDup (map j_name (scheduler (api Lab.manager)))).
  { repeat constructor; cbn; intuition discriminate. }
  pose proof (rescheduling_replaces Sample.new_year "bob" "AA:BB:CC:DD:EE:01"
                "5-6-2026" Lab.manager eq_refl eq_refl Hids Hnames)
    as (_ & H2 & _ & H4).
  split; [exact H2 |].
  apply (H4 Lab.backup_job); [discriminate |].
  right. left. reflexivity.
Defined.
(* ===================================================================== *)
(** * What [process_client] sends to the sheet *)
(* ===================================================================== *)

Section Sends.

Context {A B : Type}.

Lemma sends_ret (a : A) (Q : list Update -> Prop) :
  Q [] -> sends (ret a) Q.
Proof.
  intros HQ e. exists []. cbn. rewrite app_nil_r. split; [reflexivity | exact HQ].
Qed.

Lemma sends_raise (Q : list Update -> Prop) :
  Q [] -> sends (@raise Env A) Q.
Proof.
  intros HQ e. exists []. cbn. rewrite app_nil_r. split; [reflexivity | exact HQ].
Qed.

Lemma sends_more (m : M Env A) (Q Q' : list Update -> Prop) :
  sends m Q -> (forall l, Q l -> Q' l) -> sends m Q'.
Proof.
  intros Hm HQ e. destruct (Hm e) as (news & Hs & Hn).
  exists news. split; [exact Hs | exact (HQ _ Hn)].
Qed.

Lemma sends_bind (m : M Env A) (k : A -> M Env B)
    (Q1 Q2 Q : list Update -> Prop) :
  sends m Q1 ->
  (forall a, sends (k a) Q2) ->
  (forall l1, Q1 l1 -> Q l1) ->
  (forall l1 l2, Q1 l1 -> Q2 l2 -> Q (l1 ++ l2)%list) ->
  sends (bind m k) Q.
Proof.
  intros Hm Hk Hraised Hboth e. unfold bind.
  destruct (Hm e) as (l1 & Hs1 & H1).
  destruct (m e) as [[a|] e1]; cbn [snd] in Hs1.
  - destruct (Hk a e1) as (l2 & Hs2 & H2).
    exists (l1 ++ l2)%list. rewrite Hs2, Hs1, app_assoc.
    split; [reflexivity | exact (Hboth _ _ H1 H2)].
  - exists l1. split; [exact Hs1 | exact (Hraised _ H1)].
Qed.

(** After a step that sends nothing and whose values satisfy [P]. *)
Lemma sends_after_quiet (m : M Env A) (k : A -> M Env B) (P : A -> Prop)
    (Q : list Update -> Prop) :
  quiet m ->
  (forall e a, fst (m e) = Value a -> P a) ->
  Q [] ->
  (forall a, P a -> sends (k a) Q) ->
  sends (bind m k) Q.
Proof.
  intros Hquiet HP Hnil Hk e. unfold bind.
  pose proof (Hquiet e) as Hs1. pose proof (HP e) as Hv.
  destruct (m e) as [[a|] e1]; cbn [fst snd] in *.
  - destruct (Hk a (Hv a eq_refl) e1) as (l2 & Hs2 & H2).
    exists l2. rewrite Hs2, Hs1. split; [reflexivity | exact H2].
  - exists []. rewrite app_nil_r. split; [exact Hs1 | exact Hnil].
Qed.

Lemma sends_try_except (body handler : M Env A)
    (Q1 Q2 Q : list Update -> Prop) :
  sends body Q1 ->
  sends handler Q2 ->
  (forall l1, Q1 l1 -> Q l1) ->
  (forall l1 l2, Q1 l1 -> Q2 l2 -> Q (l1 ++ l2)%list) ->
  sends (try_except body handler) Q.
Proof.
  intros Hb Hh Hvalue Hboth e. unfold try_except.
  destruct (Hb e) as (l1 & Hs1 & H1).
  destruct (body e) as [[a|] e1]; cbn [snd] in Hs1.
  - exists l1. split; [exact Hs1 | exact (Hvalue _ H1)].
  - destruct (Hh e1) as (l2 & Hs2 & H2).
    exists (l1 ++ l2)%list. rewrite Hs2, Hs1, app_assoc.
    split; [reflexivity | exact (Hboth _ _ H1 H2)].
Qed.

End Sends.

Section Steps.

Context {A : Type}.

Lemma on_manager_fst (m : M MikrotikManager A) (e : Env) :
  fst (on_manager m e) = fst (m (mikrotik_manager e)).
Proof.
  unfold on_manager, zoom. destruct (m (mikrotik_manager e)). reflexivity.
Qed.

Lemma on_manager_snd (m : M MikrotikManager A) (e : Env) :
  snd (on_manager m e)
  = {| service := service e;
       mikrotik_manager := snd (m (mikrotik_manager e)) |}.
Proof.
  unfold on_manager, zoom. destruct (m (mikrotik_manager e)). reflexivity.
Qed.

Lemma on_manager_quiet (m : M MikrotikManager A) : quiet (on_manager m).
Proof. intros e. rewrite on_manager_snd. reflexivity. Qed.

Lemma must_quiet (o : option A) : quiet (@must Env A o).
Proof. intros e. destruct o; reflexivity. Qed.

Lemma must_value (o : option A) (e : Env) (a : A) :
  fst (@must Env A o e) = Value a -> o = Some a.
Proof. destruct o; cbn; [intros [= ->]; reflexivity | discriminate]. Qed.

End Steps.

Section RowSends.

Variables (status : string) (building_info : Building) (row_index : nat).

Lemma update_sheet_status_run (v : option string) (e : Env) :
  update_sheet_status row_index v (status_col building_info) e
  = (Value tt,
     {| service :=
          (service e
           ++ [ {| range_name := cell_range (status_col building_info) row_index;
                   cell_value := v |} ])%list;
        mikrotik_manager := mikrotik_manager e |}).
Proof. reflexivity. Qed.

Lemma sends_status (v : string) (Q : list Update -> Prop) :
  Q [status_update building_info row_index v] ->
  sends (update_sheet_status row_index (Some v) (status_col building_info)) Q.
Proof.
  intros HQ e. rewrite update_sheet_status_run. cbn [snd service].
  eexists. split; [reflexivity | exact HQ].
Qed.

Lemma sends_aliased_label (Q : list Update -> Prop) :
  Q [] ->
  Q [status_update building_info row_index "Not Pay"] ->
  (forall v, nth_error (split "=" status) 1 = Some v ->
             Q [status_update building_info row_index v]) ->
  sends (write_label_aliased status row_index building_info) Q.
Proof.
  intros Hnil Hnp Hlabel. unfold write_label_aliased.
  apply (sends_after_quiet _ _
           (fun v => nth_error (split "=" status) 1 = Some v)).
  - apply must_quiet.
  - intros e a. apply must_value.
  - exact Hnil.
  - intros v Hv. destruct (upper v =? "NOT-PAY").
    + apply sends_status. exact Hnp.
    + apply sends_status. exact (Hlabel v Hv).
Qed.

Lemma row_updates_nil : row_updates status building_info row_index [].
Proof. left. reflexivity. Qed.

Lemma row_updates_not_pay :
  row_updates status building_info row_index
    [status_update building_info row_index "Not Pay"].
Proof. right. left. eexists. split; [reflexivity | left; reflexivity]. Qed.

Lemma row_updates_label (v : string) :
  nth_error (split "=" status) 1 = Some v ->
  row_updates status building_info row_index
    [status_update building_info row_index v].
Proof.
  intros H. right. left. eexists. split; [reflexivity | right; left; exact H].
Qed.

Lemma row_updates_outcome (v : string) :
  In v outcome_labels ->
  row_updates status building_info row_index
    [status_update building_info row_index v].
Proof.
  intros H. right. left. eexists. split; [reflexivity | right; right; exact H].
Qed.

(** The end of a [RE=NAME] row that succeeds: the status cell, the client
    cell and the notes cell. *)
Lemma sends_renamed_row (new_name : string) :
  sends
    (update_sheet_status row_index (Some "Not Pay") (status_col building_info) ;;
     try_except
       (send_update
          {| range_name := cell_range (client_col building_info) row_index;
             cell_value := Some new_name |})
       (ret tt) ;;
     try_except
       (phone <- on_manager (gets (get_client_phone new_name)) ;;
        send_update
          {| range_name := cell_range (notes_col building_info) row_index;
             cell_value := Some phone |})
       (ret tt))
    (row_updates status building_info row_index).
Proof.
  intros e. unfold bind, try_except, send_update, on_manager, zoom, gets.
  rewrite update_sheet_status_run. cbn [snd service mikrotik_manager].
  eexists. split.
  - rewrite <- !app_assoc. cbn [app]. reflexivity.
  - right. right. eexists. eexists. reflexivity.
Qed.

Lemma outcome_labels_cover (labels : list string)
    (o : outcome (bool * option string)) :
  forallb (fun l => existsb (String.eqb l) outcome_labels) labels = true ->
  named_outcome labels o -> named_outcome outcome_labels o.
Proof.
  intros Hall. apply named_outcome_more. intros x Hx.
  rewrite forallb_forall in Hall. specialize (Hall x Hx).
  apply existsb_exists in Hall as (y & Hy & E).
  apply String.eqb_eq in E. subst y. exact Hy.
Qed.

(** What follows an operation that returns a pair. *)
Lemma sends_after_operation {B : Type}
    (m : M MikrotikManager (bool * option string))
    (k : bool * option string -> M Env B) (Q : list Update -> Prop) :
  (forall s, named_outcome outcome_labels (fst (m s))) ->
  Q [] ->
  sends (k (true, None)) Q ->
  (forall label, In label outcome_labels -> sends (k (false, Some label)) Q) ->
  sends (bind (on_manager m) k) Q.
Proof.
  intros Hm Hnil Hok Hfail.
  apply (sends_after_quiet _ _
           (fun a => a = (true, None)
                     \/ exists label, a = (false, Some label)
                                       /\ In label outcome_labels)).
  - apply on_manager_quiet.
  - intros e a. rewrite on_manager_fst. intros Ha.
    destruct (Hm (mikrotik_manager e)) as [H|(label & H & Hin)];
      rewrite H in Ha; injection Ha as <-; [left; reflexivity | right].
    exists label. split; [reflexivity | exact Hin].
  - exact Hnil.
  - intros a [->|(label & -> & Hin)]; [exact Hok | exact (Hfail label Hin)].
Qed.

(** What follows a step on the manager whose value does not matter, and a
    lookup that may raise. *)
Lemma sends_after_manager {A B : Type} (m : M MikrotikManager A)
    (k : A -> M Env B) (Q : list Update -> Prop) :
  Q [] -> (forall a, sends (k a) Q) -> sends (bind (on_manager m) k) Q.
Proof.
  intros Hnil Hk.
  apply (sends_after_quiet _ _ (fun _ => True)); auto using on_manager_quiet.
Qed.

Lemma sends_after_must {A B : Type} (o : option A) (k : A -> M Env B)
    (Q : list Update -> Prop) :
  Q [] -> (forall a, o = Some a -> sends (k a) Q) ->
  sends (bind (must o) k) Q.
Proof.
  intros Hnil Hk.
  apply (sends_after_quiet _ _ (fun a => o = Some a)); auto using must_quiet.
  intros e a. apply must_value.
Qed.

End RowSends.

Section RowTheorem.

Variables (today : date) (client_name status : string)
  (building_info : Building) (row_index : nat) (values : list (list string)).

Lemma process_client_sends :
  sends (process_client today client_name status building_info row_index values)
    (row_updates status building_info row_index).
Proof.
  unfold process_client.
  destruct (negb (truthy client_name) || negb (truthy status));
    [apply sends_ret; apply row_updates_nil |].
  apply (sends_try_except _ _ (row_updates status building_info row_index)
           (fun l => l = [])).
  - repeat
      lazymatch goal with
        | |- sends (ret _) _ => apply sends_ret; apply row_updates_nil
        | |- sends (update_sheet_status _ (Some _) _ ;; _) _ =>
            apply sends_renamed_row
        | |- sends (update_sheet_status _ (Some "Not Pay") _) _ =>
            apply sends_status; apply row_updates_not_pay
        | |- sends (update_sheet_status _ (Some _) _) _ =>
            apply sends_status;
            first [ apply row_updates_label; assumption
                  | apply row_updates_outcome; first [assumption | cbn; tauto] ]
        | |- sends (write_label_aliased _ _ _) _ =>
            apply sends_aliased_label;
            [apply row_updates_nil | apply row_updates_not_pay
             | apply row_updates_label]
        | |- sends (bind (on_manager (add_new_client _ _)) _) _ =>
            apply sends_after_operation;
            [ intros; eapply outcome_labels_cover;
              [| apply add_new_client_outcome]; reflexivity
            | apply row_updates_nil | | intros ? ?]
        | |- sends (bind (on_manager (update_client_mac _ _)) _) _ =>
            apply sends_after_operation;
            [ intros; eapply outcome_labels_cover;
              [| apply update_client_mac_outcome]; reflexivity
            | apply row_updates_nil | | intros ? ?]
        | |- sends (bind (on_manager (update_client_name _ _)) _) _ =>
            apply sends_after_operation;
            [ intros; eapply outcome_labels_cover;
              [| apply update_client_name_outcome]; reflexivity
            | apply row_updates_nil | | intros ? ?]
        | |- sends (bind (on_manager (update_client_phone _ _)) _) _ =>
            apply sends_after_operation;
            [ intros; eapply outcome_labels_cover;
              [| apply update_client_phone_outcome]; reflexivity
            | apply row_updates_nil | | intros ? ?]
        | |- sends (bind (on_manager _) _) _ =>
            apply sends_after_manager; [apply row_updates_nil | intros ?]
        | |- sends (bind (must _) _) _ =>
            apply sends_after_must; [apply row_updates_nil | intros ? ?]
        | |- sends (if ?b then _ else _) _ => destruct b
        | |- sends (match ?x with _ => _ end) _ => destruct x
        end.
  - apply sends_ret. reflexivity.
  - trivial.
  - intros l1 l2 H ->. rewrite app_nil_r. exact H.
Qed.

Lemma process_client_returns (e : Env) :
  fst (process_client today client_name status building_info row_index values e)
  = Value tt.
Proof.
  unfold process_client.
  destruct (negb (truthy client_name) || negb (truthy status)); [reflexivity |].
  unfold try_except.
  match goal with |- fst (match ?b with _ => _ end) = _ => destruct b as [[[]|] ?] end;
    reflexivity.
Qed.

End RowTheorem.

(** X12. What a row sends. [process_client] never raises and takes back
    nothing that was sent; what it sends is nothing, or one value for the
    status cell of its row in its building's status column, or, for a
    client it renamed, [Not Pay] there followed by the new name in the
    client cell and the phone number in the notes cell of the same row.
    The value for a status cell sent alone is [Not Pay], the text after
    the first [=] of the status, or one of the fourteen outcome labels. *)
Theorem process_client_writes_its_row (today : date)
    (client_name status : string) (building_info : Building)
    (row_index : nat) (values : list (list string)) (e : Env) :
  fst (process_client today client_name status building_info row_index
         values e) = Value tt
  /\ exists news,
       service (snd (process_client today client_name status building_info
                       row_index values e))
       = (service e ++ news)%list
       /\ row_updates status building_info row_index news.
Proof.
  split; [apply process_client_returns | apply process_client_sends].
Qed.

Section Commands.

Variable u : string.

Lemma re_name_is_nothing_before :
  startswith u "RE=NAME" = true ->
  (u =? "CUT") = false /\ startswith u "LIMIT=" = false
  /\ (u =? "NOT PAY") = false /\ startswith u "NEW=" = false
  /\ startswith u "UPD-MAC=" = false /\ startswith u "ACTIVATE=" = false.
Proof.
  destruct u as [|c1 u1]; cbn [startswith]; [discriminate |].
  intros H. apply andb_prop in H as [H _]. apply Ascii.eqb_eq in H. subst c1.
  repeat split.
Qed.

Lemma re_number_is_nothing_before :
  startswith u "RE=NUMBER" = true ->
  (u =? "CUT") = false /\ startswith u "LIMIT=" = false
  /\ (u =? "NOT PAY") = false /\ startswith u "NEW=" = false
  /\ startswith u "UPD-MAC=" = false /\ startswith u "ACTIVATE=" = false
  /\ startswith u "RE=NAME" = false.
Proof.
  destruct u as [|c1 [|c2 [|c3 [|c4 [|c5 u5]]]]]; cbn [startswith];
    try discriminate;
    try (intros H; repeat (apply andb_prop in H as [_ H]); discriminate).
  intros H.
  apply andb_prop in H as [H1 H]. apply andb_prop in H as [H2 H].
  apply andb_prop in H as [H3 H]. apply andb_prop in H as [H4 H].
  apply andb_prop in H as [H5 _].
  apply Ascii.eqb_eq in H1, H2, H3, H4, H5. subst c1 c2 c3 c4 c5.
  repeat split.
Qed.

End Commands.

Lemma command_is_text (status prefix : string) :
  startswith (upper status) prefix = true -> truthy prefix = true ->
  truthy status = true.
Proof.
  intros H Hp. destruct status; [| reflexivity].
  destruct prefix; discriminate.
Qed.

(** X13. The statuses [process_sheet_data] does not pass on are those on
    which [process_client] would do nothing, and the outcome labels are
    among them: a row that holds one is left alone from then on. [Not Pay]
    is not: it is the command [NOT PAY]. *)
Theorem outcome_labels_are_no_commands :
  (forall today client_name status building_info row_index values e,
     is_command status = false ->
     process_client today client_name status building_info row_index values e
     = (Value tt, e))
  /\ Forall (fun v => is_command v = false) outcome_labels
  /\ is_command "Not Pay" = true.
Proof.
  split; [| split; [repeat constructor | reflexivity]].
  intros today client_name status building_info row_index values e H.
  unfold is_command in H.
  repeat (apply orb_false_elim in H as [H ?]).
  unfold process_client.
  destruct (negb (truthy client_name) || negb (truthy status));
    [reflexivity |].
  repeat match goal with E : _ = false |- _ => rewrite E; clear E end.
  reflexivity.
Qed.

Lemma outcome_labels_are_no_commands_witness :
  process_client Sample.new_year "bob" "Already-Exists" Sample.building 0
    [["bob"; "Already-Exists"; "AA:BB:CC:DD:EE:01"]] Sample.desk
  = (Value tt, Sample.desk).
Proof.
  apply (proj1 outcome_labels_are_no_commands). reflexivity.
Defined.

Section ShortRows.

Variables (today : date) (client_name status : string)
  (building_info : Building) (row_index : nat) (values : list (list string))
  (e : Env).

Hypothesis named_row : truthy client_name = true.

Lemma no_notes_cell_is_silent :
  cell values row_index (notes_col building_info) = None ->
  startswith (upper status) "LIMIT=" = true
  \/ startswith (upper status) "NEW=" = true
  \/ startswith (upper status) "UPD-MAC=" = true
  \/ startswith (upper status) "RE=NUMBER" = true ->
  process_client today client_name status building_info row_index values e
  = (Value tt, e).
Proof.
  intros Hcell Hcmd. unfold process_client. rewrite named_row.
  destruct Hcmd as [H|[H|[H|H]]].
  - rewrite (command_is_text _ _ H eq_refl).
    rewrite (limit_is_not_cut _ H), H. cbn [negb orb].
    unfold try_except, bind, must. rewrite Hcell. reflexivity.
  - rewrite (command_is_text _ _ H eq_refl).
    destruct (new_is_nothing_before _ H) as (H1 & H2 & H3).
    rewrite H1, H2, H3, H. cbn [negb orb].
    unfold try_except, bind, must. rewrite Hcell. reflexivity.
  - rewrite (command_is_text _ _ H eq_refl).
    destruct (upd_mac_is_nothing_before _ H) as (H1 & H2 & H3 & H4).
    rewrite H1, H2, H3, H4, H. cbn [negb orb].
    unfold try_except, bind, must. rewrite Hcell. reflexivity.
  - rewrite (command_is_text _ _ H eq_refl).
    destruct (re_number_is_nothing_before _ H)
      as (H1 & H2 & H3 & H4 & H5 & H6 & H7).
    rewrite H1, H2, H3, H4, H5, H6, H7, H. cbn [negb orb].
    unfold try_except, bind, must. rewrite Hcell. reflexivity.
Qed.

Lemma short_row_of_rename (row : list string) :
  startswith (upper status) "RE=NAME" = true ->
  nth_error values row_index = Some row ->
  nth_error row (notes_col building_info) = None ->
  process_client today client_name status building_info row_index values e
  = row_written e building_info row_index "NO-NOTES-COL" (mikrotik_manager e).
Proof.
  intros H Hrow Hshort. unfold process_client, row_written. rewrite named_row.
  rewrite (command_is_text _ _ H eq_refl).
  destruct (re_name_is_nothing_before _ H) as (H1 & H2 & H3 & H4 & H5 & H6).
  rewrite H1, H2, H3, H4, H5, H6, H. cbn [negb orb].
  unfold try_except, bind, must. rewrite Hrow.
  apply nth_error_None in Hshort. apply Nat.leb_le in Hshort.
  unfold ret at 1. cbn beta iota. rewrite Hshort. reflexivity.
Qed.

Lemma empty_notes_of_mac_row :
  cell values row_index (notes_col building_info) = Some "" ->
  startswith (upper status) "NEW=" = true
  \/ startswith (upper status) "UPD-MAC=" = true ->
  process_client today client_name status building_info row_index values e
  = row_written e building_info row_index "NO-MAC" (mikrotik_manager e).
Proof.
  intros Hcell Hcmd. unfold process_client, row_written. rewrite named_row.
  destruct Hcmd as [H|H].
  - rewrite (command_is_text _ _ H eq_refl).
    destruct (new_is_nothing_before _ H) as (H1 & H2 & H3).
    rewrite H1, H2, H3, H. cbn [negb orb].
    unfold try_except, bind, must. rewrite Hcell. reflexivity.
  - rewrite (command_is_text _ _ H eq_refl).
    destruct (upd_mac_is_nothing_before _ H) as (H1 & H2 & H3 & H4).
    rewrite H1, H2, H3, H4, H. cbn [negb orb].
    unfold try_except, bind, must. rewrite Hcell. reflexivity.
Qed.

Lemma refused_date_of_limit_row (block_date : string) :
  startswith (upper status) "LIMIT=" = true ->
  cell values row_index (notes_col building_info) = Some block_date ->
  limit_date_ok block_date = true ->
  truthy (get_client_mac client_name (mikrotik_manager e)) = true ->
  is_date_in_future today block_date = false ->
  process_client today client_name status building_info row_index values e
  = row_written e building_info row_index "Old-Date" (mikrotik_manager e).
Proof.
  intros H Hcell Hok Hmac Hpast. unfold process_client, row_written.
  rewrite named_row, (command_is_text _ _ H eq_refl).
  rewrite (limit_is_not_cut _ H), H. cbn [negb orb].
  assert (Hdate : truthy block_date = true)
    by (destruct block_date; [discriminate | reflexivity]).
  pose proof (schedule_block_client_follows_the_date today client_name
                (get_client_mac client_name (mikrotik_manager e)) block_date
                (mikrotik_manager e)) as [Hfst Hsnd].
  rewrite Hpast in Hfst. specialize (Hsnd Hpast).
  unfold on_manager, zoom. run_eff.
  rewrite Hcell. row_step. rewrite Hdate, Hok. row_step.
  rewrite Hmac. row_step.
  destruct (schedule_block_client today client_name
              (get_client_mac client_name (mikrotik_manager e)) block_date
              (mikrotik_manager e)) as [o s].
  cbn [fst snd] in Hfst, Hsnd. subst o s. row_step. reflexivity.
Qed.

End ShortRows.

(** X14. A notes cell that is missing is not a notes cell that is empty.
    When the row of a named client ends before the notes column, a
    [LIMIT=], [NEW=], [UPD-MAC=] or [RE=NUMBER] status changes nothing and
    sends nothing, while [RE=NAME] writes [NO-NOTES-COL]; when the notes
    cell is there and empty, [NEW=] and [UPD-MAC=] write [NO-MAC]. *)
Theorem missing_notes_cell_is_silent (today : date)
    (client_name status : string) (building_info : Building)
    (row_index : nat) (values : list (list string)) (e : Env) :
  truthy client_name = true ->
  (cell values row_index (notes_col building_info) = None ->
   startswith (upper status) "LIMIT=" = true
   \/ startswith (upper status) "NEW=" = true
   \/ startswith (upper status) "UPD-MAC=" = true
   \/ startswith (upper status) "RE=NUMBER" = true ->
   process_client today client_name status building_info row_index values e
   = (Value tt, e))
  /\ (forall row,
        startswith (upper status) "RE=NAME" = true ->
        nth_error values row_index = Some row ->
        nth_error row (notes_col building_info) = None ->
        process_client today client_name status building_info row_index
          values e
        = row_written e building_info row_index "NO-NOTES-COL"
            (mikrotik_manager e))
  /\ (cell values row_index (notes_col building_info) = Some "" ->
      startswith (upper status) "NEW=" = true
      \/ startswith (upper status) "UPD-MAC=" = true ->
      process_client today client_name status building_info row_index values e
      = row_written e building_info row_index "NO-MAC" (mikrotik_manager e)).
Proof.
  intros Hname. split; [| split].
  - apply no_notes_cell_is_silent. exact Hname.
  - intros row. apply short_row_of_rename. exact Hname.
  - apply empty_notes_of_mac_row. exact Hname.
Qed.

Lemma missing_notes_cell_is_silent_witness :
  process_client Sample.new_year "carol" "NEW=Paid" Sample.building 0
    [["carol"; "NEW=Paid"]] Sample.desk
  = (Value tt, Sample.desk)
  /\ process_client Sample.new_year "carol" "NEW=Paid" Sample.building 0
       [["carol"; "NEW=Paid"; ""]] Sample.desk
     = row_written Sample.desk Sample.building 0 "NO-MAC" Sample.office.
Proof.
  split.
  - apply (proj1 (missing_notes_cell_is_silent Sample.new_year "carol"
                    "NEW=Paid" Sample.building 0 [["carol"; "NEW=Paid"]]
                    Sample.desk eq_refl)).
    + reflexivity.
    + right. left. reflexivity.
  - apply (proj2 (proj2 (missing_notes_cell_is_silent Sample.new_year "carol"
                           "NEW=Paid" Sample.building 0
                           [["carol"; "NEW=Paid"; ""]] Sample.desk eq_refl))).
    + reflexivity.
    + left. reflexivity.
Defined.

(** X15. [Old-Date] is what a [LIMIT=] row with an ASCII notes cell gets
    whenever [is_date_in_future] refuses its date, the manager left as it
    is: for a date that is past, and as well for a text that passes the
    row's own check of lengths and ranges but is no date of the calendar,
    such as [31-2-2027]. *)
Theorem refused_date_writes_old_date :
  (forall today client_name status building_info row_index values e
          block_date,
     truthy client_name = true ->
     startswith (upper status) "LIMIT=" = true ->
     cell values row_index (notes_col building_info) = Some block_date ->
     all_chars is_ascii block_date = true ->
     limit_date_ok block_date = true ->
     truthy (get_client_mac client_name (mikrotik_manager e)) = true ->
     is_date_in_future today block_date = false ->
     process_client today client_name status building_info row_index values e
     = row_written e building_info row_index "Old-Date" (mikrotik_manager e))
  /\ limit_date_ok "31-2-2027" = true
  /\ (forall today, is_date_in_future today "31-2-2027" = false).
Proof.
  split; [| split; [reflexivity | intros today; reflexivity]].
  intros today client_name status building_info row_index values e block_date
    Hname Hstatus Hcell _.
  revert Hstatus Hcell. apply refused_date_of_limit_row. exact Hname.
Qed.

Lemma refused_date_writes_old_date_witness :
  process_client Sample.new_year "alice" "LIMIT=Paid" Sample.building 0
    [["alice"; "LIMIT=Paid"; "31-2-2027"]] Sample.desk
  = row_written Sample.desk Sample.building 0 "Old-Date" Sample.office.
Proof.
  apply (proj1 refused_date_writes_old_date Sample.new_year "alice"
           "LIMIT=Paid" Sample.building 0
           [["alice"; "LIMIT=Paid"; "31-2-2027"]] Sample.desk "31-2-2027");
    reflexivity.
Defined.
(* ===================================================================== *)
(** * A cycle over the sheet: [process_sheet_data] *)
(* ===================================================================== *)

Section Cycle.

Variables (today : date) (values : list (list string))
  (buildings : list Building).

(** What a row may send addresses the row, in its building. *)
Lemma row_updates_address (status : string) (building : Building)
    (row_index : nat) (news : list Update) :
  In building buildings -> row_index < List.length values ->
  row_updates status building row_index news ->
  Forall (addresses buildings (List.length values)) news.
Proof.
  intros Hb Hr [->|[(v & -> & _)|(n & p & ->)]].
  - constructor.
  - repeat constructor. exists building, row_index. cbn. auto.
  - repeat constructor; exists building, row_index; cbn; auto.
Qed.

Lemma process_row_sends (building : Building) (row_index : nat)
    (row : list string) :
  In building buildings -> row_index < List.length values ->
  sends (process_row today building values row_index row)
    (Forall (addresses buildings (List.length values))).
Proof.
  intros Hb Hr. unfold process_row.
  apply (sends_try_except _ _
           (Forall (addresses buildings (List.length values)))
           (fun l => l = [])).
  - repeat
      lazymatch goal with
      | |- sends (ret _) _ => apply sends_ret; constructor
      | |- sends (process_client _ _ _ _ _ _) _ =>
          eapply sends_more;
          [apply process_client_sends
          | intros l; apply row_updates_address; assumption]
      | |- sends (bind (must _) _) _ =>
          apply sends_after_must; [constructor | intros ? ?]
      | |- sends (if ?b then _ else _) _ => destruct b
      end.
  - apply sends_ret. reflexivity.
  - trivial.
  - intros l1 l2 H ->. rewrite app_nil_r. exact H.
Qed.

Lemma process_rows_sends (building : Building) (rows : list (list string)) :
  In building buildings ->
  forall row_index,
    row_index + List.length rows <= List.length values ->
    sends (process_rows today building values row_index rows)
      (Forall (addresses buildings (List.length values))).
Proof.
  intros Hb. induction rows as [|row rows IH]; intros row_index Hlen;
    cbn [process_rows].
  - apply sends_ret. constructor.
  - cbn [List.length] in Hlen.
    apply (sends_bind _ _ (Forall (addresses buildings (List.length values)))
             (Forall (addresses buildings (List.length values)))).
    + apply process_row_sends; [exact Hb | lia].
    + intros _. apply IH. lia.
    + trivial.
    + intros l1 l2 H1 H2. apply Forall_app. split; assumption.
Qed.

Lemma process_buildings_sends (some : list Building) :
  incl some buildings ->
  sends (process_buildings today values some)
    (Forall (addresses buildings (List.length values))).
Proof.
  induction some as [|building some IH]; intros Hincl;
    cbn [process_buildings].
  - apply sends_ret. constructor.
  - apply (sends_bind _ _ (Forall (addresses buildings (List.length values)))
             (Forall (addresses buildings (List.length values)))).
    + apply process_rows_sends; [apply Hincl; left; reflexivity |].
      cbn. lia.
    + intros _. apply IH. intros b Hin. apply Hincl. right. exact Hin.
    + trivial.
    + intros l1 l2 H1 H2. apply Forall_app. split; assumption.
Qed.

End Cycle.

(** X16. A cycle stays inside the sheet it read. [process_sheet_data]
    never raises and takes back nothing that was sent; every update it
    sends addresses a data row that was read and a column (client, status
    or notes) of a building found in the header. *)
Theorem process_sheet_data_stays_in_the_sheet (today : date)
    (header_values values : list (list string)) (e : Env) :
  fst (process_sheet_data today header_values values e) = Value tt
  /\ exists news,
       service (snd (process_sheet_data today header_values values e))
       = (service e ++ news)%list
       /\ Forall (addresses (find_buildings_structure header_values)
                    (List.length values)) news.
Proof.
  split.
  - unfold process_sheet_data, try_except.
    match goal with
    | |- fst (match ?b with _ => _ end) = _ => destruct b as [[[]|] ?]
    end; reflexivity.
  - revert e.
    change (sends (process_sheet_data today header_values values)
              (Forall (addresses (find_buildings_structure header_values)
                         (List.length values)))).
    unfold process_sheet_data.
    apply (sends_try_except _ _
             (Forall (addresses (find_buildings_structure header_values)
                        (List.length values)))
             (fun l => l = [])).
    + destruct values as [|row rows] eqn:Hv; [apply sends_ret; constructor |].
      rewrite <- Hv.
      destruct (find_buildings_structure header_values) as [|b bs] eqn:Hb;
        [apply sends_ret; constructor |].
      apply process_buildings_sends. apply incl_refl.
    + apply sends_ret. reflexivity.
    + trivial.
    + intros l1 l2 H ->. rewrite app_nil_r. exact H.
Qed.

Section Header.

Lemma scan_header_columns (header_row : list string) :
  forall col_index,
    map client_col (scan_header col_index header_row)
    = map (Nat.add col_index)
        (filter (names_building header_row)
           (seq 0 (List.length header_row))).
Proof.
  induction header_row as [|cell_value rest IH]; intros col_index;
    [reflexivity |].
  cbn [scan_header List.length]. rewrite <- cons_seq, <- seq_shift.
  cbn [filter]. rewrite filter_map_swap, map_app, IH.
  unfold names_building at 2. cbn [nth_error].
  replace (filter (fun a => names_building (cell_value :: rest) (S a))
             (seq 0 (List.length rest)))
    with (filter (names_building rest) (seq 0 (List.length rest)))
    by (apply filter_ext; reflexivity).
  destruct (truthy cell_value && truthy (strip cell_value));
    cbn [map app client_col]; rewrite ?Nat.add_0_r, !map_map;
    [apply f_equal |]; apply map_ext; intros i; lia.
Qed.

Lemma scan_header_entries (header_row : list string) (b : Building) :
  forall col_index,
    In b (scan_header col_index header_row) ->
    exists cell_value,
      nth_error header_row (client_col b - col_index) = Some cell_value
      /\ col_index <= client_col b
      /\ name b = strip cell_value
      /\ status_col b = client_col b + 1
      /\ notes_col b = client_col b + 2.
Proof.
  induction header_row as [|cell_value rest IH]; intros col_index;
    cbn [scan_header]; [intros [] |].
  intros H. apply in_app_or in H as [H|H].
  - destruct (truthy cell_value && truthy (strip cell_value)); [| destruct H].
    destruct H as [<-|[]]. cbn [client_col name status_col notes_col].
    exists cell_value. rewrite Nat.sub_diag. repeat split. lia.
  - destruct (IH _ H) as (c & Hc & Hle & Hrest). exists c.
    replace (client_col b - col_index) with (S (client_col b - S col_index))
      by lia.
    split; [exact Hc |]. split; [lia | exact Hrest].
Qed.

End Header.

(** X17. The buildings are the header cells that are not blank.
    [find_buildings_structure] returns one building for each cell of the
    first header row that holds more than white space, in the order of the
    columns, and no other: its client column is the column of the cell,
    its name the cell stripped, its status and notes columns the next two
    columns, whether or not these hold a building of their own. Without a
    header row there is no building. *)
Theorem buildings_are_the_named_header_cells (header_row : list string)
    (more : list (list string)) :
  map client_col (find_buildings_structure (header_row :: more))
  = filter (names_building header_row) (seq 0 (List.length header_row))
  /\ (forall b,
        In b (find_buildings_structure (header_row :: more)) ->
        exists cell_value,
          nth_error header_row (client_col b) = Some cell_value
          /\ name b = strip cell_value
          /\ status_col b = client_col b + 1
          /\ notes_col b = client_col b + 2)
  /\ find_buildings_structure [] = [].
Proof.
  cbn [find_buildings_structure]. split; [| split; [| reflexivity]].
  - rewrite scan_header_columns. rewrite <- (map_id (filter _ _)) at 2.
    apply map_ext. reflexivity.
  - intros b Hb.
    destruct (scan_header_entries _ _ _ Hb) as (c & Hc & _ & Hrest).
    rewrite Nat.sub_0_r in Hc. exists c. split; assumption.
Qed.

Lemma buildings_are_the_named_header_cells_witness :
  exists cell_value,
    nth_error ["Tower"; ""; " "; "Annex "] 3 = Some cell_value
    /\ "Annex" = strip cell_value
    /\ 4 = 3 + 1
    /\ 5 = 3 + 2.
Proof.
  apply (proj1 (proj2 (buildings_are_the_named_header_cells
                         ["Tower"; ""; " "; "Annex "] []))
           {| name := "Annex"; client_col := 3; status_col := 4;
              notes_col := 5 |}).
  right. left. reflexivity.
Defined.

Section Idle.

Variables (today : date) (values : list (list string)).

Lemma process_row_idle (building : Building) (row_index : nat)
    (row : list string) (e : Env) :
  Forall (fun c => is_command c = false) row ->
  process_row today building values row_index row e = (Value tt, e).
Proof.
  intros Hrow. unfold process_row, try_except, bind, must.
  destruct (List.length row <=? client_col building)%nat; [reflexivity |].
  destruct (nth_error row (client_col building)) as [client_name|];
    [| reflexivity].
  cbn beta iota. unfold ret at 1. cbn beta iota.
  destruct (negb (truthy client_name)); [reflexivity |].
  destruct (List.length row <=? status_col building)%nat; [reflexivity |].
  destruct (nth_error row (status_col building)) as [status|] eqn:Hs;
    [| reflexivity].
  unfold ret at 1. cbn beta iota.
  destruct (negb (truthy status)); [reflexivity |].
  apply nth_error_In in Hs. rewrite Forall_forall in Hrow.
  rewrite (Hrow status Hs). reflexivity.
Qed.

Lemma process_rows_idle (building : Building) (rows : list (list string)) :
  Forall (Forall (fun c => is_command c = false)) rows ->
  forall row_index e,
    process_rows today building values row_index rows e = (Value tt, e).
Proof.
  induction rows as [|row rows IH]; intros Hrows row_index e;
    cbn [process_rows]; [reflexivity |].
  inversion Hrows as [|? ? Hrow Hrest]; subst.
  unfold bind. rewrite (process_row_idle _ _ _ _ Hrow). apply IH. exact Hrest.
Qed.

Lemma process_buildings_idle (buildings : list Building) (e : Env) :
  Forall (Forall (fun c => is_command c = false)) values ->
  process_buildings today values buildings e = (Value tt, e).
Proof.
  intros Hidle. induction buildings as [|building rest IH];
    cbn [process_buildings]; [reflexivity |].
  unfold bind. rewrite (process_rows_idle _ _ Hidle). exact IH.
Qed.

End Idle.

(** X18. A cycle over a sheet without commands does nothing. When no cell
    of the data rows read is a command (none of the eight the engine
    knows, letter case apart), or when the header names no building,
    [process_sheet_data] sends no update and leaves the manager, device
    and directory, as it is. *)
Theorem idle_sheet_changes_nothing (today : date)
    (header_values values : list (list string)) (e : Env) :
  Forall (Forall (fun c => is_command c = false)) values
  \/ find_buildings_structure header_values = [] ->
  process_sheet_data today header_values values e = (Value tt, e).
Proof.
  intros Hidle. unfold process_sheet_data, try_except.
  destruct values as [|row rows] eqn:Hv; [reflexivity |]. rewrite <- Hv in *.
  destruct (find_buildings_structure header_values) as [|b bs] eqn:Hb;
    [reflexivity |].
  destruct Hidle as [Hidle|Hnone]; [| discriminate].
  rewrite (process_buildings_idle _ _ _ _ Hidle). reflexivity.
Qed.

Lemma idle_sheet_changes_nothing_witness :
  process_sheet_data Sample.new_year [["B1"]]
    [["bob"; "BLOCK"]; ["alice"; "Waiting"; "0200"]; ["carol"; "Paid"]]
    Sample.desk
  = (Value tt, Sample.desk).
Proof.
  apply idle_sheet_changes_nothing. left. repeat constructor.
Defined.
(* ===================================================================== *)
(** * Texts that are IP addresses, and the ranges of cells *)
(* ===================================================================== *)

Section SplitJoin.

Variable x : ascii.

Lemma split_go_nonempty (sep : string) (maxsplit : option nat) (s : string) :
  forall skip, split_go sep maxsplit skip s <> [].
Proof.
  revert maxsplit. induction s as [|c s IH]; intros maxsplit skip;
    cbn [split_go]; [discriminate |].
  destruct skip as [|k]; [| apply IH].
  destruct (may_split maxsplit && startswith (String c s) sep);
    [discriminate |].
  destruct (split_go sep maxsplit 0 s); discriminate.
Qed.

Lemma join_cons_head (sep : string) (c : ascii) (l : list string) :
  l <> [] -> join sep (cons_head c l) = String c (join sep l).
Proof. destruct l as [|p ps]; [contradiction | reflexivity]. Qed.

(** Joining the pieces of a text with the separator gives the text back. *)
Lemma join_split (s : string) :
  join (String x "") (split (String x "") s) = s.
Proof.
  unfold split. induction s as [|c s IH]; [reflexivity |].
  cbn [split_go may_split andb startswith String.length Nat.sub one_less
       option_map].
  rewrite ?andb_true_r.
  destruct (Ascii.eqb_spec x c) as [<-|Hne].
  - cbn [join]. destruct (split_go (String x "") None 0 s) as [|p ps] eqn:E.
    + exfalso. exact (split_go_nonempty _ _ _ _ E).
    + cbn [join_rest append]. cbn [join] in IH. rewrite IH. reflexivity.
  - rewrite join_cons_head by apply split_go_nonempty.
    rewrite IH. reflexivity.
Qed.

End SplitJoin.

Section TextEnds.

Lemma append_nil_r (s : string) : s ++ "" = s.
Proof. induction s as [|c s IH]; cbn [append]; [| rewrite IH]; reflexivity. Qed.

Lemma append_assoc (a b c : string) : (a ++ b) ++ c = a ++ b ++ c.
Proof. induction a as [|x a IH]; cbn [append]; [| rewrite IH]; reflexivity. Qed.

Lemma append_inv_head (a s t : string) : a ++ s = a ++ t -> s = t.
Proof.
  induction a as [|x a IH]; cbn [append]; [trivial |].
  intros [= H]. exact (IH H).
Qed.

Lemma length_append (a b : string) :
  String.length (a ++ b) = String.length a + String.length b.
Proof.
  induction a as [|x a IH]; cbn [append String.length]; [| rewrite IH];
    reflexivity.
Qed.

Lemma drop_append (a b : string) : drop (String.length a) (a ++ b) = b.
Proof.
  induction a as [|x a IH]; cbn [append String.length drop]; [| exact IH].
  destruct b; reflexivity.
Qed.

Lemma substring_append (a b : string) :
  substring 0 (String.length a) (a ++ b) = a.
Proof.
  induction a as [|x a IH]; cbn [append String.length substring].
  - destruct b; reflexivity.
  - rewrite IH. reflexivity.
Qed.

(** A text is what precedes its last [n] characters, then these. *)
Lemma substring_drop (s : string) :
  forall n, n <= String.length s -> s = substring 0 n s ++ drop n s.
Proof.
  induction s as [|c s IH]; intros [|n] Hn; cbn [String.length] in Hn;
    cbn [substring drop append]; try reflexivity; try lia.
  rewrite <- IH by lia. reflexivity.
Qed.

Lemma all_chars_drop (p : ascii -> bool) (s : string) :
  forall n, all_chars p s = true -> all_chars p (drop n s) = true.
Proof.
  induction s as [|c s IH]; intros [|n] H; cbn [drop]; try exact H.
  cbn [all_chars] in H. apply andb_prop in H as [_ H]. exact (IH n H).
Qed.

Lemma all_chars_app (p : ascii -> bool) (a b : string) :
  all_chars p (a ++ b) = all_chars p a && all_chars p b.
Proof.
  induction a as [|x a IH]; cbn [append all_chars]; [reflexivity |].
  rewrite IH, andb_assoc. reflexivity.
Qed.

(** [without_final_newline] takes a final line feed off, and nothing
    else. *)
Lemma without_final_newline_cases (s : string) :
  without_final_newline s = s
  \/ s = without_final_newline s ++ nl.
Proof.
  unfold without_final_newline, last_chars.
  destruct (String.eqb_spec (drop (String.length s - 1) s) nl) as [E|_];
    [right | left; reflexivity].
  rewrite <- E. apply substring_drop. lia.
Qed.

Lemma without_final_newline_app (q : string) :
  without_final_newline (q ++ nl) = q.
Proof.
  unfold without_final_newline, last_chars.
  rewrite length_append. change (String.length nl) with 1.
  replace (String.length q + 1 - 1) with (String.length q) by lia.
  rewrite drop_append, String.eqb_refl. apply substring_append.
Qed.

End TextEnds.

Section Digits.

Lemma digit_is_no_dot (c : ascii) : is_digit c = true -> ("." =? c)%char = false.
Proof.
  destruct (Ascii.eqb_spec "." c) as [<-|]; [discriminate | reflexivity].
Qed.

Lemma digit_is_no_space (c : ascii) :
  is_digit c = true -> is_int_space c = false.
Proof.
  unfold is_digit, is_int_space. intros H. apply andb_prop in H as [H1 H2].
  apply Nat.leb_le in H1, H2.
  apply orb_false_intro;
    [apply andb_false_intro2; apply Nat.leb_gt | apply Nat.eqb_neq]; lia.
Qed.

Lemma digits_hold_no_dot (s : string) :
  all_chars is_digit s = true -> str_in "." s = false.
Proof.
  induction s as [|c s IH]; cbn [all_chars str_in startswith]; [reflexivity |].
  intros H. apply andb_prop in H as [Hc Hs].
  rewrite (digit_is_no_dot c Hc), (IH Hs). reflexivity.
Qed.

Lemma digits_then_newline_hold_no_dot (s : string) :
  all_chars is_digit s = true -> str_in "." (s ++ nl) = false.
Proof.
  induction s as [|c s IH]; cbn [all_chars append str_in startswith];
    [reflexivity |].
  intros H. apply andb_prop in H as [Hc Hs].
  rewrite (digit_is_no_dot c Hc), (IH Hs). reflexivity.
Qed.

Lemma rstrip_digits (s : string) :
  all_chars is_digit s = true -> rstrip_by is_int_space s = s.
Proof.
  induction s as [|c s IH]; cbn [all_chars rstrip_by]; [reflexivity |].
  intros H. apply andb_prop in H as [Hc Hs]. rewrite (IH Hs).
  destruct s; [rewrite (digit_is_no_space c Hc) |]; reflexivity.
Qed.

Lemma rstrip_digits_newline (s : string) :
  s <> "" -> all_chars is_digit s = true ->
  rstrip_by is_int_space (s ++ nl) = s.
Proof.
  induction s as [|c s IH]; [contradiction |].
  intros _ H. cbn [all_chars] in H. apply andb_prop in H as [Hc Hs].
  cbn [append rstrip_by]. destruct s as [|d s].
  - cbn. rewrite (digit_is_no_space c Hc). reflexivity.
  - rewrite IH by (discriminate || exact Hs). reflexivity.
Qed.

Lemma lstrip_digits (s : string) :
  all_chars is_digit s = true -> lstrip_by is_int_space s = s.
Proof.
  destruct s as [|c s]; cbn [all_chars lstrip_by]; [reflexivity |].
  intros H. apply andb_prop in H as [Hc _].
  rewrite (digit_is_no_space c Hc). reflexivity.
Qed.

(** A final line feed does not change what [int] reads in a group of
    digits, so it does not change what [octet] says of it. *)
Lemma octet_newline (s : string) :
  digit_group s = true -> octet (s ++ nl) = octet s.
Proof.
  unfold digit_group, octet, int. intros H.
  apply andb_prop in H as [Hlen Hd].
  assert (Hne : s <> "") by (intros ->; discriminate).
  rewrite (rstrip_digits_newline s Hne Hd), (rstrip_digits s Hd).
  reflexivity.
Qed.

Lemma digit_group_no_dot (s : string) :
  digit_group s = true -> str_in "." s = false.
Proof.
  unfold digit_group. intros H. apply andb_prop in H as [_ H].
  apply digits_hold_no_dot. exact H.
Qed.

Lemma digit_group_newline_no_dot (s : string) :
  digit_group s = true -> str_in "." (s ++ nl) = false.
Proof.
  unfold digit_group. intros H. apply andb_prop in H as [_ H].
  apply digits_then_newline_hold_no_dot. exact H.
Qed.

End Digits.

Section Dotted.

Variables a b c d : string.

Hypothesis group_a : digit_group a = true.
Hypothesis group_b : digit_group b = true.
Hypothesis group_c : digit_group c = true.
Hypothesis group_d : digit_group d = true.

Lemma split_dotted : split "." (dotted a b c d) = [a; b; c; d].
Proof.
  unfold split, dotted. cbn [append].
  rewrite split_go_char by (apply digit_group_no_dot; exact group_a).
  cbn [may_split one_less option_map].
  rewrite split_go_char by (apply digit_group_no_dot; exact group_b).
  cbn [may_split one_less option_map].
  rewrite split_go_char by (apply digit_group_no_dot; exact group_c).
  cbn [may_split one_less option_map].
  rewrite split_go_absent by (apply digit_group_no_dot; exact group_d).
  reflexivity.
Qed.

Lemma dotted_newline :
  dotted a b c d ++ nl = a ++ "." ++ b ++ "." ++ c ++ "." ++ d ++ nl.
Proof.
  unfold dotted. rewrite !append_assoc. reflexivity.
Qed.

Lemma split_dotted_newline :
  split "." (dotted a b c d ++ nl) = [a; b; c; d ++ nl].
Proof.
  rewrite dotted_newline. unfold split. cbn [append].
  rewrite split_go_char by (apply digit_group_no_dot; exact group_a).
  cbn [may_split one_less option_map].
  rewrite split_go_char by (apply digit_group_no_dot; exact group_b).
  cbn [may_split one_less option_map].
  rewrite split_go_char by (apply digit_group_no_dot; exact group_c).
  cbn [may_split one_less option_map].
  rewrite split_go_absent
    by (apply digit_group_newline_no_dot; exact group_d).
  reflexivity.
Qed.

(** A dotted text whose last group is made of digits does not end with a
    line feed. *)
Lemma dotted_has_no_final_newline :
  without_final_newline (dotted a b c d) = dotted a b c d.
Proof.
  destruct (without_final_newline_cases (dotted a b c d)) as [H|H];
    [exact H | exfalso].
  apply (f_equal (split ".")) in H.
  rewrite split_dotted in H.
  set (w := without_final_newline (dotted a b c d)) in H.
  assert (Hw : join "." (split "." (w ++ nl)) = w ++ nl) by apply join_split.
  rewrite <- H in Hw. cbn [join join_rest] in Hw.
  assert (Hd : all_chars is_digit (a ++ "." ++ b ++ "." ++ c ++ "." ++ d ++ "")
               = all_chars is_digit (w ++ nl)) by (rewrite Hw; reflexivity).
  unfold digit_group in group_d. apply andb_prop in group_d as [Hlen Hdigits].
  assert (Hlast : all_chars is_digit
                    (drop (String.length w) (w ++ nl)) = false)
    by (rewrite drop_append; reflexivity).
  rewrite <- Hw in Hlast.
  assert (Hsame : String.length w
                  = String.length (a ++ "." ++ b ++ "." ++ c ++ ".")
                    + (String.length d - 1)).
  { apply (f_equal String.length) in Hw.
    rewrite !length_append in Hw. rewrite !length_append.
    change (String.length nl) with 1 in Hw.
    change (String.length "") with 0 in Hw.
    change (String.length ".") with 1 in *.
    apply andb_prop in Hlen as [Hlen _]. apply Nat.leb_le in Hlen. lia. }
  replace (a ++ "." ++ b ++ "." ++ c ++ "." ++ d ++ "")
    with ((a ++ "." ++ b ++ "." ++ c ++ ".") ++ d) in Hlast
    by (rewrite !append_assoc, append_nil_r; reflexivity).
  rewrite Hsame in Hlast.
  assert (Hdrop : forall (p q : string) (n : nat),
            drop (String.length p + n) (p ++ q) = drop n q).
  { intros p q n. induction p as [|y p IH]; [reflexivity |].
    cbn [String.length Nat.add append drop]. exact IH. }
  rewrite Hdrop in Hlast.
  rewrite (all_chars_drop _ _ _ Hdigits) in Hlast. discriminate.
Qed.

End Dotted.

(** X19. What [is_ip_address] accepts. A text of the ASCII range is taken
    for an IP address exactly when it is four groups of one to three
    digits with dots between, each group a number from 0 to 255, with
    nothing after them or one line feed: the [$] of the pattern lets a
    final line feed pass, and [int] does not mind it. *)
Theorem is_ip_address_accepts_dotted_quads (identifier : string) :
  all_chars is_ascii identifier = true ->
  is_ip_address identifier = true
  <-> exists a b c d,
        (identifier = dotted a b c d \/ identifier = dotted a b c d ++ nl)
        /\ digit_group a = true /\ digit_group b = true
        /\ digit_group c = true /\ digit_group d = true
        /\ octet a = true /\ octet b = true
        /\ octet c = true /\ octet d = true.
Proof.
  intros _. unfold is_ip_address. split.
  - destruct (ip_pattern identifier) eqn:Hp; [| discriminate].
    unfold ip_pattern in Hp.
    destruct (split "." (without_final_newline identifier))
      as [|a [|b [|c [|d [|? ?]]]]] eqn:Hs; try discriminate.
    apply andb_prop in Hp as [Hp Hd]. apply andb_prop in Hp as [Hp Hc].
    apply andb_prop in Hp as [Ha Hb].
    assert (Hw : without_final_newline identifier = dotted a b c d).
    { rewrite <- (join_split "." (without_final_newline identifier)), Hs.
      unfold dotted. cbn [join join_rest]. rewrite append_nil_r.
      reflexivity. }
    intros Hall. exists a, b, c, d.
    destruct (without_final_newline_cases identifier) as [E|E].
    + rewrite E in Hw. rewrite Hw in Hall |- *.
      rewrite (split_dotted a b c d Ha Hb Hc Hd) in Hall.
      cbn [forallb] in Hall. rewrite andb_true_r in Hall.
      apply andb_prop in Hall as [Oa Hall]. apply andb_prop in Hall as [Ob Hall].
      apply andb_prop in Hall as [Oc Od].
      repeat split; auto.
    + rewrite Hw in E. rewrite E in Hall |- *.
      rewrite (split_dotted_newline a b c d Ha Hb Hc Hd) in Hall.
      cbn [forallb] in Hall. rewrite andb_true_r in Hall.
      apply andb_prop in Hall as [Oa Hall]. apply andb_prop in Hall as [Ob Hall].
      apply andb_prop in Hall as [Oc Od].
      rewrite (octet_newline d Hd) in Od.
      repeat split; auto.
  - intros (a & b & c & d & Hid & Ha & Hb & Hc & Hd & Oa & Ob & Oc & Od).
    unfold ip_pattern. destruct Hid as [->| ->].
    + rewrite (dotted_has_no_final_newline a b c d Ha Hb Hc Hd).
      rewrite (split_dotted a b c d Ha Hb Hc Hd).
      rewrite Ha, Hb, Hc, Hd. cbn [andb forallb].
      rewrite Oa, Ob, Oc, Od. reflexivity.
    + rewrite without_final_newline_app.
      rewrite (split_dotted a b c d Ha Hb Hc Hd).
      rewrite Ha, Hb, Hc, Hd. cbn [andb].
      rewrite (split_dotted_newline a b c d Ha Hb Hc Hd). cbn [forallb].
      rewrite (octet_newline d Hd), Oa, Ob, Oc, Od. reflexivity.
Qed.

Lemma is_ip_address_accepts_dotted_quads_witness :
  is_ip_address "10.0.0.7" = true
  /\ is_ip_address ("10.0.0.7" ++ nl) = true.
Proof.
  split.
  - apply (proj2 (is_ip_address_accepts_dotted_quads "10.0.0.7" eq_refl)).
    exists "10", "0", "0", "7". repeat split. left. reflexivity.
  - apply (proj2 (is_ip_address_accepts_dotted_quads ("10.0.0.7" ++ nl)
                    eq_refl)).
    exists "10", "0", "0", "7". repeat split. right. reflexivity.
Defined.

Section Ranges.

Lemma to_uint_is_not_nil (n : nat) : Nat.to_uint n <> Decimal.Nil.
Proof.
  intros H. pose proof (DecimalNat.Unsigned.to_of (Nat.to_uint n)) as E.
  rewrite DecimalNat.Unsigned.of_to, H in E. discriminate.
Qed.

(** [str] gives different texts for different numbers. *)
Lemma str_of_nat_inj (n n' : nat) : str_of_nat n = str_of_nat n' -> n = n'.
Proof.
  unfold str_of_nat. intros H.
  apply (f_equal NilZero.uint_of_string) in H.
  rewrite !NilZero.usu in H by apply to_uint_is_not_nil.
  injection H as H. apply DecimalNat.Unsigned.to_uint_inj. exact H.
Qed.

End Ranges.

(** X20. Two cells have the same range only when they are the same cell:
    the range that [update_sheet_status] builds says which column and
    which row. *)
Theorem cell_range_names_one_cell (c1 c2 r1 r2 : nat) :
  cell_range c1 r1 = cell_range c2 r2 <-> c1 = c2 /\ r1 = r2.
Proof.
  split; [| intros [-> ->]; reflexivity].
  intros E. pose proof (cell_range_column _ _ _ _ E) as Hc. subst c2.
  split; [reflexivity |].
  unfold cell_range in E. apply append_inv_head in E.
  apply append_inv_head in E. apply str_of_nat_inj in E. lia.
Qed.
(* ===================================================================== *)
(** * Writing, then reading back *)
(* ===================================================================== *)

Section MappedDirectory.

Variable g : Binding -> Binding.

Lemma dict_set_map_values (k : string) (b : Binding) (d : dict Binding) :
  dict_set k (g b) (map_values g d) = map_values g (dict_set k b d).
Proof.
  induction d as [|[k' v'] d IH]; cbn [map_values map dict_set fst snd];
    [reflexivity |].
  destruct (k' =? k); cbn [map fst snd]; [reflexivity |].
  unfold map_values in IH. rewrite IH. reflexivity.
Qed.

Lemma dict_get_map_values (k : string) (d : dict Binding) :
  dict_get k (map_values g d) = option_map g (dict_get k d).
Proof.
  induction d as [|[k' v'] d IH]; cbn [map_values map dict_get fst snd];
    [reflexivity |].
  destruct (k' =? k); [reflexivity | exact IH].
Qed.

Lemma find_key_map_values (p : string -> bool) (d : dict Binding) :
  find (fun kv => p (fst kv)) (map_values g d)
  = option_map (fun kv => (fst kv, g (snd kv)))
      (find (fun kv => p (fst kv)) d).
Proof.
  induction d as [|[k' v'] d IH]; cbn [map_values map find fst snd];
    [reflexivity |].
  destruct (p k'); [reflexivity | exact IH].
Qed.

(** A lookup in the mapped directory is the image of the lookup. *)
Lemma find_client_map_values (client_name : string) (r r' : Router)
    (d : dict Binding) :
  find_client_in_ip_bindings client_name
    {| api := r'; clients_cache := map_values g d |}
  = option_map g
      (find_client_in_ip_bindings client_name
         {| api := r; clients_cache := d |}).
Proof.
  rewrite !find_client_stages. cbn [clients_cache].
  rewrite dict_get_map_values.
  destruct (dict_get (strip client_name) d); [reflexivity |].
  cbn [option_map].
  rewrite (find_key_map_values
             (fun k => lower k =? lower (strip client_name))).
  destruct (find (fun kv => lower (fst kv) =? lower (strip client_name)) d)
    as [[? ?]|]; [reflexivity |].
  cbn [option_map].
  rewrite (find_key_map_values
             (fun k => str_in (lower (strip client_name)) (lower k))).
  destruct (find (fun kv => str_in (lower (strip client_name))
                              (lower (fst kv))) d)
    as [[? ?]|]; reflexivity.
Qed.

Lemma load_step_key (acc : dict Binding) (b : Binding) :
  load_step acc b
  = match load_key b with
    | Some k => dict_set k b acc
    | None => acc
    end.
Proof.
  unfold load_step, load_key.
  destruct (truthy (get (b_comment b) "")); reflexivity.
Qed.

(** Editing records without changing the names they are entered under
    maps the directory. *)
Lemma load_fold_map (l : list Binding) :
  (forall b, In b l -> load_key (g b) = load_key b) ->
  forall acc,
    fold_left load_step (map g l) (map_values g acc)
    = map_values g (fold_left load_step l acc).
Proof.
  induction l as [|b l IH]; intros Hkeys acc; cbn [map fold_left];
    [reflexivity |].
  rewrite <- IH by (intros x Hx; apply Hkeys; right; exact Hx).
  f_equal. rewrite !load_step_key, (Hkeys b (or_introl eq_refl)).
  destruct (load_key b); [apply dict_set_map_values | reflexivity].
Qed.

End MappedDirectory.

Section EditedDirectory.

Variables (client_name : string) (self : MikrotikManager) (eb : Binding)
  (f : Fields).

Hypothesis current : clients_cache self = _load_clients self.
Hypothesis known : find_client_in_ip_bindings client_name self = Some eb.
Hypothesis names_kept :
  forall b, In b (ip_binding (api self)) ->
            load_key (edit_record (b_id eb) f b) = load_key b.

Lemma found_is_on_device :
  In eb (ip_binding (api self))
  /\ truthy (get (b_comment eb) "") = true
  /\ has_binding (b_id eb) (ip_binding (api self)) = true.
Proof.
  destruct (found_client_is_commented self client_name eb current known)
    as [Hin Ht].
  split; [exact Hin |]. split; [exact Ht |].
  unfold has_binding. apply existsb_exists. exists eb.
  split; [exact Hin | apply N.eqb_refl].
Qed.

(** After a [set] that keeps the names and the refresh that follows it,
    the name finds the record as edited. *)
Lemma edited_record_is_found :
  find_client_in_ip_bindings client_name
    (refreshed
       (with_bindings (set_on (b_id eb) f (ip_binding (api self))) (api self)))
  = Some (apply_fields f eb).
Proof.
  unfold refreshed, _load_clients. cbn [api with_bindings ip_binding].
  change (set_on (b_id eb) f (ip_binding (api self)))
    with (map (edit_record (b_id eb) f) (ip_binding (api self))).
  change (@nil (string * Binding))
    with (map_values (edit_record (b_id eb) f) []).
  rewrite (load_fold_map _ _ names_kept).
  rewrite (find_client_map_values _ client_name (api self)).
  change (fold_left load_step (ip_binding (api self)) [])
    with (_load_clients self).
  rewrite <- current.
  replace {| api := api self; clients_cache := clients_cache self |}
    with self by (destruct self; reflexivity).
  rewrite known. cbn [option_map]. unfold edit_record.
  rewrite N.eqb_refl. reflexivity.
Qed.

End EditedDirectory.

Section PhoneRoundTrip.

Variables (new_phone c : string).

Hypothesis with_separator_or_plain :
  str_in " @" c = true \/ str_in "@" c = false.

(** The comment written: a name part that gives the same client name,
    the separator, the new phone. *)
Lemma rephoned_comment_shape :
  exists n,
    rephoned_comment c new_phone = Some (n ++ " @" ++ strip new_phone)
    /\ str_in " @" n = false
    /\ _extract_client_name c = strip n.
Proof.
  destruct with_separator_or_plain as [H|H].
  - destruct (sp_at_decompose c H) as (n & p & -> & Hn). exists n.
    split; [apply rephoned_comment_of_halves; exact Hn |].
    split; [exact Hn | apply extract_client_name_of_halves; exact Hn].
  - exists c. split; [apply rephoned_comment_appends; exact H |].
    pose proof (no_sp_at_of_no_at c H) as Hsp.
    split; [exact Hsp | apply extract_client_name_plain; exact Hsp].
Qed.

End PhoneRoundTrip.

(** X21. The phone written is the phone read. With a current directory
    on a device whose ids are distinct, for a client whose comment holds
    the separator, or no [@] at all, [update_client_phone] succeeds;
    afterwards the same name finds the same record, id, MAC address and
    type unchanged, and [get_client_phone] returns the new phone,
    stripped. *)
Theorem phone_written_is_phone_read (client_name new_phone c : string)
    (self : MikrotikManager) (eb : Binding) :
  clients_cache self = _load_clients self ->
  NoDup (map b_id (ip_binding (api self))) ->
  find_client_in_ip_bindings client_name self = Some eb ->
  b_comment eb = Some c ->
  str_in " @" c = true \/ str_in "@" c = false ->
  update_client_phone client_name new_phone self
  = (Value (true, None),
     snd (update_client_phone client_name new_phone self))
  /\ (exists eb',
        find_client_in_ip_bindings client_name
          (snd (update_client_phone client_name new_phone self)) = Some eb'
        /\ b_id eb' = b_id eb
        /\ b_mac_address eb' = b_mac_address eb
        /\ b_type eb' = b_type eb)
  /\ get_client_phone client_name
       (snd (update_client_phone client_name new_phone self))
     = strip new_phone.
Proof.
  intros current distinct_ids known comment Hshape.
  destruct (found_is_on_device client_name self eb current known)
    as (Hin & Ht & Hthere).
  rewrite comment in Ht. cbn [get] in Ht.
  destruct (rephoned_comment_shape new_phone c Hshape)
    as (n & Hc' & Hn & Hname).
  rewrite (update_client_phone_writes client_name new_phone self eb known
             Hthere c _ comment Ht Hc').
  cbn [snd].
  assert (Hfound :
    find_client_in_ip_bindings client_name
      (refreshed
         (with_bindings
            (set_on (b_id eb) (only_comment (n ++ " @" ++ strip new_phone))
               (ip_binding (api self)))
            (api self)))
    = Some (apply_fields (only_comment (n ++ " @" ++ strip new_phone)) eb)).
  { apply edited_record_is_found; [exact current | exact known |].
    intros b Hb. unfold edit_record.
    destruct (N.eqb_spec (b_id b) (b_id eb)) as [E|]; [| reflexivity].
    rewrite (unique_id _ _ _ distinct_ids Hb Hin E).
    unfold load_key. cbn [apply_fields b_comment only_comment f_comment or_old].
    rewrite comment. cbn [get].
    rewrite Ht, (truthy_with_separator n " @" (strip new_phone) eq_refl).
    rewrite (extract_client_name_of_halves n _ Hn), Hname. reflexivity. }
  split; [reflexivity |]. split.
  - eexists. split; [exact Hfound |]. repeat split.
  - unfold get_client_phone. rewrite Hfound.
    cbn [apply_fields b_comment only_comment f_comment or_old get].
    rewrite (comment_phone_of_halves n _ Hn). apply strip_idem.
Qed.

Lemma phone_written_is_phone_read_witness :
  get_client_phone "bob"
    (snd (update_client_phone "bob" " 0999 " Sample.office))
  = "0999".
Proof.
  assert (Hnd : NoDup (map b_id (ip_binding (api Sample.office)))).
  { repeat constructor; cbn; intuition discriminate. }
  exact (proj2 (proj2 (phone_written_is_phone_read "bob" " 0999 " "bob @0100"
                         Sample.office Sample.bob eq_refl Hnd eq_refl eq_refl
                         (or_introl eq_refl)))).
Defined.

Section MacRoundTrip.

Variables (client_name mac_or_ip mac_address : string)
  (self : MikrotikManager) (eb : Binding).

Hypothesis current : clients_cache self = _load_clients self.
Hypothesis known : find_client_in_ip_bindings client_name self = Some eb.
Hypothesis resolved : resolved_mac mac_or_ip self = Some mac_address.
Hypothesis no_other_holder :
  forall emb, find_mac_in_ip_bindings mac_address self = Some emb ->
              b_id emb = b_id eb.

Lemma mac_fields_keep_names (b : Binding) :
  load_key (edit_record (b_id eb) (mac_fields eb mac_address) b) = load_key b.
Proof.
  unfold edit_record. destruct (b_id b =? b_id eb)%N; reflexivity.
Qed.

Lemma update_client_mac_sets :
  update_client_mac client_name mac_or_ip self
  = (Value (true, None),
     refreshed
       (with_bindings
          (set_on (b_id eb) (mac_fields eb mac_address)
             (ip_binding (api self)))
          (api self))).
Proof.
  destruct (found_is_on_device client_name self eb current known)
    as (_ & _ & Hthere).
  rewrite (update_client_mac_run _ _ _ _ resolved _ known).
  assert (Hset : set_mac eb mac_address self
                 = (Value (true, None),
                    refreshed
                      (with_bindings
                         (set_on (b_id eb) (mac_fields eb mac_address)
                            (ip_binding (api self)))
                         (api self))))
    by (unfold set_mac; rewrite Hthere; reflexivity).
  destruct (find_mac_in_ip_bindings mac_address self) as [emb|] eqn:Hm;
    [| exact Hset].
  rewrite (no_other_holder emb eq_refl), N.eqb_refl. exact Hset.
Qed.

End MacRoundTrip.

(** X22. The address written is the address read. With a current
    directory, when [update_client_mac] is given an address that resolves
    and that no other record holds, it succeeds; afterwards the same name
    finds the record with the new address, the client does not count as
    blocked, and its phone is what it was. *)
Theorem mac_written_is_mac_read (client_name mac_or_ip mac_address : string)
    (self : MikrotikManager) (eb : Binding) :
  clients_cache self = _load_clients self ->
  find_client_in_ip_bindings client_name self = Some eb ->
  resolved_mac mac_or_ip self = Some mac_address ->
  (forall emb, find_mac_in_ip_bindings mac_address self = Some emb ->
               b_id emb = b_id eb) ->
  update_client_mac client_name mac_or_ip self
  = (Value (true, None),
     snd (update_client_mac client_name mac_or_ip self))
  /\ get_client_mac client_name
       (snd (update_client_mac client_name mac_or_ip self))
     = mac_address
  /\ is_client_blocked client_name
       (snd (update_client_mac client_name mac_or_ip self))
     = false
  /\ get_client_phone client_name
       (snd (update_client_mac client_name mac_or_ip self))
     = get_client_phone client_name self.
Proof.
  intros current known resolved no_other_holder.
  rewrite (update_client_mac_sets client_name mac_or_ip mac_address self eb
             current known resolved no_other_holder).
  cbn [snd].
  pose proof (edited_record_is_found client_name self eb
                (mac_fields eb mac_address) current known
                (fun b _ => mac_fields_keep_names mac_address eb b))
    as Hfound.
  split; [reflexivity |].
  unfold get_client_mac, is_client_blocked, get_client_phone.
  rewrite Hfound, known.
  cbn [apply_fields mac_fields b_mac_address b_type b_comment f_mac_address
       f_type f_comment or_old get].
  split; [reflexivity |]. split; [| reflexivity].
  destruct (b_type eb) as [t|]; cbn [get].
  - destruct (t =? "blocked") eqn:E; cbn [or_old]; [reflexivity | exact E].
  - reflexivity.
Qed.

Lemma mac_written_is_mac_read_witness :
  get_client_mac "alice"
    (snd (update_client_mac "alice" "10.0.0.7" Lab.manager))
  = "AA:BB:CC:DD:EE:0A"
  /\ is_client_blocked "alice"
       (snd (update_client_mac "alice" "10.0.0.7" Lab.manager))
     = false.
Proof.
  assert (Hfree : forall emb,
            find_mac_in_ip_bindings "AA:BB:CC:DD:EE:0A" Lab.manager = Some emb ->
            b_id emb = b_id Sample.alice)
    by (intros emb [=]).
  pose proof (mac_written_is_mac_read "alice" "10.0.0.7" "AA:BB:CC:DD:EE:0A"
                Lab.manager Sample.alice eq_refl eq_refl eq_refl Hfree)
    as (_ & Hmac & Hblocked & _).
  split; [exact Hmac | exact Hblocked].
Defined.

Section RenameRoundTrip.

Variables (new_name c : string).

Hypothesis new_name_text : truthy (strip new_name) = true.
Hypothesis new_name_plain : str_in "@" (strip new_name) = false.

Lemma find_the_one {A : Type} (p : A -> bool) (l : list A) (x : A) :
  In x l -> p x = true ->
  (forall y, In y l -> p y = true -> y = x) ->
  find p l = Some x.
Proof.
  induction l as [|a l IH]; cbn [In find]; [intros [] |].
  intros Hin Hx Hone. destruct (p a) eqn:Ha.
  - f_equal. apply Hone; [left; reflexivity | exact Ha].
  - destruct Hin as [->|Hin]; [congruence |].
    apply IH; [exact Hin | exact Hx |].
    intros y Hy. apply Hone. right. exact Hy.
Qed.

Lemma comment_phone_plain (s : string) :
  str_in "@" s = false -> comment_phone s = "".
Proof.
  intros H. unfold comment_phone.
  rewrite (no_sp_at_of_no_at s H), H. reflexivity.
Qed.

Lemma comment_phone_bare_at (n p : string) :
  str_in "@" n = false ->
  str_in " @" (n ++ "@" ++ p) = false ->
  comment_phone (n ++ "@" ++ p) = strip p.
Proof.
  intros Hn Hsp. unfold comment_phone. rewrite Hsp.
  change (n ++ "@" ++ p) with (n ++ String "@" p).
  rewrite str_in_char_app. unfold split1. rewrite split_go_char by exact Hn.
  cbn [may_split one_less option_map Nat.pred nth_error].
  rewrite split_go_exhausted by reflexivity. reflexivity.
Qed.

(** The comment written: it gives the new name, and the phone the old
    comment gave. *)
Lemma renamed_comment_shape :
  exists c',
    renamed_comment c new_name = Some c'
    /\ truthy c' = true
    /\ _extract_client_name c' = strip new_name
    /\ comment_phone c' = comment_phone c.
Proof.
  pose proof (no_sp_at_of_no_at _ new_name_plain) as Hplain.
  assert (Hhalves : forall p,
            truthy (strip new_name ++ " @" ++ p) = true
            /\ _extract_client_name (strip new_name ++ " @" ++ p)
               = strip new_name
            /\ comment_phone (strip new_name ++ " @" ++ p) = strip p).
  { intros p. split; [apply truthy_with_separator; reflexivity |].
    split; [| apply comment_phone_of_halves; exact Hplain].
    rewrite (extract_client_name_of_halves _ _ Hplain). apply strip_idem. }
  destruct (str_in " @" c) eqn:Hsp.
  - destruct (sp_at_decompose c Hsp) as (n & p & -> & Hn).
    exists (strip new_name ++ " @" ++ p).
    destruct (Hhalves p) as (H1 & H2 & H3).
    split; [apply renamed_comment_of_halves; exact Hn |].
    split; [exact H1 |]. split; [exact H2 |].
    rewrite H3, (comment_phone_of_halves n p Hn). reflexivity.
  - destruct (str_in "@" c) eqn:Hat.
    + destruct (char_decompose "@" c Hat) as (n & p & -> & Hn).
      change (n ++ String "@" p) with (n ++ "@" ++ p) in *.
      exists (strip new_name ++ " @" ++ p).
      destruct (Hhalves p) as (H1 & H2 & H3).
      split; [apply renamed_comment_bare_at; assumption |].
      split; [exact H1 |]. split; [exact H2 |].
      rewrite H3, (comment_phone_bare_at n p Hn Hsp). reflexivity.
    + exists (strip new_name).
      split; [unfold renamed_comment; rewrite Hsp, Hat; reflexivity |].
      split; [exact new_name_text |].
      split; [rewrite (extract_client_name_plain _ Hplain); apply strip_idem |].
      rewrite (comment_phone_plain _ new_name_plain),
        (comment_phone_plain _ Hat). reflexivity.
Qed.

End RenameRoundTrip.

(** X23. Renaming, then looking up. With a current directory on a device
    whose ids are distinct, renaming a client to a name that is not
    blank, holds no [@] and is the name of no other record succeeds;
    afterwards the new name finds the same record, id, MAC address and
    type unchanged, and [get_client_phone] under the new name returns the
    phone the comment gave before. *)
Theorem renamed_client_is_found_by_new_name (client_name new_name c : string)
    (self : MikrotikManager) (eb : Binding) :
  clients_cache self = _load_clients self ->
  NoDup (map b_id (ip_binding (api self))) ->
  find_client_in_ip_bindings client_name self = Some eb ->
  b_comment eb = Some c ->
  truthy (strip new_name) = true ->
  str_in "@" (strip new_name) = false ->
  (forall b, In b (ip_binding (api self)) -> b_id b <> b_id eb ->
             named (strip new_name) b = false) ->
  update_client_name client_name new_name self
  = (Value (true, None),
     snd (update_client_name client_name new_name self))
  /\ (exists eb',
        find_client_in_ip_bindings new_name
          (snd (update_client_name client_name new_name self)) = Some eb'
        /\ b_id eb' = b_id eb
        /\ b_mac_address eb' = b_mac_address eb
        /\ b_type eb' = b_type eb)
  /\ get_client_phone new_name
       (snd (update_client_name client_name new_name self))
     = comment_phone c.
Proof.
  intros current distinct_ids known comment new_name_text new_name_plain
    new_name_free.
  destruct (found_is_on_device client_name self eb current known)
    as (Hin & Ht & Hthere).
  rewrite comment in Ht. cbn [get] in Ht.
  destruct (renamed_comment_shape new_name c new_name_text new_name_plain)
    as (c' & Hc' & Ht' & Hname & Hphone).
  rewrite (update_client_name_writes client_name new_name self eb known
             Hthere c c' comment Ht Hc').
  cbn [snd].
  assert (Hfound :
    find_client_in_ip_bindings new_name
      (refreshed
         (with_bindings
            (set_on (b_id eb) (only_comment c') (ip_binding (api self)))
            (api self)))
    = Some (apply_fields (only_comment c') eb)).
  { rewrite find_client_stages. unfold refreshed. cbn [clients_cache].
    rewrite load_clients_lookup. cbn [api with_bindings ip_binding].
    unfold set_on. rewrite <- map_rev.
    rewrite (find_the_one _ _ (apply_fields (only_comment c') eb));
      [reflexivity | | |].
    - apply in_map_iff. exists eb. rewrite N.eqb_refl.
      split; [reflexivity | apply in_rev; rewrite rev_involutive; exact Hin].
    - unfold named.
      cbn [apply_fields only_comment b_comment f_comment or_old get].
      rewrite Ht', Hname, String.eqb_refl. reflexivity.
    - intros y Hy Hnamed. apply in_map_iff in Hy as (b & <- & Hb).
      apply in_rev in Hb.
      destruct (N.eqb_spec (b_id b) (b_id eb)) as [E|E].
      + rewrite (unique_id _ _ _ distinct_ids Hb Hin E). reflexivity.
      + rewrite (new_name_free b Hb E) in Hnamed. discriminate. }
  split; [reflexivity |]. split.
  - eexists. split; [exact Hfound |]. repeat split.
  - unfold get_client_phone. rewrite Hfound.
    cbn [apply_fields b_comment only_comment f_comment or_old get].
    exact Hphone.
Qed.

Lemma renamed_client_is_found_by_new_name_witness :
  get_client_phone " robert "
    (snd (update_client_name "bob" " robert " Sample.office))
  = "0100".
Proof.
  assert (Hnd : NoDup (map b_id (ip_binding (api Sample.office)))).
  { repeat constructor; cbn; intuition discriminate. }
  assert (Hfree : forall b,
            In b (ip_binding (api Sample.office)) ->
            b_id b <> b_id Sample.bob ->
            named (strip " robert ") b = false).
  { intros b [<-|[<-|[<-|[]]]] Hid;
      [exfalso; apply Hid; reflexivity | reflexivity | reflexivity]. }
  exact (proj2 (proj2 (renamed_client_is_found_by_new_name "bob" " robert "
                         "bob @0100" Sample.office Sample.bob eq_refl Hnd
                         eq_refl eq_refl eq_refl eq_refl Hfree))).
Defined.
